(** * Clip size analyser: a shallow embedding of [analyze_clip_sizes.py]

    The script scans a directory of MP4 files, builds one record per file
    that could be probed, prints descriptive statistics, groups the
    bytes-per-second values by resolution, frame rate and audio presence,
    fences outliers with the interquartile range and compares the high
    outliers with the normal clips.

    Numbers: integers are [Z].  Python floats are read in two ways.  The
    main development idealises them as exact rationals ([Q]); its
    statements are about the structure of the computation and about
    comparisons that rounding cannot turn.  Where one unit in the last
    place can change what the script prints (a fence that collapses beside
    the value it was computed from, a percent difference that meets its
    threshold exactly), the statements are made about module [Binary64],
    which embeds the same source lines on IEEE 754 binary64 numbers.
    Infinities and NaN are outside both readings.  Printing is modelled by
    the structured values that are printed, not by the formatted text. *)

From Stdlib Require Import Ascii String ZArith QArith Qround Qabs List Bool Lia Lqa.
From Stdlib Require Import DecimalString Permutation Sorted.
From Stdlib Require DecimalZ DecimalPos.
From Stdlib Require Import PrimFloat SpecFloat FloatOps.
Import ListNotations.

Local Open Scope Q_scope.

(** ** Python runtime: exceptions, booleans on rationals, library functions *)

Module Py.

(** The exceptions the script can meet after the scanning loop. *)
Inductive exn : Type :=
| StatisticsError
| ZeroDivisionError
| TypeError.

Inductive result (A : Type) : Type :=
| Ok (a : A)
| Raise (e : exn).
Arguments Ok {A} a.
Arguments Raise {A} e.

Definition bind {A B} (m : result A) (k : A -> result B) : result B :=
  match m with
  | Ok a => k a
  | Raise e => Raise e
  end.

Definition fmap {A B} (f : A -> B) (m : result A) : result B :=
  bind m (fun a => Ok (f a)).

(** A [for] loop whose body may raise and that collects one value per
    iteration. *)
Fixpoint for_each {A B} (body : A -> result B) (l : list A) : result (list B) :=
  match l with
  | [] => Ok []
  | x :: l' =>
      bind (body x) (fun y => bind (for_each body l') (fun ys => Ok (y :: ys)))
  end.

(** [x < y] on rationals, as a boolean; [Qle_bool] is [x <= y]. *)
Definition Qltb (x y : Q) : bool := negb (Qle_bool y x).

(** [a / b] on numbers: raises [ZeroDivisionError] when [b] is zero. *)
Definition div (a b : Q) : result Q :=
  if Qeq_bool b 0 then Raise ZeroDivisionError else Ok (a / b).

(** [sum(l)], each addition exact. *)
Definition sum (l : list Q) : Q := fold_left Qplus l 0.

Definition nonempty {A} (l : list A) : bool :=
  match l with [] => false | _ :: _ => true end.

(** [statistics.mean]: raises [StatisticsError] on an empty sample. *)
Definition mean (l : list Q) : result Q :=
  if nonempty l then Ok (sum l / inject_Z (Z.of_nat (length l)))
  else Raise StatisticsError.

(** [round(x)] with one argument: nearest integer, halves to the even
    neighbour. *)
Definition round (x : Q) : Z :=
  let f := Qfloor x in
  match Qcompare (x - inject_Z f) (1 # 2) with
  | Lt => f
  | Gt => (f + 1)%Z
  | Eq => if Z.even f then f else (f + 1)%Z
  end.

(** [str(z)] for an integer, as used by an f-string. *)
Definition str_int (z : Z) : string := NilZero.string_of_int (Z.to_int z).

(** Sorting.  [sorted] and [list.sort] are stable; with [reverse=True] the
    result is descending and elements with equal keys keep their original
    order.  Both are given by one stable insertion sort over the relation
    "may stand before". *)
Section Sorting.
Context {A : Type} (before : A -> A -> bool).

Fixpoint insert_by (x : A) (l : list A) : list A :=
  match l with
  | [] => [x]
  | y :: l' => if before x y then x :: l else y :: insert_by x l'
  end.

Definition sorted_by (l : list A) : list A := fold_right insert_by [] l.
End Sorting.

(** [sorted(l, key=key, reverse=True)] on integer keys. *)
Definition sorted_key_reverse {A} (key : A -> Z) (l : list A) : list A :=
  sorted_by (fun x y => (key y <=? key x)%Z) l.

(** [sorted(l, key=key)] and [sorted(l, key=key, reverse=True)] on rational
    keys. *)
Definition sorted_keyQ {A} (key : A -> Q) (l : list A) : list A :=
  sorted_by (fun x y => Qle_bool (key x) (key y)) l.

Definition sorted_keyQ_reverse {A} (key : A -> Q) (l : list A) : list A :=
  sorted_by (fun x y => Qle_bool (key y) (key x)) l.

(** [range(a, b)] over integers. *)
Definition range (a b : Z) : list Z :=
  map (fun k => (a + Z.of_nat k)%Z) (seq 0 (Z.to_nat (b - a))).

(** [data[j]] for an index within the list; see [cut_indices_in_range]
    for the indices the quantile loops use. *)
Definition item (data : list Q) (j : Z) : Q := nth (Z.to_nat j) data 0.

(** [statistics.quantiles(data, n=n, method=...)].

    The library changed its answer on a one-point sample: up to Python
    3.12 it raises [StatisticsError], from 3.13 on it returns the point
    repeated [n - 1] times.  The script does not pin an interpreter, so
    the model takes the rule as a parameter. *)
Inductive statistics_version : Type := UpTo312 | From313.

Inductive quantile_method : Type := Exclusive | Inclusive.

Definition clamp_index (ld j : Z) : Z :=
  if (j <? 1)%Z then 1%Z else if (ld - 1 <? j)%Z then (ld - 1)%Z else j.

(** Body of the loop of the inclusive branch, for the cut point [i]. *)
Definition inclusive_cut (data : list Q) (n i : Z) : Q :=
  let ld := Z.of_nat (length data) in
  let m := (ld - 1)%Z in
  let j := (i * m / n)%Z in
  let delta := ((i * m) mod n)%Z in
  (item data j * inject_Z (n - delta) + item data (j + 1) * inject_Z delta)
  / inject_Z n.

(** Body of the loop of the exclusive branch, for the cut point [i].  The
    value is exact; [Binary64.exclusive_cut] rounds each operation. *)
Definition exclusive_cut (data : list Q) (n i : Z) : Q :=
  let ld := Z.of_nat (length data) in
  let m := (ld + 1)%Z in
  let j := (i * m / n)%Z in
  let j := clamp_index ld j in
  let delta := (i * m - j * n)%Z in
  (item data (j - 1) * inject_Z (n - delta) + item data j * inject_Z delta)
  / inject_Z n.

Definition quantiles (v : statistics_version) (data : list Q) (n : Z)
           (method : quantile_method) : result (list Q) :=
  let data := sorted_keyQ (fun x => x) data in
  let ld := Z.of_nat (length data) in
  if (ld <? 2)%Z then
    match v with
    | UpTo312 => Raise StatisticsError
    | From313 =>
        if (ld =? 1)%Z then Ok (concat (repeat data (Z.to_nat (n - 1))))
        else Raise StatisticsError
    end
  else
    match method with
    | Inclusive => Ok (map (inclusive_cut data n) (range 1 n))
    | Exclusive => Ok (map (exclusive_cut data n) (range 1 n))
    end.

(** Dictionaries keep insertion order, which the script relies on when
    it sorts [items()]: an association list without duplicate keys. *)
Section Dict.
Context {K V : Type} (eqb : K -> K -> bool).

Definition dict := list (K * V).

(** [k in d]. *)
Fixpoint contains (k : K) (d : dict) : bool :=
  match d with
  | [] => false
  | (k', _) :: d' => if eqb k k' then true else contains k d'
  end.

(** [d.get(k, default)]. *)
Fixpoint get (k : K) (default : V) (d : dict) : V :=
  match d with
  | [] => default
  | (k', v) :: d' => if eqb k k' then v else get k default d'
  end.

(** [d[k] = v]: overwrites in place, or adds the key at the end. *)
Fixpoint set (k : K) (v : V) (d : dict) : dict :=
  match d with
  | [] => [(k, v)]
  | (k', v') :: d' =>
      if eqb k k' then (k', v) :: d' else (k', v') :: set k v d'
  end.
End Dict.

End Py.

Import Py.

Declare Scope py_scope.
Notation "x <- m ;; k" := (bind m (fun x => k))
  (at level 61, m at next level, right associativity) : py_scope.
Notation "'do' m ;; k" := (bind m (fun _ => k))
  (at level 61, m at next level, right associativity) : py_scope.
Local Open Scope py_scope.

(** ** Data model *)

(** What [VideoFileClip] reports for one file: [duration], [fps], [size]
    (width and height, or nothing) and whether there is an audio track. *)
Record metadata : Type := {
  md_duration : Q;
  md_fps : option Q;
  md_size : option (Z * Z);
  md_has_audio : bool
}.

(** One enumerated file: its name and what reading it gives, either the
    text of the exception raised inside the [try] block or the size from
    [stat()] together with the metadata. *)
Record video_file : Type := {
  vf_name : string;
  vf_probe : string + (Z * metadata)
}.

(** The directory argument: whether it exists and what [glob("*.mp4")]
    lists, in enumeration order. *)
Record directory : Type := {
  dir_exists : bool;
  dir_glob_mp4 : list video_file
}.

(** One entry of [clips_data]; the fields are the keys of the dictionary
    built at lines 46-59. *)
Record clip : Type := {
  filename : string;
  file_size : Z;
  duration : Q;
  fps : option Q;
  width : Z;
  height : Z;
  resolution : string;
  has_audio : bool;
  bitrate : Q;
  bytes_per_second : Q;
  pixels_per_frame : Z;
  total_frames : Q
}.

(** One entry of [errors]. *)
Record analysis_error : Type := {
  err_filename : string;
  err_error : string
}.

(** Truth value of [c['fps']]: [None] and zero are false. *)
Definition truthy (x : option Q) : bool :=
  match x with
  | None => false
  | Some f => negb (Qeq_bool f 0)
  end.

Definition fps_or_zero (x : option Q) : Q :=
  match x with
  | None => 0
  | Some f => f
  end.

(** ** Clip record builder (lines 41-59) *)

Definition build_record (name : string) (size : Z) (md : metadata) : clip :=
  let duration := md_duration md in
  let fps := md_fps md in
  let resolution := md_size md in
  let bitrate :=
    if Qltb 0 duration then inject_Z (size * 8) / duration else 0 in
  let bytes_per_second :=
    if Qltb 0 duration then inject_Z size / duration else 0 in
  let pixels_per_frame :=
    match resolution with Some (w, h) => (w * h)%Z | None => 0%Z end in
  let total_frames :=
    if truthy fps then duration * fps_or_zero fps else 0 in
  {| filename := name;
     file_size := size;
     duration := duration;
     fps := fps;
     width := match resolution with Some (w, _) => w | None => 0%Z end;
     height := match resolution with Some (_, h) => h | None => 0%Z end;
     resolution :=
       match resolution with
       | Some (w, h) => (str_int w ++ "x" ++ str_int h)%string
       | None => "Unknown"%string
       end;
     has_audio := md_has_audio md;
     bitrate := bitrate;
     bytes_per_second := bytes_per_second;
     pixels_per_frame := pixels_per_frame;
     total_frames := total_frames |}.

(** ** Directory scan (lines 24-70) *)

Record scan_state : Type := {
  clips_data : list clip;
  file_count : Z;
  errors : list analysis_error
}.

Definition scan_step (st : scan_state) (f : video_file) : scan_state :=
  match vf_probe f with
  | inr (size, md) =>
      {| clips_data := clips_data st ++ [build_record (vf_name f) size md];
         file_count := (file_count st + 1)%Z;
         errors := errors st |}
  | inl message =>
      {| clips_data := clips_data st;
         file_count := file_count st;
         errors := errors st
                   ++ [{| err_filename := vf_name f; err_error := message |}] |}
  end.

Definition scan (mp4_files : list video_file) : scan_state :=
  fold_left scan_step mp4_files
            {| clips_data := []; file_count := 0%Z; errors := [] |}.

(** ** Grouping engine (lines 157-198) *)

Section Grouping.
Context {K : Type} (eqb : K -> K -> bool) (key : clip -> K).

(** Loop body of lines 159-162 and 173-176: create the list on first
    sight of the key, then append the clip's bytes-per-second value. *)
Definition group_step (groups : list (K * list Q)) (c : clip)
  : list (K * list Q) :=
  let k := key c in
  let groups := if contains eqb k groups then groups else set eqb k [] groups in
  set eqb k (get eqb k [] groups ++ [bytes_per_second c]) groups.

Definition group_from (init : list (K * list Q)) (clips : list clip)
  : list (K * list Q) :=
  fold_left group_step clips init.

Definition group_by (clips : list clip) : list (K * list Q) :=
  group_from [] clips.
End Grouping.

Definition res_groups (clips : list clip) : list (string * list Q) :=
  group_by String.eqb resolution clips.

(** Key of the frame-rate grouping; [0] stands for an absent frame rate. *)
Definition fps_rounded (c : clip) : Z :=
  if truthy (fps c) then round (fps_or_zero (fps c)) else 0%Z.

Definition fps_groups (clips : list clip) : list (Z * list Q) :=
  group_by Z.eqb fps_rounded clips.

Definition audio_key (c : clip) : string :=
  if has_audio c then "with_audio"%string else "without_audio"%string.

(** Both keys exist from the start (line 185). *)
Definition audio_groups (clips : list clip) : list (string * list Q) :=
  group_from String.eqb audio_key
             [("with_audio"%string, []); ("without_audio"%string, [])] clips.

(** [len(x[1])] as sort key. *)
Definition group_len {K : Type} (g : K * list Q) : Z :=
  Z.of_nat (length (snd g)).

(** A printed line of a group table: key, mean and number of samples. *)
Definition group_row {K : Type} (g : K * list Q) : result (K * Q * nat) :=
  avg_bps <- mean (snd g) ;;
  Ok (fst g, avg_bps, length (snd g)).

(** The groups whose statistics lines 165-168 print, in printing order. *)
Definition res_emitted (groups : list (string * list Q))
  : list (string * list Q) :=
  filter (fun g => (3 <=? group_len g)%Z) (sorted_key_reverse group_len groups).

(** The groups whose statistics lines 179-182 print, in printing order. *)
Definition fps_emitted (groups : list (Z * list Q)) : list (Z * list Q) :=
  filter (fun g => (3 <=? group_len g)%Z && (0 <? fst g)%Z)
         (sorted_key_reverse group_len groups).

Definition res_table (groups : list (string * list Q))
  : result (list (string * Q * nat)) :=
  for_each group_row (res_emitted groups).

Definition fps_table (groups : list (Z * list Q))
  : result (list (Z * Q * nat)) :=
  for_each group_row (fps_emitted groups).

(** ** Outlier detector (lines 217-250) *)

Record fence : Type := {
  q1 : Q;
  q3 : Q;
  iqr : Q;
  lower_bound : Q;
  upper_bound : Q
}.

(** Lines 217-221. *)
Definition outlier_fence (v : statistics_version) (bytes_per_sec : list Q)
  : result fence :=
  qs <- quantiles v bytes_per_sec 4 Exclusive ;;
  let q1 := nth 0 qs 0 in
  qs' <- quantiles v bytes_per_sec 4 Exclusive ;;
  let q3 := nth 2 qs' 0 in
  let iqr := q3 - q1 in
  let lower_bound := q1 - (3 # 2) * iqr in
  let upper_bound := q3 + (3 # 2) * iqr in
  Ok {| q1 := q1; q3 := q3; iqr := iqr;
        lower_bound := lower_bound; upper_bound := upper_bound |}.

Definition is_low (lower_bound : Q) (c : clip) : bool :=
  Qltb (bytes_per_second c) lower_bound.

Definition is_high (upper_bound : Q) (c : clip) : bool :=
  Qltb upper_bound (bytes_per_second c).

(** Line 222. *)
Definition outliers_of (clips : list clip) (lower_bound upper_bound : Q)
  : list clip :=
  filter (fun c => is_low lower_bound c || is_high upper_bound c) clips.

(** Lines 229-230. *)
Definition high_outliers_of (outliers : list clip) (upper_bound : Q)
  : list clip :=
  filter (is_high upper_bound) outliers.

Definition low_outliers_of (outliers : list clip) (lower_bound : Q)
  : list clip :=
  filter (is_low lower_bound) outliers.

(** Line 257. *)
Definition normal_clips_of (clips : list clip) (lower_bound upper_bound : Q)
  : list clip :=
  filter (fun c => Qle_bool lower_bound (bytes_per_second c)
                   && Qle_bool (bytes_per_second c) upper_bound) clips.

(** One printed outlier line (lines 237 and 247): the format [:.1f] applied
    to [c['fps']] raises [TypeError] when the frame rate is [None]. *)
Definition outlier_line (c : clip) : result clip :=
  match fps c with
  | None => Raise TypeError
  | Some _ => Ok c
  end.

(** ** Comparative diagnostics (lines 256-337) *)

Inductive tracked_field : Type :=
| FieldFps
| FieldBitrate
| FieldDuration
| FieldAudio
| FieldPixels.

(** [(a / b - 1) * 100]. *)
Definition percent_diff (a b : Q) : result Q :=
  q <- div a b ;;
  Ok ((q - 1) * 100).

(** [[c['fps'] for c in clips if c['fps']]]. *)
Definition fps_values (clips : list clip) : list Q :=
  map (fun c => fps_or_zero (fps c)) (filter (fun c => truthy (fps c)) clips).

(** [sum(1 for c in clips if c['has_audio']) / len(clips) * 100]. *)
Definition audio_pct (clips : list clip) : result Q :=
  r <- div (inject_Z (Z.of_nat (length (filter has_audio clips))))
           (inject_Z (Z.of_nat (length clips))) ;;
  Ok (r * 100).

(** A printed "Difference" line: absolute and percent difference. *)
Definition difference_line (has_normal : bool) (high_avg normal_avg : Q)
  : result (option (Q * Q)) :=
  if has_normal then
    p <- percent_diff high_avg normal_avg ;;
    Ok (Some (high_avg - normal_avg, p))
  else Ok None.

Record comparison : Type := {
  normal_clips : list clip;
  high_avg_fps : Q;
  normal_avg_fps : Q;
  fps_difference : option (Q * Q);
  high_avg_bitrate : Q;
  normal_avg_bitrate : Q;
  bitrate_difference : option (Q * Q);
  high_avg_duration : Q;
  normal_avg_duration : Q;
  duration_difference : option (Q * Q);
  high_audio_pct : Q;
  normal_audio_pct : Q;
  high_avg_pixels : Q;
  normal_avg_pixels : Q;
  pixels_difference : option (Q * Q);
  findings : list (tracked_field * Q)
}.

(** Lines 320-330: the four tests, in order; each recomputes its percent
    difference.  Here the tests are made on the exact differences;
    [Binary64.key_findings] makes them on the rounded ones, which is what
    decides a difference of exactly 10 percent or 20 points. *)
Definition key_findings (has_normal : bool)
           (high_avg_fps normal_avg_fps
            high_avg_bitrate normal_avg_bitrate
            high_avg_pixels normal_avg_pixels
            high_audio_pct normal_audio_pct : Q)
  : result (list (tracked_field * Q)) :=
  let findings := [] in
  if has_normal then
    p <- percent_diff high_avg_fps normal_avg_fps ;;
    let findings :=
      if Qltb 10 (Qabs p) then findings ++ [(FieldFps, p)] else findings in
    p <- percent_diff high_avg_bitrate normal_avg_bitrate ;;
    let findings :=
      if Qltb 10 (Qabs p) then findings ++ [(FieldBitrate, p)] else findings in
    p <- percent_diff high_avg_pixels normal_avg_pixels ;;
    let findings :=
      if Qltb 10 (Qabs p) then findings ++ [(FieldPixels, p)] else findings in
    let d := high_audio_pct - normal_audio_pct in
    let findings :=
      if Qltb 20 (Qabs d) then findings ++ [(FieldAudio, d)] else findings in
    Ok findings
  else Ok findings.

(** The block guarded by [if high_outliers:] at line 256; the inner test
    at line 274 repeats the guard and is always taken.  The resolution
    counters of lines 262-271 only count and print; they are left out. *)
Definition compare_high_vs_normal
           (clips_data high_outliers : list clip) (lower_bound upper_bound : Q)
  : result comparison :=
  let normal_clips := normal_clips_of clips_data lower_bound upper_bound in
  let has_normal := nonempty normal_clips in
  high_avg_fps <- mean (fps_values high_outliers) ;;
  normal_avg_fps <-
    (if has_normal then mean (fps_values normal_clips) else Ok 0) ;;
  fps_difference <- difference_line has_normal high_avg_fps normal_avg_fps ;;
  high_avg_bitrate <- mean (map bitrate high_outliers) ;;
  normal_avg_bitrate <-
    (if has_normal then mean (map bitrate normal_clips) else Ok 0) ;;
  bitrate_difference <-
    difference_line has_normal high_avg_bitrate normal_avg_bitrate ;;
  high_avg_duration <- mean (map duration high_outliers) ;;
  normal_avg_duration <-
    (if has_normal then mean (map duration normal_clips) else Ok 0) ;;
  duration_difference <-
    difference_line has_normal high_avg_duration normal_avg_duration ;;
  high_audio_pct <- audio_pct high_outliers ;;
  normal_audio_pct <- (if has_normal then audio_pct normal_clips else Ok 0) ;;
  high_avg_pixels <-
    mean (map (fun c => inject_Z (pixels_per_frame c)) high_outliers) ;;
  normal_avg_pixels <-
    (if has_normal
     then mean (map (fun c => inject_Z (pixels_per_frame c)) normal_clips)
     else Ok 0) ;;
  pixels_difference <-
    difference_line has_normal high_avg_pixels normal_avg_pixels ;;
  findings <-
    key_findings has_normal high_avg_fps normal_avg_fps
                 high_avg_bitrate normal_avg_bitrate
                 high_avg_pixels normal_avg_pixels
                 high_audio_pct normal_audio_pct ;;
  Ok {| normal_clips := normal_clips;
        high_avg_fps := high_avg_fps;
        normal_avg_fps := normal_avg_fps;
        fps_difference := fps_difference;
        high_avg_bitrate := high_avg_bitrate;
        normal_avg_bitrate := normal_avg_bitrate;
        bitrate_difference := bitrate_difference;
        high_avg_duration := high_avg_duration;
        normal_avg_duration := normal_avg_duration;
        duration_difference := duration_difference;
        high_audio_pct := high_audio_pct;
        normal_audio_pct := normal_audio_pct;
        high_avg_pixels := high_avg_pixels;
        normal_avg_pixels := normal_avg_pixels;
        pixels_difference := pixels_difference;
        findings := findings |}.

(** The outlier part of the report (lines 217-339). *)
Record outlier_report : Type := {
  bounds : fence;
  outliers : list clip;
  high_outliers : list clip;
  low_outliers : list clip;
  high_listed : list clip;
  low_listed : list clip;
  high_vs_normal : option comparison
}.

Definition outlier_section (v : statistics_version) (clips_data : list clip)
  : result outlier_report :=
  let bytes_per_sec := map bytes_per_second clips_data in
  b <- outlier_fence v bytes_per_sec ;;
  let outliers := outliers_of clips_data (lower_bound b) (upper_bound b) in
  if nonempty outliers then
    let high_outliers := high_outliers_of outliers (upper_bound b) in
    let low_outliers := low_outliers_of outliers (lower_bound b) in
    let high_outliers :=
      if nonempty high_outliers
      then sorted_keyQ_reverse bytes_per_second high_outliers
      else high_outliers in
    high_listed <-
      (if nonempty high_outliers
       then for_each outlier_line (firstn 10 high_outliers) else Ok []) ;;
    let low_outliers :=
      if nonempty low_outliers
      then sorted_keyQ bytes_per_second low_outliers
      else low_outliers in
    low_listed <-
      (if nonempty low_outliers
       then for_each outlier_line (firstn 10 low_outliers) else Ok []) ;;
    high_vs_normal <-
      (if nonempty high_outliers
       then fmap Some (compare_high_vs_normal clips_data high_outliers
                                              (lower_bound b) (upper_bound b))
       else Ok None) ;;
    Ok {| bounds := b; outliers := outliers;
          high_outliers := high_outliers; low_outliers := low_outliers;
          high_listed := high_listed; low_listed := low_listed;
          high_vs_normal := high_vs_normal |}
  else
    Ok {| bounds := b; outliers := outliers;
          high_outliers := []; low_outliers := [];
          high_listed := []; low_listed := [];
          high_vs_normal := None |}.

(** The comparative diagnostics the report holds for an outlier class.
    The script has one comparison block, for the high outliers; nothing
    compares the low outliers with the normal clips. *)
Inductive outlier_class : Type := HighOutlier | LowOutlier.

Definition class_members (r : outlier_report) (cls : outlier_class)
  : list clip :=
  match cls with
  | HighOutlier => high_outliers r
  | LowOutlier => low_outliers r
  end.

Definition diagnostics_for (r : outlier_report) (cls : outlier_class)
  : option comparison :=
  match cls with
  | HighOutlier => high_vs_normal r
  | LowOutlier => None
  end.

(** ** The report and the entry point *)

(** What lines 76-349 print, as far as the statements below need it.  The
    statistics blocks of lines 88-151 and the recommendation of lines
    200-214 read non-empty samples only and cannot raise; they are left
    out. *)
Record report : Type := {
  rep_res_groups : list (string * list Q);
  rep_res_table : list (string * Q * nat);
  rep_fps_groups : list (Z * list Q);
  rep_fps_table : list (Z * Q * nat);
  rep_audio_groups : list (string * list Q);
  rep_outliers : outlier_report;
  rep_errors : list analysis_error
}.

Definition print_report (v : statistics_version) (st : scan_state)
  : result report :=
  let clips_data := clips_data st in
  let res_groups := res_groups clips_data in
  res_rows <- res_table res_groups ;;
  let fps_groups := fps_groups clips_data in
  fps_rows <- fps_table fps_groups ;;
  let audio_groups := audio_groups clips_data in
  o <- outlier_section v clips_data ;;
  Ok {| rep_res_groups := res_groups; rep_res_table := res_rows;
        rep_fps_groups := fps_groups; rep_fps_table := fps_rows;
        rep_audio_groups := audio_groups;
        rep_outliers := o;
        rep_errors := firstn 10 (errors st) |}.

(** [analyze_clips_advanced(directory)]: [Ok None] is a bare [return],
    [Ok (Some l)] is [return clips_data], [Raise e] an exception that leaves
    the function. *)
Definition analyze_clips_advanced (v : statistics_version) (d : directory)
  : result (option (list clip)) :=
  if negb (dir_exists d) then Ok None
  else
    let mp4_files := dir_glob_mp4 d in
    if negb (nonempty mp4_files) then Ok None
    else
      let st := scan mp4_files in
      if (file_count st =? 0)%Z then Ok None
      else
        do print_report v st ;;
        Ok (Some (clips_data st)).

(** ** Specification-level notions used in the statements *)

(** The keys of a list in order of first occurrence. *)
Fixpoint first_seen {K : Type} (eqb : K -> K -> bool) (l : list K) : list K :=
  match l with
  | [] => []
  | k :: l' => k :: filter (fun k' => negb (eqb k' k)) (first_seen eqb l')
  end.

(** Appending a value to the list stored under a key, creating the key at
    the end when it is new: what one round of the grouping loop does. *)
Fixpoint append_to {K : Type} (eqb : K -> K -> bool) (k : K) (x : Q)
         (groups : list (K * list Q)) : list (K * list Q) :=
  match groups with
  | [] => [(k, [x])]
  | (k', xs) :: groups' =>
      if eqb k k' then (k', xs ++ [x]) :: groups'
      else (k', xs) :: append_to eqb k x groups'
  end.

(** The bytes-per-second values of the clips with a given key, in order. *)
Definition members {K : Type} (eqb : K -> K -> bool) (key : clip -> K)
           (k : K) (clips : list clip) : list Q :=
  map bytes_per_second (filter (fun c => eqb (key c) k) clips).

(** Sum of the sample counts of all groups. *)
Definition total_samples {K : Type} (groups : list (K * list Q)) : nat :=
  list_sum (map (fun g => length (snd g)) groups).

(** The records of the files that could be read, in enumeration order. *)
Definition records_of (files : list video_file) : list clip :=
  flat_map (fun f => match vf_probe f with
                     | inr (size, md) => [build_record (vf_name f) size md]
                     | inl _ => []
                     end) files.

(** The error entries of the files that could not be read. *)
Definition errors_of (files : list video_file) : list analysis_error :=
  flat_map (fun f => match vf_probe f with
                     | inr _ => []
                     | inl message =>
                         [{| err_filename := vf_name f; err_error := message |}]
                     end) files.

(** The three situations in which the entry point gives up early. *)
Definition gives_up (d : directory) : Prop :=
  dir_exists d = false \/ dir_glob_mp4 d = [] \/ records_of (dir_glob_mp4 d) = [].

(** Linear interpolation between the order statistics of a sorted sample
    at the real-valued rank [h] (ranks count from 1), the rank's integer
    part being kept within [1 .. N-1]. *)
Definition interpolate_at_rank (sorted_sample : list Q) (h : Q) : Q :=
  let ld := Z.of_nat (length sorted_sample) in
  let j := clamp_index ld (Qfloor h) in
  let below := item sorted_sample (j - 1) in
  let above := item sorted_sample j in
  below + (h - inject_Z j) * (above - below).

(** A grouping is a partition of the clips: keys are not repeated, every
    clip's key names exactly one group, each group holds exactly the values
    of the clips with its key, and the counts add up to the number of
    clips. *)
Definition partitions {K : Type} (eqb : K -> K -> bool) (key : clip -> K)
           (clips : list clip) (groups : list (K * list Q)) : Prop :=
  NoDup (map fst groups)
  /\ (forall c, In c clips ->
                exists! g, In g groups /\ fst g = key c)
  /\ (forall k xs, In (k, xs) groups -> xs = members eqb key k clips)
  /\ total_samples groups = length clips.

(** A sample has a mean and that mean is not zero. *)
Definition nonzero_mean (l : list Q) : Prop :=
  exists m, mean l = Ok m /\ ~ m == 0.

(** ** Sample inputs *)

Definition hd_metadata (d : Q) : metadata :=
  {| md_duration := d; md_fps := Some 30;
     md_size := Some (1920%Z, 1080%Z); md_has_audio := true |}.

Definition readable (name : string) (size : Z) (d : Q) : video_file :=
  {| vf_name := name; vf_probe := inr (size, hd_metadata d) |}.

(** Seven clips of zero duration and one ordinary clip. *)
Definition dir_zero_duration : directory :=
  {| dir_exists := true;
     dir_glob_mp4 := repeat (readable "still.mp4" 1000 0) 7
                     ++ [readable "long.mp4" 1000000 10] |}.

(** Seven clips at 100 bytes/s and one at 10 bytes/s. *)
Definition dir_low_outlier : directory :=
  {| dir_exists := true;
     dir_glob_mp4 := repeat (readable "usual.mp4" 1000 10) 7
                     ++ [readable "tiny.mp4" 100 10] |}.

(** Seven clips at 100 bytes/s and one shorter clip at 1000 bytes/s. *)
Definition dir_high_outlier : directory :=
  {| dir_exists := true;
     dir_glob_mp4 := repeat (readable "usual.mp4" 1000 10) 7
                     ++ [readable "dense.mp4" 5000 5] |}.

(** One readable file. *)
Definition dir_single : directory :=
  {| dir_exists := true; dir_glob_mp4 := [readable "only.mp4" 1000 10] |}.

(** Three clips at 100, 200 and 300 bytes/s. *)
Definition dir_three : directory :=
  {| dir_exists := true;
     dir_glob_mp4 := [readable "a.mp4" 1000 10; readable "b.mp4" 2000 10;
                      readable "c.mp4" 3000 10] |}.

(** A record with a given bytes-per-second value and nothing else of
    interest. *)
Definition clip_at (x : Q) : clip :=
  {| filename := "clip.mp4"; file_size := 0; duration := 0; fps := Some 30;
     width := 0; height := 0; resolution := "0x0"; has_audio := false;
     bitrate := 0; bytes_per_second := x; pixels_per_frame := 0;
     total_frames := 0 |}.

(** Eleven values whose first and third quartile are 10 and 30. *)
Definition fence_sample : list clip :=
  map clip_at [-25; 10; 10; 15; 20; 20; 25; 30; 30; 45; 65].

(** ** The descriptive blocks of the report (lines 88-151 and 193-214) *)

(** [statistics.median]: the middle value of the sorted sample, or the
    mean of the two middle values; raises on an empty sample. *)
Definition median (data : list Q) : result Q :=
  let data := sorted_keyQ (fun x => x) data in
  let n := length data in
  if (n =? 0)%nat then Raise StatisticsError
  else if (n mod 2 =? 1)%nat then Ok (nth (n / 2) data 0)
  else
    let i := (n / 2)%nat in
    Ok ((nth (i - 1) data 0 + nth i data 0) / 2).

(** [min(l)] and [max(l)]: the first least and the first greatest element.
    On an empty list Python raises [ValueError]; every block below calls
    them after [statistics.mean] has accepted the same list, so the list is
    not empty there. *)
Definition py_min (l : list Q) : Q :=
  match l with
  | [] => 0
  | x :: l' => fold_left (fun best y => if Qltb y best then y else best) l' x
  end.

Definition py_max (l : list Q) : Q :=
  match l with
  | [] => 0
  | x :: l' => fold_left (fun best y => if Qltb best y then y else best) l' x
  end.

(** One statistics block (lines 88-96, 99-107, 110-117, 120-126): total,
    mean, median, whether a standard deviation is printed rather than
    "N/A", minimum and maximum.  The value of the standard deviation is a
    square root and has no place among the rationals; only its guard is
    kept. *)
Record stat_block : Type := {
  sb_total : Q;
  sb_mean : Q;
  sb_median : Q;
  sb_stdev_shown : bool;
  sb_min : Q;
  sb_max : Q
}.

Definition stat_block_of (values : list Q) : result stat_block :=
  let total := sum values in
  average <- mean values ;;
  middle <- median values ;;
  let stdev_shown := (1 <? length values)%nat in
  Ok {| sb_total := total; sb_mean := average; sb_median := middle;
        sb_stdev_shown := stdev_shown;
        sb_min := py_min values; sb_max := py_max values |}.

(** [int(f)] on a number: truncation towards zero. *)
Definition py_int (x : Q) : Z := Z.quot (Qnum x) (Z.pos (Qden x)).

(** [sorted(set(l))] on integers: the distinct values in ascending order. *)
Definition sorted_set (l : list Z) : list Z :=
  sorted_by (fun x y => (x <=? y)%Z) (nodup Z.eq_dec l).

(** Frame-rate block (lines 129-134), printed only when some clip has a
    frame rate. *)
Record fps_block : Type := {
  fb_mean : Q;
  fb_median : Q;
  fb_common : list Z
}.

Definition fps_block_of (clips : list clip) : result (option fps_block) :=
  let fps_values := fps_values clips in
  if nonempty fps_values then
    average <- mean fps_values ;;
    middle <- median fps_values ;;
    Ok (Some {| fb_mean := average; fb_median := middle;
                fb_common := sorted_set (map py_int fps_values) |})
  else Ok None.

(** Resolution counter (lines 137-140). *)
Definition count_step (resolutions : list (string * Z)) (c : clip)
  : list (string * Z) :=
  let res := resolution c in
  set String.eqb res (get String.eqb res 0%Z resolutions + 1)%Z resolutions.

Definition resolutions_of (clips : list clip) : list (string * Z) :=
  fold_left count_step clips [].

(** [(count / file_count) * 100], as an exact rational; the floats the
    script prints are this number rounded twice, so the printed
    percentages of a distribution need not add up to 100. *)
Definition percentage (count file_count : Z) : result Q :=
  r <- div (inject_Z count) (inject_Z file_count) ;;
  Ok (r * 100).

(** Resolution distribution (lines 142-145): one line per resolution, the
    most frequent first. *)
Definition resolution_distribution (resolutions : list (string * Z))
           (file_count : Z) : result (list (string * Z * Q)) :=
  for_each (fun rc => p <- percentage (snd rc) file_count ;;
                      Ok (fst rc, snd rc, p))
           (sorted_key_reverse snd resolutions).

(** Audio presence (lines 148-151). *)
Record audio_presence : Type := {
  ap_with : Z;
  ap_with_pct : Q;
  ap_without : Z;
  ap_without_pct : Q
}.

Definition audio_presence_of (clips : list clip) (file_count : Z)
  : result audio_presence :=
  let clips_with_audio := Z.of_nat (length (filter has_audio clips)) in
  p <- percentage clips_with_audio file_count ;;
  q <- percentage (file_count - clips_with_audio) file_count ;;
  Ok {| ap_with := clips_with_audio; ap_with_pct := p;
        ap_without := (file_count - clips_with_audio)%Z;
        ap_without_pct := q |}.

(** One line of the audio table (lines 193-198), printed only for a
    non-empty group. *)
Definition audio_row (label : string) (groups : list (string * list Q))
  : result (option (Q * nat)) :=
  let bps_list := get String.eqb label [] groups in
  if nonempty bps_list then
    avg_bps <- mean bps_list ;;
    Ok (Some (avg_bps, length bps_list))
  else Ok None.

(** [max(l, key=key)] on a list with first element [x]: the first element
    with the greatest key. *)
Definition first_max {A : Type} (key : A -> Z) (x : A) (l : list A) : A :=
  fold_left (fun best y => if (key best <? key y)%Z then y else best) l x.

(** Line 205.  On an empty dictionary [max] raises [ValueError]; the
    dictionary has one entry per resolution met and the clips are not
    empty at this point. *)
Definition dominant_of (resolutions : list (string * Z)) : string * Z :=
  match resolutions with
  | [] => (""%string, 0%Z)
  | x :: l => first_max snd x l
  end.

(** Recommendation (lines 205-214): either the note that one resolution
    covers more than 80 percent of the clips, or up to three
    resolution-specific constants.  The literal [0.8] is the rational
    4/5. *)
Inductive recommendation : Type :=
| Representative (res : string) (pct : Q)
| Mixed (rows : list (string * Q)).

Definition recommend (resolutions : list (string * Z))
           (res_groups : list (string * list Q)) (file_count : Z)
  : result recommendation :=
  let dominant_res := dominant_of resolutions in
  share <- div (inject_Z (snd dominant_res)) (inject_Z file_count) ;;
  if Qltb (4 # 5) share then
    p <- percentage (snd dominant_res) file_count ;;
    Ok (Representative (fst dominant_res) p)
  else
    rows <- for_each (fun g => m <- mean (snd g) ;; Ok (fst g, m))
                     (filter (fun g => (3 <=? group_len g)%Z)
                             (firstn 3 (sorted_key_reverse group_len res_groups))) ;;
    Ok (Mixed rows).

(** How many outliers or errors the "... and N more" line announces after
    the first ten (lines 239-240, 249-250, 348-349); [None] when the line
    is not printed. *)
Definition more_after_ten {A : Type} (l : list A) : option Z :=
  if (10 <? Z.of_nat (length l))%Z then Some (Z.of_nat (length l) - 10)%Z
  else None.

(** Everything the report prints, lines 76-349, in program order. *)
Record full_report : Type := {
  fr_file_sizes : stat_block;
  fr_durations : stat_block;
  fr_bytes_per_sec : stat_block;
  fr_bitrates : stat_block;
  fr_fps : option fps_block;
  fr_resolutions : list (string * Z * Q);
  fr_audio : audio_presence;
  fr_res_table : list (string * Q * nat);
  fr_fps_table : list (Z * Q * nat);
  fr_with_audio : option (Q * nat);
  fr_without_audio : option (Q * nat);
  fr_recommendation : recommendation;
  fr_outliers : outlier_report;
  fr_errors : list analysis_error;
  fr_more_errors : option Z
}.

Definition print_full_report (v : statistics_version) (st : scan_state)
  : result full_report :=
  let clips_data := clips_data st in
  let file_count := file_count st in
  sizes <- stat_block_of (map (fun c => inject_Z (file_size c)) clips_data) ;;
  durations <- stat_block_of (map duration clips_data) ;;
  bytes_per_sec <- stat_block_of (map bytes_per_second clips_data) ;;
  bitrates <- stat_block_of (map bitrate clips_data) ;;
  fps_stats <- fps_block_of clips_data ;;
  let resolutions := resolutions_of clips_data in
  distribution <- resolution_distribution resolutions file_count ;;
  audio <- audio_presence_of clips_data file_count ;;
  let res_groups := res_groups clips_data in
  res_rows <- res_table res_groups ;;
  let fps_groups := fps_groups clips_data in
  fps_rows <- fps_table fps_groups ;;
  let audio_groups := audio_groups clips_data in
  with_audio <- audio_row "with_audio" audio_groups ;;
  without_audio <- audio_row "without_audio" audio_groups ;;
  advice <- recommend resolutions res_groups file_count ;;
  o <- outlier_section v clips_data ;;
  Ok {| fr_file_sizes := sizes; fr_durations := durations;
        fr_bytes_per_sec := bytes_per_sec; fr_bitrates := bitrates;
        fr_fps := fps_stats; fr_resolutions := distribution;
        fr_audio := audio;
        fr_res_table := res_rows; fr_fps_table := fps_rows;
        fr_with_audio := with_audio; fr_without_audio := without_audio;
        fr_recommendation := advice;
        fr_outliers := o;
        fr_errors := firstn 10 (errors st);
        fr_more_errors := more_after_ten (errors st) |}.

(** ** Notions used in the statements about these blocks *)

(** The number of clips with a given resolution string. *)
Definition count_resolution (res : string) (clips : list clip) : Z :=
  Z.of_nat (length (filter (fun c => String.eqb (resolution c) res) clips)).

(** The number of clips with a given rounded frame rate. *)
Definition count_fps_rounded (k : Z) (clips : list clip) : Z :=
  Z.of_nat (length (filter (fun c => Z.eqb (fps_rounded c) k) clips)).

(** A character occurs in a string. *)
Fixpoint occurs (a : Ascii.ascii) (s : string) : bool :=
  match s with
  | EmptyString => false
  | String b s' => Ascii.eqb a b || occurs a s'
  end.

(** The file could be read. *)
Definition is_readable (f : video_file) : bool :=
  match vf_probe f with
  | inr _ => true
  | inl _ => false
  end.

(** Seven ordinary clips and one dense clip whose frame rate is missing. *)
Definition dir_outlier_without_fps : directory :=
  {| dir_exists := true;
     dir_glob_mp4 :=
       repeat (readable "usual.mp4" 1000 10) 7
       ++ [{| vf_name := "odd.mp4";
              vf_probe := inr (5000%Z,
                               {| md_duration := 5; md_fps := None;
                                  md_size := Some (1920%Z, 1080%Z);
                                  md_has_audio := true |}) |}] |}.

(** A directory with one unreadable and three readable files. *)
Definition dir_with_failure : directory :=
  {| dir_exists := true;
     dir_glob_mp4 :=
       [readable "a.mp4" 1000 10;
        {| vf_name := "broken.mp4"; vf_probe := inl "moov atom not found"%string |};
        readable "b.mp4" 2000 10; readable "c.mp4" 3000 10] |}.

(** * The numeric code on binary64 floats

    The definitions above compute with exact rationals.  Python computes
    with IEEE 754 binary64 numbers, and in the outlier section a rounding
    error of one unit in the last place can change what is printed: the
    quartile interpolation of [statistics.quantiles] can put a collapsed
    fence beside the value it was computed from, and a percent difference
    of exactly 10 can come out just above 10.  This module embeds the
    record builder (lines 41-59) and the outlier section (lines 217-337) a
    second time, on the kernel's binary64 floats: their operations are the
    processor's and round to nearest, ties to even, as Python's do.
    Statements whose truth depends on the outcome of a rounded comparison
    are made about this module.

    The values are finite: a media file yields no infinity and no NaN,
    file sizes and pixel counts stay below 2^53 and convert exactly. *)

Module Binary64.

Local Open Scope float_scope.

(** [float(z)] for an integer: the nearest float, ties to even. *)
Definition of_int (z : Z) : float :=
  SF2Prim (binary_normalize prec emax z 0 false).

(** The rational that a finite float stands for. *)
Definition to_Q (x : float) : Q :=
  match Prim2SF x with
  | S754_finite s m e =>
      let v := match e with
               | Zneg p => (Zpos m # (2 ^ p))%Q
               | _ => inject_Z (Zpos m * 2 ^ e)
               end in
      if s then (- v)%Q else v
  | _ => 0%Q
  end.

(** The float nearest to a rational, ties to even: the value of
    [int / int] and of [float(Fraction)]. *)
Definition of_Q (q : Q) : float :=
  match Qnum q with
  | Z0 => 0
  | Zpos n =>
      SF2Prim (SFdiv prec emax (S754_finite false n 0)
                     (S754_finite false (Qden q) 0))
  | Zneg n =>
      SF2Prim (SFdiv prec emax (S754_finite true n 0)
                     (S754_finite false (Qden q) 0))
  end.

(** [a / b] with a float among the operands: raises [ZeroDivisionError]
    when [b] is a zero of either sign. *)
Definition div (a b : float) : result float :=
  if b =? 0 then Raise ZeroDivisionError else Ok (a / b).

(** [a / b] on two integers: the exact quotient, rounded once. *)
Definition true_div (a b : Z) : result float :=
  if (b =? 0)%Z then Raise ZeroDivisionError
  else Ok (of_Q (inject_Z a / inject_Z b)%Q).

(** [statistics.mean]: the library adds the values as exact fractions,
    divides by their number and converts the quotient to a float, so the
    exact mean of the (finite) values is rounded once; it raises
    [StatisticsError] on an empty sample. *)
Definition mean (l : list float) : result float :=
  if nonempty l
  then Ok (of_Q (sum (map to_Q l) / inject_Z (Z.of_nat (length l)))%Q)
  else Raise StatisticsError.

(** [sorted(l, key=key)] and [sorted(l, key=key, reverse=True)]. *)
Definition sorted_key {A} (key : A -> float) (l : list A) : list A :=
  sorted_by (fun x y => key x <=? key y) l.

Definition sorted_key_reverse {A} (key : A -> float) (l : list A) : list A :=
  sorted_by (fun x y => key y <=? key x) l.

Definition item (data : list float) (j : Z) : float :=
  nth (Z.to_nat j) data 0.

(** Body of the loop of the exclusive branch of [statistics.quantiles]:
    [(data[j - 1] * (n - delta) + data[j] * delta) / n], each operation
    rounded. *)
Definition exclusive_cut (data : list float) (n i : Z) : float :=
  let ld := Z.of_nat (length data) in
  let m := (ld + 1)%Z in
  let j := (i * m / n)%Z in
  let j := clamp_index ld j in
  let delta := (i * m - j * n)%Z in
  (item data (j - 1) * of_int (n - delta) + item data j * of_int delta)
  / of_int n.

(** [statistics.quantiles(data, n=n)] with the default method. *)
Definition quantiles (v : statistics_version) (data : list float) (n : Z)
  : result (list float) :=
  let data := sorted_key (fun x => x) data in
  let ld := Z.of_nat (length data) in
  if (ld <? 2)%Z then
    match v with
    | UpTo312 => Raise StatisticsError
    | From313 =>
        if (ld =? 1)%Z then Ok (concat (repeat data (Z.to_nat (n - 1))))
        else Raise StatisticsError
    end
  else Ok (map (exclusive_cut data n) (range 1 n)).

(** What [VideoFileClip] reports, the duration and the frame rate being
    floats. *)
Record metadata : Type := {
  md_duration : float;
  md_fps : option float;
  md_size : option (Z * Z);
  md_has_audio : bool
}.

(** One entry of [clips_data]. *)
Record clip : Type := {
  filename : string;
  file_size : Z;
  duration : float;
  fps : option float;
  width : Z;
  height : Z;
  resolution : string;
  has_audio : bool;
  bitrate : float;
  bytes_per_second : float;
  pixels_per_frame : Z;
  total_frames : float
}.

(** Truth value of [c['fps']]: [None] and a zero are false. *)
Definition truthy (x : option float) : bool :=
  match x with
  | None => false
  | Some f => negb (f =? 0)
  end.

Definition fps_or_zero (x : option float) : float :=
  match x with
  | None => 0
  | Some f => f
  end.

(** Lines 41-59. *)
Definition build_record (name : string) (size : Z) (md : metadata) : clip :=
  let duration := md_duration md in
  let fps := md_fps md in
  let resolution := md_size md in
  let bitrate :=
    if 0 <? duration then of_int (size * 8) / duration else 0 in
  let bytes_per_second :=
    if 0 <? duration then of_int size / duration else 0 in
  let pixels_per_frame :=
    match resolution with Some (w, h) => (w * h)%Z | None => 0%Z end in
  let total_frames :=
    if truthy fps then duration * fps_or_zero fps else 0 in
  {| filename := name;
     file_size := size;
     duration := duration;
     fps := fps;
     width := match resolution with Some (w, _) => w | None => 0%Z end;
     height := match resolution with Some (_, h) => h | None => 0%Z end;
     resolution :=
       match resolution with
       | Some (w, h) => (str_int w ++ "x" ++ str_int h)%string
       | None => "Unknown"%string
       end;
     has_audio := md_has_audio md;
     bitrate := bitrate;
     bytes_per_second := bytes_per_second;
     pixels_per_frame := pixels_per_frame;
     total_frames := total_frames |}.

Record fence : Type := {
  q1 : float;
  q3 : float;
  iqr : float;
  lower_bound : float;
  upper_bound : float
}.

(** Lines 217-221; the literal [1.5] is a binary64 number. *)
Definition outlier_fence (v : statistics_version) (bytes_per_sec : list float)
  : result fence :=
  qs <- quantiles v bytes_per_sec 4 ;;
  let q1 := nth 0 qs 0 in
  qs' <- quantiles v bytes_per_sec 4 ;;
  let q3 := nth 2 qs' 0 in
  let iqr := q3 - q1 in
  let lower_bound := q1 - 1.5 * iqr in
  let upper_bound := q3 + 1.5 * iqr in
  Ok {| q1 := q1; q3 := q3; iqr := iqr;
        lower_bound := lower_bound; upper_bound := upper_bound |}.

Definition is_low (lower_bound : float) (c : clip) : bool :=
  bytes_per_second c <? lower_bound.

Definition is_high (upper_bound : float) (c : clip) : bool :=
  upper_bound <? bytes_per_second c.

(** Line 222. *)
Definition outliers_of (clips : list clip) (lower_bound upper_bound : float)
  : list clip :=
  filter (fun c => is_low lower_bound c || is_high upper_bound c) clips.

(** Lines 229-230. *)
Definition high_outliers_of (outliers : list clip) (upper_bound : float)
  : list clip :=
  filter (is_high upper_bound) outliers.

Definition low_outliers_of (outliers : list clip) (lower_bound : float)
  : list clip :=
  filter (is_low lower_bound) outliers.

(** Line 257. *)
Definition normal_clips_of (clips : list clip) (lower_bound upper_bound : float)
  : list clip :=
  filter (fun c => (lower_bound <=? bytes_per_second c)
                   && (bytes_per_second c <=? upper_bound)) clips.

(** Lines 237 and 247: [:.1f] applied to [None] raises [TypeError]. *)
Definition outlier_line (c : clip) : result clip :=
  match fps c with
  | None => Raise TypeError
  | Some _ => Ok c
  end.

(** [(a / b - 1) * 100], three rounded operations. *)
Definition percent_diff (a b : float) : result float :=
  q <- div a b ;;
  Ok ((q - 1) * 100).

(** [[c['fps'] for c in clips if c['fps']]]. *)
Definition fps_values (clips : list clip) : list float :=
  map (fun c => fps_or_zero (fps c)) (filter (fun c => truthy (fps c)) clips).

(** [sum(1 for c in clips if c['has_audio']) / len(clips) * 100]. *)
Definition audio_pct (clips : list clip) : result float :=
  r <- true_div (Z.of_nat (length (filter has_audio clips)))
                (Z.of_nat (length clips)) ;;
  Ok (r * 100).

(** A printed "Difference" line: absolute and percent difference. *)
Definition difference_line (has_normal : bool) (high_avg normal_avg : float)
  : result (option (float * float)) :=
  if has_normal then
    p <- percent_diff high_avg normal_avg ;;
    Ok (Some (high_avg - normal_avg, p))
  else Ok None.

Record comparison : Type := {
  normal_clips : list clip;
  high_avg_fps : float;
  normal_avg_fps : float;
  fps_difference : option (float * float);
  high_avg_bitrate : float;
  normal_avg_bitrate : float;
  bitrate_difference : option (float * float);
  high_avg_duration : float;
  normal_avg_duration : float;
  duration_difference : option (float * float);
  high_audio_pct : float;
  normal_audio_pct : float;
  high_avg_pixels : float;
  normal_avg_pixels : float;
  pixels_difference : option (float * float);
  findings : list (tracked_field * float)
}.

(** Lines 320-330: the four tests, in order; each recomputes its percent
    difference and compares it with the integer 10 or 20. *)
Definition key_findings (has_normal : bool)
           (high_avg_fps normal_avg_fps
            high_avg_bitrate normal_avg_bitrate
            high_avg_pixels normal_avg_pixels
            high_audio_pct normal_audio_pct : float)
  : result (list (tracked_field * float)) :=
  let findings := [] in
  if has_normal then
    p <- percent_diff high_avg_fps normal_avg_fps ;;
    let findings :=
      if 10 <? abs p then findings ++ [(FieldFps, p)] else findings in
    p <- percent_diff high_avg_bitrate normal_avg_bitrate ;;
    let findings :=
      if 10 <? abs p then findings ++ [(FieldBitrate, p)] else findings in
    p <- percent_diff high_avg_pixels normal_avg_pixels ;;
    let findings :=
      if 10 <? abs p then findings ++ [(FieldPixels, p)] else findings in
    let d := high_audio_pct - normal_audio_pct in
    let findings :=
      if 20 <? abs d then findings ++ [(FieldAudio, d)] else findings in
    Ok findings
  else Ok findings.

(** The block guarded by [if high_outliers:] at line 256.  The pixel
    counts are integers below 2^53: their mean is an integer or the rounded
    quotient, in both cases the float nearest to the exact mean. *)
Definition compare_high_vs_normal
           (clips_data high_outliers : list clip)
           (lower_bound upper_bound : float)
  : result comparison :=
  let normal_clips := normal_clips_of clips_data lower_bound upper_bound in
  let has_normal := nonempty normal_clips in
  high_avg_fps <- mean (fps_values high_outliers) ;;
  normal_avg_fps <-
    (if has_normal then mean (fps_values normal_clips) else Ok 0) ;;
  fps_difference <- difference_line has_normal high_avg_fps normal_avg_fps ;;
  high_avg_bitrate <- mean (map bitrate high_outliers) ;;
  normal_avg_bitrate <-
    (if has_normal then mean (map bitrate normal_clips) else Ok 0) ;;
  bitrate_difference <-
    difference_line has_normal high_avg_bitrate normal_avg_bitrate ;;
  high_avg_duration <- mean (map duration high_outliers) ;;
  normal_avg_duration <-
    (if has_normal then mean (map duration normal_clips) else Ok 0) ;;
  duration_difference <-
    difference_line has_normal high_avg_duration normal_avg_duration ;;
  high_audio_pct <- audio_pct high_outliers ;;
  normal_audio_pct <- (if has_normal then audio_pct normal_clips else Ok 0) ;;
  high_avg_pixels <-
    mean (map (fun c => of_int (pixels_per_frame c)) high_outliers) ;;
  normal_avg_pixels <-
    (if has_normal
     then mean (map (fun c => of_int (pixels_per_frame c)) normal_clips)
     else Ok 0) ;;
  pixels_difference <-
    difference_line has_normal high_avg_pixels normal_avg_pixels ;;
  findings <-
    key_findings has_normal high_avg_fps normal_avg_fps
                 high_avg_bitrate normal_avg_bitrate
                 high_avg_pixels normal_avg_pixels
                 high_audio_pct normal_audio_pct ;;
  Ok {| normal_clips := normal_clips;
        high_avg_fps := high_avg_fps;
        normal_avg_fps := normal_avg_fps;
        fps_difference := fps_difference;
        high_avg_bitrate := high_avg_bitrate;
        normal_avg_bitrate := normal_avg_bitrate;
        bitrate_difference := bitrate_difference;
        high_avg_duration := high_avg_duration;
        normal_avg_duration := normal_avg_duration;
        duration_difference := duration_difference;
        high_audio_pct := high_audio_pct;
        normal_audio_pct := normal_audio_pct;
        high_avg_pixels := high_avg_pixels;
        normal_avg_pixels := normal_avg_pixels;
        pixels_difference := pixels_difference;
        findings := findings |}.

(** The outlier part of the report (lines 217-339). *)
Record outlier_report : Type := {
  bounds : fence;
  outliers : list clip;
  high_outliers : list clip;
  low_outliers : list clip;
  high_listed : list clip;
  low_listed : list clip;
  high_vs_normal : option comparison
}.

Definition outlier_section (v : statistics_version) (clips_data : list clip)
  : result outlier_report :=
  let bytes_per_sec := map bytes_per_second clips_data in
  b <- outlier_fence v bytes_per_sec ;;
  let outliers := outliers_of clips_data (lower_bound b) (upper_bound b) in
  if nonempty outliers then
    let high_outliers := high_outliers_of outliers (upper_bound b) in
    let low_outliers := low_outliers_of outliers (lower_bound b) in
    let high_outliers :=
      if nonempty high_outliers
      then sorted_key_reverse bytes_per_second high_outliers
      else high_outliers in
    high_listed <-
      (if nonempty high_outliers
       then for_each outlier_line (firstn 10 high_outliers) else Ok []) ;;
    let low_outliers :=
      if nonempty low_outliers
      then sorted_key bytes_per_second low_outliers
      else low_outliers in
    low_listed <-
      (if nonempty low_outliers
       then for_each outlier_line (firstn 10 low_outliers) else Ok []) ;;
    high_vs_normal <-
      (if nonempty high_outliers
       then fmap Some (compare_high_vs_normal clips_data high_outliers
                                              (lower_bound b) (upper_bound b))
       else Ok None) ;;
    Ok {| bounds := b; outliers := outliers;
          high_outliers := high_outliers; low_outliers := low_outliers;
          high_listed := high_listed; low_listed := low_listed;
          high_vs_normal := high_vs_normal |}
  else
    Ok {| bounds := b; outliers := outliers;
          high_outliers := []; low_outliers := [];
          high_listed := []; low_listed := [];
          high_vs_normal := None |}.

(** ** Sample inputs *)

(** A 1920x1080 file with audio, of a given duration and frame rate. *)
Definition hd_metadata (d f : float) : metadata :=
  {| md_duration := d; md_fps := Some f;
     md_size := Some (1920%Z, 1080%Z); md_has_audio := true |}.

(** Seven clips at 100 bytes/s and one shorter clip at 1000 bytes/s, all
    at 30 frames per second. *)
Definition clips_high_outlier : list clip :=
  repeat (build_record "usual.mp4" 1000 (hd_metadata 10 30)) 7
  ++ [build_record "dense.mp4" 5000 (hd_metadata 5 30)].

(** The same, the dense clip running at 33 frames per second: its frame
    rate is 10 percent above the 30 of the other clips. *)
Definition clips_ten_percent : list clip :=
  repeat (build_record "usual.mp4" 1000 (hd_metadata 10 30)) 7
  ++ [build_record "dense.mp4" 5000 (hd_metadata 5 33)].

(** Two files of 1000000 bytes and 9 seconds. *)
Definition clips_twins : list clip :=
  [build_record "one.mp4" 1000000 (hd_metadata 9 30);
   build_record "two.mp4" 1000000 (hd_metadata 9 30)].

End Binary64.

(** * Properties *)

(** ** Comparisons on rationals *)

Lemma Qltb_lt (x y : Q) : Qltb x y = true <-> x < y.
Proof.
  unfold Qltb. rewrite negb_true_iff. split; intro H.
  - apply Qnot_le_lt. intro Hle. apply Qle_bool_iff in Hle. congruence.
  - destruct (Qle_bool y x) eqn:E; [|reflexivity].
    apply Qle_bool_iff in E. exfalso. exact (Qlt_not_le _ _ H E).
Qed.

Lemma Qltb_ge (x y : Q) : Qltb x y = false <-> y <= x.
Proof.
  unfold Qltb. rewrite negb_false_iff. apply Qle_bool_iff.
Qed.

Lemma Qle_bool_false (x y : Q) : Qle_bool x y = false <-> y < x.
Proof.
  rewrite <- Qltb_lt. unfold Qltb.
  destruct (Qle_bool x y); simpl; intuition congruence.
Qed.

Lemma Qeq_bool_false (x y : Q) : Qeq_bool x y = false <-> ~ x == y.
Proof.
  split; intro H.
  - apply Qeq_bool_neq. exact H.
  - destruct (Qeq_bool x y) eqn:E; [|reflexivity].
    apply Qeq_bool_iff in E. contradiction.
Qed.

(** ** The stable insertion sort *)

Lemma insert_by_perm {A : Type} (before : A -> A -> bool) (x : A) (l : list A) :
  Permutation (insert_by before x l) (x :: l).
Proof.
  induction l as [|y l IH]; simpl; [reflexivity|].
  destruct (before x y); [reflexivity|].
  rewrite IH. apply perm_swap.
Qed.

Lemma sorted_by_perm {A : Type} (before : A -> A -> bool) (l : list A) :
  Permutation (sorted_by before l) l.
Proof.
  induction l as [|x l IH]; simpl; [reflexivity|].
  rewrite insert_by_perm. constructor. exact IH.
Qed.

Lemma sorted_by_In {A : Type} (before : A -> A -> bool) (l : list A) (x : A) :
  In x (sorted_by before l) <-> In x l.
Proof.
  split; apply Permutation_in;
    [apply sorted_by_perm | symmetry; apply sorted_by_perm].
Qed.

Lemma sorted_by_length {A : Type} (before : A -> A -> bool) (l : list A) :
  length (sorted_by before l) = length l.
Proof. apply Permutation_length, sorted_by_perm. Qed.

Section SortingFacts.
Context {A : Type} (key : A -> Z).

Let desc (x y : A) : bool := (key y <=? key x)%Z.

(** Inserting into a descending list keeps it descending. *)
Lemma insert_desc_sorted (x : A) (l : list A) :
  StronglySorted (fun a b => (key b <= key a)%Z) l ->
  StronglySorted (fun a b => (key b <= key a)%Z) (insert_by desc x l).
Proof.
  induction 1 as [|y l Hs IH Hy]; simpl.
  - constructor; constructor.
  - unfold desc at 1. destruct (Z.leb_spec (key y) (key x)) as [Hle|Hgt].
    + constructor; [constructor; assumption|].
      constructor; [exact Hle|].
      rewrite Forall_forall in *. intros z Hz. specialize (Hy z Hz). lia.
    + constructor; [exact IH|].
      rewrite Forall_forall in *. intros z Hz.
      apply (Permutation_in _ (insert_by_perm desc x l)) in Hz.
      destruct Hz as [<-|Hz]; [lia | auto].
Qed.

Lemma sorted_key_reverse_sorted (l : list A) :
  StronglySorted (fun a b => (key b <= key a)%Z) (sorted_key_reverse key l).
Proof.
  unfold sorted_key_reverse. induction l as [|x l IH]; simpl.
  - constructor.
  - apply insert_desc_sorted. exact IH.
Qed.

(** Stability: among the elements with one and the same key the sort
    changes nothing. *)
Lemma insert_desc_stable (n : Z) (x : A) (l : list A) :
  filter (fun a => (key a =? n)%Z) (insert_by desc x l)
  = filter (fun a => (key a =? n)%Z) (x :: l).
Proof.
  induction l as [|y l IH]; simpl; [reflexivity|].
  unfold desc at 1. destruct (Z.leb_spec (key y) (key x)) as [Hle|Hgt].
  - reflexivity.
  - simpl in *. rewrite IH.
    destruct (Z.eqb_spec (key x) n), (Z.eqb_spec (key y) n);
      try reflexivity; lia.
Qed.

Lemma sorted_key_reverse_stable (n : Z) (l : list A) :
  filter (fun a => (key a =? n)%Z) (sorted_key_reverse key l)
  = filter (fun a => (key a =? n)%Z) l.
Proof.
  unfold sorted_key_reverse. induction l as [|x l IH]; simpl; [reflexivity|].
  fold desc. rewrite insert_desc_stable. simpl.
  fold desc in IH. rewrite IH. reflexivity.
Qed.

End SortingFacts.

Lemma filter_StronglySorted {A : Type} (R : A -> A -> Prop) (p : A -> bool) (l : list A) :
  StronglySorted R l -> StronglySorted R (filter p l).
Proof.
  induction 1 as [|x l Hs IH Hx]; simpl; [constructor|].
  destruct (p x); [|exact IH].
  constructor; [exact IH|].
  rewrite Forall_forall in *. intros y Hy.
  apply filter_In in Hy. apply Hx. tauto.
Qed.

Lemma filter_filter {A : Type} (p q : A -> bool) (l : list A) :
  filter p (filter q l) = filter (fun a => q a && p a) l.
Proof.
  induction l as [|x l IH]; simpl; [reflexivity|].
  destruct (q x); simpl; [destruct (p x)|]; rewrite IH; reflexivity.
Qed.

Lemma filter_comm {A : Type} (p q : A -> bool) (l : list A) :
  filter p (filter q l) = filter q (filter p l).
Proof.
  rewrite !filter_filter. apply filter_ext. intro a. apply andb_comm.
Qed.

(** ** The grouping loop *)

Section GroupingFacts.
Context {K : Type} (eqb : K -> K -> bool).
Hypothesis eqb_spec : forall x y, reflect (x = y) (eqb x y).
Context (key : clip -> K).

Lemma eqb_refl (k : K) : eqb k k = true.
Proof. destruct (eqb_spec k k); congruence. Qed.

Lemma contains_In (k : K) (groups : list (K * list Q)) :
  contains eqb k groups = true <-> In k (map fst groups).
Proof.
  induction groups as [|[k' xs] groups IH]; simpl.
  - intuition congruence.
  - destruct (eqb_spec k k') as [->|Hne].
    + intuition.
    + rewrite IH. intuition congruence.
Qed.

(** One round of the loop is [append_to]. *)
Lemma group_step_append (groups : list (K * list Q)) (c : clip) :
  group_step eqb key groups c
  = append_to eqb (key c) (bytes_per_second c) groups.
Proof.
  unfold group_step. generalize (bytes_per_second c) as x.
  generalize (key c) as k. intros k x.
  induction groups as [|[k' xs] groups IH]; simpl.
  - rewrite !eqb_refl. reflexivity.
  - destruct (eqb k k') eqn:E.
    + simpl. rewrite E. reflexivity.
    + destruct (contains eqb k groups) eqn:C; simpl; rewrite E;
        f_equal; exact IH.
Qed.

Lemma group_from_cons (init : list (K * list Q)) (c : clip) (clips : list clip) :
  group_from eqb key init (c :: clips)
  = group_from eqb key (append_to eqb (key c) (bytes_per_second c) init) clips.
Proof. unfold group_from. simpl. rewrite group_step_append. reflexivity. Qed.

Lemma append_to_keys (k : K) (x : Q) (groups : list (K * list Q)) :
  map fst (append_to eqb k x groups)
  = if contains eqb k groups then map fst groups else map fst groups ++ [k].
Proof.
  induction groups as [|[k' xs] groups IH]; simpl; [reflexivity|].
  destruct (eqb k k'); simpl; [reflexivity|].
  rewrite IH. destruct (contains eqb k groups); reflexivity.
Qed.

Lemma append_to_get (k k0 : K) (x : Q) (groups : list (K * list Q)) :
  get eqb k0 [] (append_to eqb k x groups)
  = get eqb k0 [] groups ++ (if eqb k k0 then [x] else []).
Proof.
  induction groups as [|[k' xs] groups IH]; simpl.
  - destruct (eqb_spec k0 k) as [->|Hne].
    + rewrite eqb_refl. reflexivity.
    + destruct (eqb_spec k k0); [congruence | reflexivity].
  - destruct (eqb_spec k k') as [->|Hne]; simpl.
    + destruct (eqb_spec k0 k') as [->|Hne0].
      * rewrite eqb_refl. reflexivity.
      * destruct (eqb_spec k' k0); [congruence|].
        rewrite app_nil_r. reflexivity.
    + destruct (eqb_spec k0 k') as [->|Hne0]; [|exact IH].
      destruct (eqb_spec k k'); [congruence|].
      rewrite app_nil_r. reflexivity.
Qed.

Lemma append_to_total (k : K) (x : Q) (groups : list (K * list Q)) :
  total_samples (append_to eqb k x groups) = S (total_samples groups).
Proof.
  unfold total_samples.
  induction groups as [|[k' xs] groups IH]; simpl; [reflexivity|].
  destruct (eqb k k'); simpl.
  - rewrite length_app. simpl. lia.
  - rewrite IH. lia.
Qed.

Lemma append_to_NoDup (k : K) (x : Q) (groups : list (K * list Q)) :
  NoDup (map fst groups) -> NoDup (map fst (append_to eqb k x groups)).
Proof.
  intro H. rewrite append_to_keys.
  destruct (contains eqb k groups) eqn:C; [exact H|].
  apply NoDup_app; [exact H | repeat constructor; intros [] |].
  intros k' Hin [<-|[]].
  apply contains_In in Hin. congruence.
Qed.

(** The value list stored under a key collects, in order, the values of
    the clips with that key. *)
Lemma group_from_get (k : K) (clips : list clip) (init : list (K * list Q)) :
  get eqb k [] (group_from eqb key init clips)
  = get eqb k [] init ++ members eqb key k clips.
Proof.
  revert init. induction clips as [|c clips IH]; intro init.
  - unfold members. simpl. rewrite app_nil_r. reflexivity.
  - rewrite group_from_cons, IH, append_to_get, <- app_assoc. f_equal.
    unfold members. simpl. destruct (eqb (key c) k); reflexivity.
Qed.

Lemma group_from_total (clips : list clip) (init : list (K * list Q)) :
  total_samples (group_from eqb key init clips)
  = (total_samples init + length clips)%nat.
Proof.
  revert init. induction clips as [|c clips IH]; intro init.
  - simpl. lia.
  - rewrite group_from_cons, IH, append_to_total. simpl. lia.
Qed.

Lemma group_from_NoDup (clips : list clip) (init : list (K * list Q)) :
  NoDup (map fst init) -> NoDup (map fst (group_from eqb key init clips)).
Proof.
  revert init. induction clips as [|c clips IH]; intros init H; [exact H|].
  rewrite group_from_cons. apply IH, append_to_NoDup, H.
Qed.

Lemma contains_existsb (k : K) (groups : list (K * list Q)) :
  contains eqb k groups = existsb (eqb k) (map fst groups).
Proof.
  induction groups as [|[k' xs] groups IH]; simpl; [reflexivity|].
  destruct (eqb k k'); simpl; [reflexivity | exact IH].
Qed.

(** Group keys appear in the order in which they were first met. *)
Lemma group_from_keys (clips : list clip) (init : list (K * list Q)) :
  map fst (group_from eqb key init clips)
  = map fst init
    ++ filter (fun k => negb (contains eqb k init))
              (first_seen eqb (map key clips)).
Proof.
  revert init. induction clips as [|c clips IH]; intro init.
  - simpl. rewrite app_nil_r. reflexivity.
  - rewrite group_from_cons, IH, append_to_keys. simpl.
    destruct (contains eqb (key c) init) eqn:C; simpl.
    + f_equal. rewrite filter_filter. apply filter_ext_in.
      intros k _. rewrite !contains_existsb, append_to_keys, C.
      rewrite <- contains_existsb.
      destruct (eqb_spec k (key c)) as [->|Hne]; simpl; [|reflexivity].
      rewrite C. reflexivity.
    + rewrite <- app_assoc. simpl. do 2 f_equal.
      rewrite filter_filter. apply filter_ext_in.
      intros k _. rewrite !contains_existsb, append_to_keys, C.
      rewrite existsb_app. simpl. rewrite <- contains_existsb.
      destruct (eqb k (key c)); simpl.
      * rewrite orb_true_r. reflexivity.
      * rewrite orb_false_r. reflexivity.
Qed.

Lemma get_of_In (k : K) (xs : list Q) (groups : list (K * list Q)) :
  NoDup (map fst groups) -> In (k, xs) groups -> get eqb k [] groups = xs.
Proof.
  induction groups as [|[k' xs'] groups IH]; simpl; [tauto|].
  intros Hnd [Heq|Hin].
  - inversion Heq; subst. rewrite eqb_refl. reflexivity.
  - inversion Hnd as [|? ? Hnotin Hnd']; subst.
    destruct (eqb_spec k k') as [->|Hne]; [|auto].
    exfalso. apply Hnotin. change k' with (fst (k', xs)).
    apply in_map. exact Hin.
Qed.

Lemma key_in_first_seen (k : K) (l : list K) :
  In k l -> In k (first_seen eqb l).
Proof.
  induction l as [|k' l IH]; simpl; [tauto|].
  intros [->|Hin]; [left; reflexivity|].
  destruct (eqb_spec k k') as [->|Hne]; [left; reflexivity|].
  right. apply filter_In. split; [auto|].
  destruct (eqb_spec k k'); [contradiction | reflexivity].
Qed.

(** Every clip's key is the key of a group. *)
Lemma group_from_covers (clips : list clip) (init : list (K * list Q)) (c : clip) :
  In c clips -> In (key c) (map fst (group_from eqb key init clips)).
Proof.
  intro Hin. rewrite group_from_keys. apply in_or_app.
  destruct (contains eqb (key c) init) eqn:C.
  - left. apply contains_In. exact C.
  - right. apply filter_In. split.
    + apply key_in_first_seen, in_map, Hin.
    + rewrite C. reflexivity.
Qed.
End GroupingFacts.

Section PartitionFacts.
Context {K : Type} (eqb : K -> K -> bool).
Hypothesis eqb_spec : forall x y, reflect (x = y) (eqb x y).
Context (key : clip -> K).

Lemma get_empty_init (k : K) (init : list (K * list Q)) :
  Forall (fun g => snd g = []) init -> get eqb k [] init = [].
Proof.
  induction 1 as [|[k' xs] init Hx _ IH]; simpl; [reflexivity|].
  simpl in Hx. subst. destruct (eqb k k'); [reflexivity | exact IH].
Qed.

Lemma total_empty_init (init : list (K * list Q)) :
  Forall (fun g => snd g = []) init -> total_samples init = 0%nat.
Proof.
  unfold total_samples.
  induction 1 as [|[k' xs] init Hx _ IH]; simpl; [reflexivity|].
  simpl in Hx. subst. exact IH.
Qed.

Lemma group_from_partitions (init : list (K * list Q)) (clips : list clip) :
  NoDup (map fst init) ->
  Forall (fun g => snd g = []) init ->
  partitions eqb key clips (group_from eqb key init clips).
Proof.
  intros Hnd Hempty.
  pose proof (group_from_NoDup eqb eqb_spec key clips init Hnd) as Hnd'.
  assert (Hval : forall k xs,
             In (k, xs) (group_from eqb key init clips) ->
             xs = members eqb key k clips).
  { intros k xs Hin.
    rewrite <- (get_of_In eqb eqb_spec k xs _ Hnd' Hin).
    rewrite (group_from_get eqb eqb_spec), get_empty_init by assumption.
    reflexivity. }
  repeat split; try assumption.
  - intros c Hc.
    pose proof (group_from_covers eqb eqb_spec key clips init c Hc) as Hk.
    apply in_map_iff in Hk. destruct Hk as [[k xs] [Hfst Hin]].
    simpl in Hfst. subst k.
    exists (key c, xs). split; [split; [exact Hin | reflexivity]|].
    intros [k' xs'] [Hin' Hfst']. simpl in Hfst'. subst k'.
    rewrite (Hval _ _ Hin), (Hval _ _ Hin'). reflexivity.
  - rewrite (group_from_total eqb eqb_spec), total_empty_init by assumption.
    reflexivity.
Qed.
End PartitionFacts.

(** C9. Grouping is a partition in each of the three dimensions
    (resolution string, rounded frame rate with the sentinel key 0, audio
    presence): group keys are not repeated, every record's key names
    exactly one group, each group holds exactly the bytes-per-second values
    of the records with its key, and the sample counts of all groups,
    reported or not, add up to the number of records. *)
Theorem grouping_is_partition (clips : list clip) :
  partitions String.eqb resolution clips (res_groups clips)
  /\ partitions Z.eqb fps_rounded clips (fps_groups clips)
  /\ partitions String.eqb audio_key clips (audio_groups clips).
Proof.
  split; [|split].
  - apply (group_from_partitions String.eqb String.eqb_spec).
    + constructor.
    + constructor.
  - apply (group_from_partitions Z.eqb Z.eqb_spec).
    + constructor.
    + constructor.
  - apply (group_from_partitions String.eqb String.eqb_spec).
    + simpl. repeat constructor; simpl; intuition discriminate.
    + repeat constructor.
Qed.

(** ** Group tables *)

Lemma filter_all {A : Type} (l : list A) : filter (fun _ => true) l = l.
Proof. induction l as [|x l IH]; simpl; [|rewrite IH]; reflexivity. Qed.

Lemma group_by_keys {K : Type} (eqb : K -> K -> bool)
      (eqb_spec : forall x y, reflect (x = y) (eqb x y))
      (key : clip -> K) (clips : list clip) :
  map fst (group_by eqb key clips) = first_seen eqb (map key clips).
Proof.
  unfold group_by. rewrite (group_from_keys eqb eqb_spec). simpl.
  apply filter_all.
Qed.

(** The table loop prints one line per emitted group and cannot raise,
    because an emitted group is not empty. *)
Lemma for_each_group_row {K : Type} (l : list (K * list Q)) :
  Forall (fun g => (1 <= group_len g)%Z) l ->
  exists rows,
    for_each group_row l = Ok rows
    /\ map (fun r => (fst (fst r), snd r)) rows
       = map (fun g => (fst g, length (snd g))) l.
Proof.
  induction 1 as [|[k xs] l Hx _ [rows [Hrows Hmap]]]; simpl.
  - exists []. split; reflexivity.
  - unfold group_row at 1, mean. simpl.
    destruct xs as [|x xs]; [unfold group_len in Hx; simpl in Hx; lia|].
    simpl. rewrite Hrows. simpl.
    eexists. split; [reflexivity|]. simpl. rewrite Hmap. reflexivity.
Qed.

Lemma emitted_ties {K : Type} (p : K * list Q -> bool) (n : Z)
      (groups : list (K * list Q)) :
  filter (fun g => (group_len g =? n)%Z)
         (filter p (sorted_key_reverse group_len groups))
  = filter (fun g => (group_len g =? n)%Z) (filter p groups).
Proof.
  rewrite filter_comm, sorted_key_reverse_stable, filter_comm. reflexivity.
Qed.

(** C8. In both reported grouping dimensions (resolution string, rounded
    frame rate) a group's statistics are printed only if the group has at
    least 3 samples, the frame-rate group with the sentinel key 0 being left
    out as well, and nothing else is left out; one line is printed per
    such group; the lines are in descending order of sample count; and
    groups with equal counts keep the order of the dictionary, whose keys
    are in order of first encounter. *)
Theorem group_tables_filtered_and_ordered (clips : list clip) :
  let rg := res_groups clips in
  let fg := fps_groups clips in
  Forall (fun g => (3 <= group_len g)%Z) (res_emitted rg)
  /\ Forall (fun g => (3 <= group_len g)%Z /\ fst g <> 0%Z) (fps_emitted fg)
  /\ (forall g, In g (res_emitted rg) <-> In g rg /\ (3 <= group_len g)%Z)
  /\ (forall g, In g (fps_emitted fg)
                <-> In g fg /\ (3 <= group_len g)%Z /\ (0 < fst g)%Z)
  /\ (exists rows, res_table rg = Ok rows
                   /\ map (fun r => (fst (fst r), snd r)) rows
                      = map (fun g => (fst g, length (snd g))) (res_emitted rg))
  /\ (exists rows, fps_table fg = Ok rows
                   /\ map (fun r => (fst (fst r), snd r)) rows
                      = map (fun g => (fst g, length (snd g))) (fps_emitted fg))
  /\ StronglySorted (fun a b => (group_len b <= group_len a)%Z) (res_emitted rg)
  /\ StronglySorted (fun a b => (group_len b <= group_len a)%Z) (fps_emitted fg)
  /\ (forall n, filter (fun g => (group_len g =? n)%Z) (res_emitted rg)
                = filter (fun g => (group_len g =? n)%Z)
                         (filter (fun g => (3 <=? group_len g)%Z) rg))
  /\ (forall n, filter (fun g => (group_len g =? n)%Z) (fps_emitted fg)
                = filter (fun g => (group_len g =? n)%Z)
                         (filter (fun g => (3 <=? group_len g)%Z
                                           && (0 <? fst g)%Z) fg))
  /\ map fst rg = first_seen String.eqb (map resolution clips)
  /\ map fst fg = first_seen Z.eqb (map fps_rounded clips).
Proof.
  intros rg fg.
  assert (Hres : Forall (fun g => (3 <= group_len g)%Z) (res_emitted rg)).
  { apply Forall_forall. intros g Hg. apply filter_In in Hg. lia. }
  assert (Hfps : Forall (fun g => (3 <= group_len g)%Z /\ fst g <> 0%Z)
                        (fps_emitted fg)).
  { apply Forall_forall. intros g Hg. apply filter_In in Hg.
    destruct Hg as [_ Hg]. apply andb_true_iff in Hg. lia. }
  repeat match goal with |- _ /\ _ => split end.
  - exact Hres.
  - exact Hfps.
  - intro g. unfold res_emitted, sorted_key_reverse.
    rewrite filter_In, sorted_by_In, Z.leb_le. reflexivity.
  - intro g. unfold fps_emitted, sorted_key_reverse.
    rewrite filter_In, sorted_by_In, andb_true_iff, Z.leb_le, Z.ltb_lt.
    reflexivity.
  - apply for_each_group_row. eapply Forall_impl; [|exact Hres].
    simpl. intros; lia.
  - apply for_each_group_row. eapply Forall_impl; [|exact Hfps].
    simpl. intros g [Hg _]. lia.
  - apply filter_StronglySorted, sorted_key_reverse_sorted.
  - apply filter_StronglySorted, sorted_key_reverse_sorted.
  - intro n. apply emitted_ties.
  - intro n. apply emitted_ties.
  - apply (group_by_keys String.eqb String.eqb_spec).
  - apply (group_by_keys Z.eqb Z.eqb_spec).
Qed.

(** ** Clip record builder *)

Lemma Qdiv_zero_iff (x d : Q) : 0 < d -> (x / d == 0 <-> x == 0).
Proof.
  intro Hd. assert (Hne : ~ d == 0) by lra.
  split; intro H.
  - assert (Hx : x == (x / d) * d) by (field; exact Hne).
    rewrite Hx, H. ring.
  - rewrite H. field. exact Hne.
Qed.

Lemma inject_Z_zero_iff (z : Z) : inject_Z z == 0 <-> z = 0%Z.
Proof. unfold Qeq, inject_Z. simpl. lia. Qed.

(** C4, as stated, fails: a file of size zero with a positive duration has
    both rates equal to zero although its duration is not zero. *)
Lemma zero_rates_with_positive_duration :
  (0 <= file_size (build_record "empty.mp4" 0 (hd_metadata 10)))%Z
  /\ 0 <= duration (build_record "empty.mp4" 0 (hd_metadata 10))
  /\ bytes_per_second (build_record "empty.mp4" 0 (hd_metadata 10)) == 0
  /\ bitrate (build_record "empty.mp4" 0 (hd_metadata 10)) == 0
  /\ ~ duration (build_record "empty.mp4" 0 (hd_metadata 10)) == 0.
Proof.
  simpl. repeat split; try reflexivity; try discriminate.
Qed.

(** C4, amended. For a record built from a size [>= 0] and a duration
    [>= 0]: both rates are zero when the duration is zero, and when the
    duration is positive each rate is zero exactly when the file size is
    zero.  So a rate is zero exactly when the duration or the size is. *)
Theorem rates_zero_iff_duration_or_size_zero
        (name : string) (size : Z) (md : metadata) :
  (0 <= size)%Z ->
  0 <= md_duration md ->
  (bytes_per_second (build_record name size md) == 0
   <-> duration (build_record name size md) == 0
       \/ file_size (build_record name size md) = 0%Z)
  /\ (bitrate (build_record name size md) == 0
      <-> duration (build_record name size md) == 0
          \/ file_size (build_record name size md) = 0%Z)
  /\ (duration (build_record name size md) == 0 ->
      bytes_per_second (build_record name size md) == 0
      /\ bitrate (build_record name size md) == 0)
  /\ (0 < duration (build_record name size md) ->
      (file_size (build_record name size md) <> 0%Z ->
       ~ bytes_per_second (build_record name size md) == 0
       /\ ~ bitrate (build_record name size md) == 0)).
Proof.
  intros Hsize Hdur. simpl.
  destruct (Qltb 0 (md_duration md)) eqn:E.
  - apply Qltb_lt in E.
    assert (Hb : inject_Z size / md_duration md == 0 <-> size = 0%Z).
    { rewrite Qdiv_zero_iff, inject_Z_zero_iff by exact E. reflexivity. }
    assert (Hr : inject_Z (size * 8) / md_duration md == 0 <-> size = 0%Z).
    { rewrite Qdiv_zero_iff, inject_Z_zero_iff by exact E. lia. }
    repeat split; try tauto; try lra.
    + intros [H|H]; [lra | tauto].
    + intros [H|H]; [lra | tauto].
  - apply Qltb_ge in E.
    assert (Hz : md_duration md == 0) by lra.
    repeat split; intros; try reflexivity; try tauto; lra.
Qed.

Lemma rates_zero_iff_duration_or_size_zero_witness :
  (0 <= 1000)%Z
  /\ 0 <= md_duration (hd_metadata 10)
  /\ (bytes_per_second (build_record "a.mp4" 1000 (hd_metadata 10)) == 0
      <-> duration (build_record "a.mp4" 1000 (hd_metadata 10)) == 0
          \/ file_size (build_record "a.mp4" 1000 (hd_metadata 10)) = 0%Z)
  /\ (bitrate (build_record "a.mp4" 1000 (hd_metadata 10)) == 0
      <-> duration (build_record "a.mp4" 1000 (hd_metadata 10)) == 0
          \/ file_size (build_record "a.mp4" 1000 (hd_metadata 10)) = 0%Z).
Proof.
  assert (Hs : (0 <= 1000)%Z) by lia.
  assert (Hd : 0 <= md_duration (hd_metadata 10)) by (simpl; discriminate).
  split; [exact Hs|]. split; [exact Hd|].
  destruct (rates_zero_iff_duration_or_size_zero
              "a.mp4" 1000 (hd_metadata 10) Hs Hd) as (Hb & Hr & _).
  split; [exact Hb | exact Hr].
Defined.

(** ** Directory scan and the entry point *)

Lemma scan_from (files : list video_file) (st : scan_state) :
  fold_left scan_step files st
  = {| clips_data := clips_data st ++ records_of files;
       file_count := (file_count st + Z.of_nat (length (records_of files)))%Z;
       errors := errors st ++ errors_of files |}.
Proof.
  revert st. induction files as [|f files IH]; intro st; simpl.
  - destruct st; simpl. rewrite !app_nil_r, Z.add_0_r. reflexivity.
  - rewrite IH. unfold scan_step.
    destruct (vf_probe f) as [message|[size md]]; simpl.
    + rewrite <- app_assoc. reflexivity.
    + rewrite <- app_assoc. f_equal. lia.
Qed.

Lemma scan_records (files : list video_file) :
  clips_data (scan files) = records_of files
  /\ file_count (scan files) = Z.of_nat (length (records_of files))
  /\ errors (scan files) = errors_of files.
Proof.
  unfold scan. rewrite scan_from. simpl. repeat split.
Qed.

Lemma file_count_zero_iff (files : list video_file) :
  (file_count (scan files) =? 0)%Z = true <-> records_of files = [].
Proof.
  destruct (scan_records files) as (_ & -> & _).
  rewrite Z.eqb_eq. destruct (records_of files); simpl; split;
    intro H; try reflexivity; try discriminate; lia.
Qed.

(** C10: the claim is not met by the code.  The directory below exists,
    eight files match and all of them are read, so none of the three
    early-exit situations holds; yet the call returns no value, because
    the report raises [ZeroDivisionError] before [return clips_data] is
    reached. *)
Theorem analyzer_raises_instead_of_returning :
  ~ gives_up dir_zero_duration
  /\ analyze_clips_advanced UpTo312 dir_zero_duration = Raise ZeroDivisionError
  /\ analyze_clips_advanced From313 dir_zero_duration = Raise ZeroDivisionError.
Proof.
  split; [|split].
  - intros [H|[H|H]]; simpl in H; discriminate.
  - vm_compute. reflexivity.
  - vm_compute. reflexivity.
Qed.

(** Return value of the entry point.  The call returns [None] in exactly
    three situations: the directory does not exist, no file matches, or no
    file could be read.  Whenever it returns a list, that list is the
    complete list of records, one per readable file in enumeration order,
    whatever the unreadable files were.  Outside the three situations it
    returns that list as soon as the report completes, and an exception
    raised by the report leaves the call instead of a value. *)
Theorem analyzer_return_value (v : statistics_version) (d : directory) :
  (analyze_clips_advanced v d = Ok None <-> gives_up d)
  /\ (forall l, analyze_clips_advanced v d = Ok (Some l) ->
                l = records_of (dir_glob_mp4 d) /\ ~ gives_up d)
  /\ (forall rep, ~ gives_up d ->
                  print_report v (scan (dir_glob_mp4 d)) = Ok rep ->
                  analyze_clips_advanced v d
                  = Ok (Some (records_of (dir_glob_mp4 d))))
  /\ (forall e, ~ gives_up d ->
                print_report v (scan (dir_glob_mp4 d)) = Raise e ->
                analyze_clips_advanced v d = Raise e).
Proof.
  unfold analyze_clips_advanced, gives_up.
  destruct (dir_exists d); simpl.
  2:{ repeat split; intros; try discriminate; tauto. }
  destruct (dir_glob_mp4 d) as [|f files] eqn:Hglob; simpl.
  { repeat split; intros; try discriminate; tauto. }
  pose proof (file_count_zero_iff (f :: files)) as Hcount.
  destruct (scan_records (f :: files)) as (Hclips & _ & _).
  destruct (file_count (scan (f :: files)) =? 0)%Z.
  { assert (Hnil : records_of (f :: files) = []) by (apply Hcount; reflexivity).
    repeat split; intros; try discriminate; tauto. }
  assert (Hsome : records_of (f :: files) <> []).
  { intro Hnil. apply Hcount in Hnil. discriminate. }
  rewrite Hclips.
  destruct (print_report v (scan (f :: files))) as [rep|e]; simpl.
  - repeat split; intros; try discriminate; try congruence.
    + destruct H as [H|[H|H]]; [discriminate | discriminate | contradiction].
    + intros [H'|[H'|H']]; [discriminate | discriminate | contradiction].
  - repeat split; intros; try discriminate; try congruence.
    destruct H as [H|[H|H]]; [discriminate | discriminate | contradiction].
Qed.

(** A run in which the report completes and the full list is returned. *)
Lemma analyzer_returns_all_records_example :
  ~ gives_up dir_high_outlier
  /\ analyze_clips_advanced UpTo312 dir_high_outlier
     = Ok (Some (records_of (dir_glob_mp4 dir_high_outlier))).
Proof.
  assert (Hg : ~ gives_up dir_high_outlier).
  { intros [H|[H|H]]; simpl in H; discriminate. }
  split; [exact Hg|].
  destruct (print_report UpTo312 (scan (dir_glob_mp4 dir_high_outlier)))
    as [rep|e] eqn:E.
  - exact (proj1 (proj2 (proj2 (analyzer_return_value UpTo312 dir_high_outlier)))
                 rep Hg E).
  - vm_compute in E. discriminate.
Qed.

(** ** Quartiles *)

Lemma clamp_index_range (ld j : Z) :
  (2 <= ld)%Z -> (1 <= clamp_index ld j <= ld - 1)%Z.
Proof.
  intro H. unfold clamp_index.
  destruct (Z.ltb_spec j 1); [lia|].
  destruct (Z.ltb_spec (ld - 1) j); lia.
Qed.

(** The indices read by the two quantile loops lie within the sample. *)
Lemma cut_indices_in_range (ld n i : Z) :
  (2 <= ld)%Z -> (1 <= i < n)%Z ->
  (0 <= clamp_index ld (i * (ld + 1) / n) - 1
   /\ clamp_index ld (i * (ld + 1) / n) < ld)%Z
  /\ (0 <= i * (ld - 1) / n /\ i * (ld - 1) / n + 1 < ld)%Z.
Proof.
  intros Hld Hi. split.
  - pose proof (clamp_index_range ld (i * (ld + 1) / n) Hld). lia.
  - split.
    + apply Z.div_pos; nia.
    + assert (i * (ld - 1) / n < ld - 1)%Z; [|lia].
      apply Z.div_lt_upper_bound; nia.
Qed.

Lemma quantiles_length_two (v : statistics_version) (data : list Q)
      (method : quantile_method) :
  (2 <= length data)%nat ->
  quantiles v data 4 method
  = Ok (match method with
        | Inclusive =>
            map (inclusive_cut (sorted_keyQ (fun x => x) data) 4) [1; 2; 3]%Z
        | Exclusive =>
            map (exclusive_cut (sorted_keyQ (fun x => x) data) 4) [1; 2; 3]%Z
        end).
Proof.
  intro H. unfold quantiles.
  assert (Hlen : length (sorted_keyQ (fun x => x) data) = length data)
    by apply sorted_by_length.
  rewrite Hlen.
  destruct (Z.ltb_spec (Z.of_nat (length data)) 2); [lia|].
  destruct method; reflexivity.
Qed.

Lemma outlier_fence_exclusive (v : statistics_version) (data : list Q) :
  (2 <= length data)%nat ->
  outlier_fence v data
  = let s := sorted_keyQ (fun x => x) data in
    let q1 := exclusive_cut s 4 1 in
    let q3 := exclusive_cut s 4 3 in
    Ok {| q1 := q1; q3 := q3; iqr := q3 - q1;
          lower_bound := q1 - (3 # 2) * (q3 - q1);
          upper_bound := q3 + (3 # 2) * (q3 - q1) |}.
Proof.
  intro H. unfold outlier_fence.
  rewrite (quantiles_length_two v data Exclusive H). reflexivity.
Qed.

Lemma insert_asc_sorted (x : Q) (l : list Q) :
  StronglySorted Qle l ->
  StronglySorted Qle (insert_by (fun a b => Qle_bool a b) x l).
Proof.
  induction 1 as [|y l Hs IH Hy]; simpl.
  - constructor; constructor.
  - destruct (Qle_bool x y) eqn:E.
    + apply Qle_bool_iff in E.
      constructor; [constructor; assumption|].
      constructor; [exact E|].
      rewrite Forall_forall in *. intros z Hz. specialize (Hy z Hz). lra.
    + apply Qle_bool_false in E.
      constructor; [exact IH|].
      rewrite Forall_forall in *. intros z Hz.
      apply (Permutation_in _ (insert_by_perm _ x l)) in Hz.
      destruct Hz as [<-|Hz]; [lra | auto].
Qed.

Lemma sorted_sample_sorted (data : list Q) :
  StronglySorted Qle (sorted_keyQ (fun x => x) data).
Proof.
  unfold sorted_keyQ. induction data as [|x data IH]; simpl.
  - constructor.
  - apply insert_asc_sorted. exact IH.
Qed.

(** The exclusive cut point is the linear interpolation between the two
    order statistics around the rank [i * (N + 1) / n]. *)
Lemma exclusive_cut_interpolates (s : list Q) (i : Z) :
  exclusive_cut s 4 i
  == interpolate_at_rank s ((i * (Z.of_nat (length s) + 1)) # 4).
Proof.
  unfold exclusive_cut, interpolate_at_rank.
  change (Qfloor ((i * (Z.of_nat (length s) + 1)) # 4))
    with (i * (Z.of_nat (length s) + 1) / 4)%Z.
  set (j := clamp_index (Z.of_nat (length s))
                        (i * (Z.of_nat (length s) + 1) / 4)).
  set (a := item s (j - 1)). set (b := item s j).
  set (m := (i * (Z.of_nat (length s) + 1))%Z).
  clearbody a b j m.
  rewrite (Qmake_Qdiv m 4).
  unfold Zminus.
  repeat rewrite ?inject_Z_plus, ?inject_Z_opp, ?inject_Z_mult.
  generalize (inject_Z m) as M. generalize (inject_Z j) as J. intros J M.
  change (inject_Z (Z.pos 4)) with (4 # 1). change (inject_Z 4) with (4 # 1).
  field.
Qed.

Lemma sorted_nth (s : list Q) (i k : nat) :
  StronglySorted Qle s -> (i <= k < length s)%nat -> nth i s 0 <= nth k s 0.
Proof.
  intro Hs. revert i k. induction Hs as [|x s Hs IH Hx]; intros i k Hik.
  - simpl in Hik. lia.
  - destruct k as [|k].
    + assert (i = 0%nat) by lia. subst. simpl. lra.
    + destruct i as [|i]; simpl.
      * rewrite Forall_forall in Hx. apply Hx. apply nth_In. simpl in Hik. lia.
      * apply IH. simpl in Hik. lia.
Qed.

Lemma sorted_item (s : list Q) (i k : Z) :
  StronglySorted Qle s ->
  (0 <= i <= k)%Z -> (k < Z.of_nat (length s))%Z ->
  item s i <= item s k.
Proof.
  intros Hs Hik Hk. unfold item. apply sorted_nth; [exact Hs | lia].
Qed.

(** A weighted mean with weights [4 - d] and [d] lies between its ends. *)
Lemma weighted_between (a b : Q) (d : Z) :
  a <= b -> (0 <= d <= 4)%Z ->
  a <= (a * inject_Z (4 - d) + b * inject_Z d) / inject_Z 4
  /\ (a * inject_Z (4 - d) + b * inject_Z d) / inject_Z 4 <= b.
Proof.
  intros Hab Hd.
  assert (Hc : (d = 0 \/ d = 1 \/ d = 2 \/ d = 3 \/ d = 4)%Z) by lia.
  destruct Hc as [->|[->|[->|[->| ->]]]]; simpl;
    unfold Qdiv; change (/ inject_Z 4) with (1 # 4);
    change (inject_Z 4) with 4; change (inject_Z 3) with 3;
    change (inject_Z 2) with 2; change (inject_Z 1) with 1;
    change (inject_Z 0) with 0; split; lra.
Qed.

(** From three values on, the first quartile is read strictly to the left
    of the third, and both weights are within [0 .. 4]. *)
Lemma cut_positions (N : Z) :
  (3 <= N)%Z ->
  let j1 := clamp_index N (1 * (N + 1) / 4) in
  let j3 := clamp_index N (3 * (N + 1) / 4) in
  (1 <= j1 /\ j1 < j3 /\ j3 <= N - 1
   /\ 0 <= 1 * (N + 1) - j1 * 4 <= 4 /\ 0 <= 3 * (N + 1) - j3 * 4 <= 4)%Z.
Proof.
  intros HN. unfold clamp_index.
  destruct (Z.ltb_spec (1 * (N + 1) / 4) 1);
    destruct (Z.ltb_spec (N - 1) (1 * (N + 1) / 4));
    destruct (Z.ltb_spec (3 * (N + 1) / 4) 1);
    destruct (Z.ltb_spec (N - 1) (3 * (N + 1) / 4));
    Z.to_euclidean_division_equations; lia.
Qed.

Lemma exclusive_cut_two (a b : Q) :
  exclusive_cut [a; b] 4 1 == (5 * a - b) * (1 # 4)
  /\ exclusive_cut [a; b] 4 3 == (5 * b - a) * (1 # 4).
Proof.
  unfold exclusive_cut, item. simpl.
  split; field.
Qed.

Lemma exclusive_cut_three (a b c : Q) :
  exclusive_cut [a; b; c] 4 1 == a /\ exclusive_cut [a; b; c] 4 3 == c.
Proof.
  unfold exclusive_cut, item. simpl.
  split; field.
Qed.

(** On a sorted sample the first quartile does not exceed the third. *)
Lemma exclusive_quartiles_ordered (s : list Q) :
  StronglySorted Qle s -> (2 <= length s)%nat ->
  exclusive_cut s 4 1 <= exclusive_cut s 4 3.
Proof.
  intros Hs Hlen.
  destruct (Nat.eq_dec (length s) 2) as [H2|H2].
  - destruct s as [|a [|b [|c s]]]; simpl in H2; try lia.
    destruct (exclusive_cut_two a b) as [-> ->].
    inversion Hs as [|? ? _ Ha]; subst.
    inversion Ha as [|? ? Hab _]; subst. lra.
  - assert (HN : (3 <= Z.of_nat (length s))%Z) by lia.
    pose proof (cut_positions _ HN) as Hpos. cbv zeta in Hpos.
    unfold exclusive_cut.
    set (N := Z.of_nat (length s)) in *.
    set (j1 := clamp_index N (1 * (N + 1) / 4)) in *.
    set (j3 := clamp_index N (3 * (N + 1) / 4)) in *.
    destruct Hpos as (H1 & H13 & H3 & Hd1 & Hd3).
    assert (Ha : item s (j1 - 1) <= item s j1)
      by (apply sorted_item; [exact Hs | lia | fold N; lia]).
    assert (Hb : item s (j3 - 1) <= item s j3)
      by (apply sorted_item; [exact Hs | lia | fold N; lia]).
    assert (Hm : item s j1 <= item s (j3 - 1))
      by (apply sorted_item; [exact Hs | lia | fold N; lia]).
    destruct (weighted_between _ _ _ Ha Hd1) as [_ Hq1].
    destruct (weighted_between _ _ _ Hb Hd3) as [Hq3 _].
    lra.
Qed.

(** Whenever the fence exists its bounds are in order. *)
Lemma fence_ordered (v : statistics_version) (data : list Q) (b : fence) :
  outlier_fence v data = Ok b ->
  q1 b <= q3 b /\ lower_bound b <= upper_bound b.
Proof.
  intro H.
  assert (Hq : q1 b <= q3 b
               /\ lower_bound b == q1 b - (3 # 2) * (q3 b - q1 b)
               /\ upper_bound b == q3 b + (3 # 2) * (q3 b - q1 b)).
  { destruct (le_lt_dec 2 (length data)) as [Hlen|Hlen].
    - rewrite (outlier_fence_exclusive v data Hlen) in H. cbv zeta in H.
      inversion H; subst b; clear H. cbn [q1 q3 lower_bound upper_bound].
      split; [|split; reflexivity].
      apply exclusive_quartiles_ordered.
      + apply sorted_sample_sorted.
      + unfold sorted_keyQ. rewrite sorted_by_length. exact Hlen.
    - destruct data as [|x [|y data]]; simpl in Hlen; try lia.
      + destruct v; discriminate H.
      + destruct v; [discriminate H|].
        vm_compute in H. inversion H; subst b; clear H.
        cbn [q1 q3 lower_bound upper_bound].
        split; [|split; reflexivity]. destruct x. apply Qle_refl. }
  destruct Hq as (Hq & Hlo & Hhi). split; [exact Hq | lra].
Qed.

(** C2, as stated, fails: on the sample 1, 2, 3, 4 the detector's quartiles
    are 5/4 and 15/4, those of the inclusive method are 7/4 and 13/4. *)
Lemma quartiles_differ_from_inclusive_method :
  exists b qs,
    outlier_fence UpTo312 (map bytes_per_second (map clip_at [1; 2; 3; 4])) = Ok b
    /\ quantiles UpTo312 (map bytes_per_second (map clip_at [1; 2; 3; 4]))
                 4 Inclusive = Ok qs
    /\ q1 b == 5 # 4 /\ q3 b == 15 # 4
    /\ nth 0 qs 0 == 7 # 4 /\ nth 2 qs 0 == 13 # 4
    /\ ~ q1 b == nth 0 qs 0 /\ ~ q3 b == nth 2 qs 0.
Proof.
  eexists. eexists.
  split; [vm_compute; reflexivity|].
  split; [vm_compute; reflexivity|].
  repeat split; try (vm_compute; reflexivity);
    vm_compute; intro H; discriminate H.
Qed.

(** C2, amended. For every sample of at least two values the detector's
    Q1 and Q3 are those of the exclusive method: the sample is sorted, and
    the quartile number [i] is the linear interpolation between the two
    order statistics around the rank [i * (N + 1) / 4], counted from 1 and
    kept within [1 .. N-1]; the minimum and the maximum are not taken as
    the 0th and the 4th quartile. *)
Theorem quartiles_use_exclusive_method (v : statistics_version) (data : list Q) :
  (2 <= length data)%nat ->
  Permutation (sorted_keyQ (fun x => x) data) data
  /\ StronglySorted Qle (sorted_keyQ (fun x => x) data)
  /\ exists b,
      outlier_fence v data = Ok b
      /\ quantiles v data 4 Exclusive
         = Ok (map (exclusive_cut (sorted_keyQ (fun x => x) data) 4) [1; 2; 3]%Z)
      /\ q1 b == interpolate_at_rank (sorted_keyQ (fun x => x) data)
                                     ((1 * (Z.of_nat (length data) + 1)) # 4)
      /\ q3 b == interpolate_at_rank (sorted_keyQ (fun x => x) data)
                                     ((3 * (Z.of_nat (length data) + 1)) # 4).
Proof.
  intro H.
  split; [apply sorted_by_perm|].
  split; [apply sorted_sample_sorted|].
  rewrite (outlier_fence_exclusive v data H).
  eexists. split; [reflexivity|].
  split; [apply (quantiles_length_two v data Exclusive H)|].
  assert (Hlen : length (sorted_keyQ (fun x => x) data) = length data)
    by apply sorted_by_length.
  simpl. rewrite <- Hlen. split; apply exclusive_cut_interpolates.
Qed.

Lemma quartiles_use_exclusive_method_witness :
  (2 <= length [1; 2; 3; 4])%nat
  /\ exists b,
      outlier_fence UpTo312 [1; 2; 3; 4] = Ok b
      /\ q1 b == interpolate_at_rank [1; 2; 3; 4] (5 # 4)
      /\ q3 b == interpolate_at_rank [1; 2; 3; 4] (15 # 4).
Proof.
  assert (H : (2 <= length [1; 2; 3; 4])%nat) by (simpl; lia).
  split; [exact H|].
  destruct (quartiles_use_exclusive_method UpTo312 [1; 2; 3; 4] H)
    as (_ & _ & b & Hb & _ & H1 & H3).
  exists b. split; [exact Hb|]. split; [exact H1 | exact H3].
Defined.

(** ** Outlier detector *)

Lemma sorted_if_nonempty_perm {A : Type} (before : A -> A -> bool) (l : list A) :
  Permutation (if nonempty l then sorted_by before l else l) l.
Proof.
  destruct (nonempty l); [apply sorted_by_perm | reflexivity].
Qed.

Lemma nonempty_false {A : Type} (l : list A) : nonempty l = false <-> l = [].
Proof. destruct l; simpl; split; intro H; congruence. Qed.

Lemma nonempty_true {A : Type} (l : list A) : nonempty l = true <-> l <> [].
Proof. destruct l; simpl; split; intro H; congruence. Qed.

Lemma bind_Ok {A B : Type} (m : result A) (k : A -> result B) (b : B) :
  bind m k = Ok b -> exists a, m = Ok a /\ k a = Ok b.
Proof.
  destruct m as [a|e]; simpl; intro H; [|discriminate].
  exists a. split; [reflexivity | exact H].
Qed.

(** What a completed outlier section holds. *)
Lemma outlier_section_lists (v : statistics_version) (clips : list clip)
      (r : outlier_report) :
  outlier_section v clips = Ok r ->
  outlier_fence v (map bytes_per_second clips) = Ok (bounds r)
  /\ outliers r = outliers_of clips (lower_bound (bounds r))
                              (upper_bound (bounds r))
  /\ Permutation (high_outliers r)
                 (high_outliers_of (outliers r) (upper_bound (bounds r)))
  /\ Permutation (low_outliers r)
                 (low_outliers_of (outliers r) (lower_bound (bounds r)))
  /\ match high_vs_normal r with
     | Some cmp =>
         high_outliers r <> []
         /\ compare_high_vs_normal clips (high_outliers r)
                                   (lower_bound (bounds r))
                                   (upper_bound (bounds r)) = Ok cmp
     | None => high_outliers r = []
     end.
Proof.
  intro H. unfold outlier_section in H.
  apply bind_Ok in H. destruct H as (b & Hb & H). cbv zeta in H.
  set (out := outliers_of clips (lower_bound b) (upper_bound b)) in *.
  destruct (nonempty out) eqn:Hout.
  - set (high := high_outliers_of out (upper_bound b)) in *.
    set (low := low_outliers_of out (lower_bound b)) in *.
    set (high' := if nonempty high
                  then sorted_keyQ_reverse bytes_per_second high else high) in *.
    set (low' := if nonempty low
                 then sorted_keyQ bytes_per_second low else low) in *.
    assert (Hhigh : Permutation high' high) by apply sorted_if_nonempty_perm.
    assert (Hlow : Permutation low' low) by apply sorted_if_nonempty_perm.
    apply bind_Ok in H. destruct H as (hl & _ & H).
    apply bind_Ok in H. destruct H as (ll & _ & H).
    apply bind_Ok in H. destruct H as (hvn & Hhvn & H).
    inversion H; subst r; clear H. cbn [bounds outliers high_outliers
      low_outliers high_vs_normal].
    repeat match goal with |- _ /\ _ => split end;
      try assumption; try reflexivity.
    destruct (nonempty high') eqn:Hne.
    + apply bind_Ok in Hhvn. destruct Hhvn as (cmp & Hcmp & Hsome).
      inversion Hsome; subst hvn. split; [|exact Hcmp].
      apply nonempty_true. exact Hne.
    + inversion Hhvn; subst hvn. apply nonempty_false. exact Hne.
  - inversion H; subst r; clear H. cbn [bounds outliers high_outliers
      low_outliers high_vs_normal].
    apply nonempty_false in Hout. fold out.
    repeat match goal with |- _ /\ _ => split end;
      try assumption; try reflexivity.
    + rewrite Hout. reflexivity.
    + rewrite Hout. reflexivity.
Qed.

Lemma In_high_outliers (clips : list clip) (lo hi : Q) (c : clip) :
  In c (high_outliers_of (outliers_of clips lo hi) hi)
  <-> In c clips /\ hi < bytes_per_second c.
Proof.
  unfold high_outliers_of, outliers_of, is_high, is_low.
  rewrite !filter_In, orb_true_iff, !Qltb_lt. tauto.
Qed.

Lemma In_low_outliers (clips : list clip) (lo hi : Q) (c : clip) :
  In c (low_outliers_of (outliers_of clips lo hi) lo)
  <-> In c clips /\ bytes_per_second c < lo.
Proof.
  unfold low_outliers_of, outliers_of, is_high, is_low.
  rewrite !filter_In, orb_true_iff, !Qltb_lt. tauto.
Qed.

Lemma In_normal_clips (clips : list clip) (lo hi : Q) (c : clip) :
  In c (normal_clips_of clips lo hi)
  <-> In c clips /\ ~ bytes_per_second c < lo /\ ~ hi < bytes_per_second c.
Proof.
  unfold normal_clips_of.
  rewrite filter_In, andb_true_iff, !Qle_bool_iff.
  split; intros (Hin & H1 & H2); (split; [exact Hin|]); split; lra.
Qed.

Ltac bind_inv H :=
  let a := fresh "a" in
  let Ha := fresh "Ha" in
  apply bind_Ok in H; destruct H as (a & Ha & H).

Lemma compare_normal_clips (clips high : list clip) (lo hi : Q) (cmp : comparison) :
  compare_high_vs_normal clips high lo hi = Ok cmp ->
  normal_clips cmp = normal_clips_of clips lo hi.
Proof.
  intro H. unfold compare_high_vs_normal in H. cbv zeta in H.
  do 15 bind_inv H.
  inversion H. reflexivity.
Qed.

Lemma outlier_fence_Ok (v : statistics_version) (data : list Q) (b : fence) :
  outlier_fence v data = Ok b ->
  exists qs,
    quantiles v data 4 Exclusive = Ok qs
    /\ b = {| q1 := nth 0 qs 0; q3 := nth 2 qs 0;
              iqr := nth 2 qs 0 - nth 0 qs 0;
              lower_bound := nth 0 qs 0 - (3 # 2) * (nth 2 qs 0 - nth 0 qs 0);
              upper_bound := nth 2 qs 0 + (3 # 2) * (nth 2 qs 0 - nth 0 qs 0) |}.
Proof.
  intro H. unfold outlier_fence in H.
  apply bind_Ok in H. destruct H as (qs & Hqs & H). cbv zeta in H.
  apply bind_Ok in H. destruct H as (qs' & Hqs' & H).
  assert (qs' = qs) by congruence. subst qs'.
  exists qs. split; [exact Hqs|]. inversion H. reflexivity.
Qed.

(** The only exception the fence computation can raise is the
    [StatisticsError] of [statistics.quantiles]. *)
Lemma outlier_fence_raises (v : statistics_version) (data : list Q) (e : exn) :
  outlier_fence v data = Raise e -> e = StatisticsError.
Proof.
  unfold outlier_fence, quantiles. cbv zeta.
  destruct (Z.of_nat (length (sorted_keyQ (fun x => x) data)) <? 2)%Z.
  - destruct v.
    + cbn [bind]. intro H. inversion H. reflexivity.
    + destruct (Z.of_nat (length (sorted_keyQ (fun x => x) data)) =? 1)%Z;
        cbn [bind]; intro H; [discriminate H | inversion H; reflexivity].
  - cbn [bind]. intro H. discriminate H.
Qed.

(** The samples for which the fence exists. *)
Lemma outlier_fence_exists (v : statistics_version) (clips : list clip) :
  (exists b, outlier_fence v (map bytes_per_second clips) = Ok b)
  <-> ((2 <= length clips)%nat \/ (v = From313 /\ length clips = 1%nat)).
Proof.
  split.
  - intros [b Hb].
    destruct (le_lt_dec 2 (length clips)) as [H2|H2]; [left; exact H2|].
    right. destruct clips as [|c [|c' clips]]; [| |simpl in H2; lia].
    + destruct v; discriminate Hb.
    + destruct v; [discriminate Hb|]. split; reflexivity.
  - intros [H2|[-> H1]].
    + assert (Hlen : (2 <= length (map bytes_per_second clips))%nat)
        by (rewrite length_map; exact H2).
      rewrite (outlier_fence_exclusive v _ Hlen). eexists. reflexivity.
    + destruct clips as [|c [|c' clips]]; try discriminate H1.
      eexists. reflexivity.
Qed.

Lemma In_outliers (clips : list clip) (lo hi : Q) (c : clip) :
  In c (outliers_of clips lo hi)
  <-> In c clips /\ (bytes_per_second c < lo \/ hi < bytes_per_second c).
Proof.
  unfold outliers_of, is_high, is_low.
  rewrite filter_In, orb_true_iff, !Qltb_lt. tauto.
Qed.

(** C1: the claim is not met by the code.  A run with a single record on
    an interpreter up to Python 3.12 computes no bound and classifies
    nothing: [statistics.quantiles] needs two values and raises
    [StatisticsError] at line 217, which leaves the outlier section and
    the whole call.  The statistics blocks before it do guard the sample
    of one value: there the standard deviation is replaced by "N/A"
    (lines 94, 105, 115 and 124).  From Python 3.13 on the same sample is
    fenced.  The exception does not depend on the arithmetic: it is raised
    on binary64 floats as well. *)
Theorem single_record_gets_no_fence :
  (forall c : clip,
      outlier_fence UpTo312 (map bytes_per_second [c]) = Raise StatisticsError
      /\ outlier_section UpTo312 [c] = Raise StatisticsError
      /\ (exists sb, stat_block_of (map bytes_per_second [c]) = Ok sb
                     /\ sb_stdev_shown sb = false)
      /\ (exists b, outlier_fence From313 (map bytes_per_second [c]) = Ok b))
  /\ (forall c : Binary64.clip,
         Binary64.outlier_fence UpTo312 (map Binary64.bytes_per_second [c])
         = Raise StatisticsError
         /\ Binary64.outlier_section UpTo312 [c] = Raise StatisticsError)
  /\ length (records_of (dir_glob_mp4 dir_single)) = 1%nat
  /\ ~ gives_up dir_single
  /\ analyze_clips_advanced UpTo312 dir_single = Raise StatisticsError.
Proof.
  split.
  - intro c. split; [reflexivity|]. split; [reflexivity|].
    split; eexists; [split|]; reflexivity.
  - split; [intro c; split; reflexivity|].
    split; [reflexivity|]. split.
    + intros [H|[H|H]]; simpl in H; discriminate.
    + vm_compute. reflexivity.
Qed.

(** In every other run the detector does what C1 says.  The fence exists
    exactly in the runs whose sample [statistics.quantiles] accepts: at
    least two records, or a single record from Python 3.13 on; otherwise
    line 217 raises [StatisticsError], and so does the outlier section.
    Where it exists, the fence is computed from the quartiles of the full
    bytes-per-second sample as [lower_bound = Q1 - 1.5 * (Q3 - Q1)] and
    [upper_bound = Q3 + 1.5 * (Q3 - Q1)].  The list of outliers built at
    line 222 holds exactly the records below the lower or above the upper
    bound.  A record is among the low outliers exactly when its value is
    below the lower bound, among the high outliers exactly when it is
    above the upper bound, and among the normal clips otherwise, that is,
    exactly when it is no outlier; the bounds are in order, so no record
    is both low and high, and a value equal to a bound is normal.  The
    lists of a completed outlier section are these.  With [Q1 = 10] and
    [Q3 = 30] the bounds are -20 and 60, so 65 is a high outlier, 45 is
    normal and -25 is a low outlier. *)
Theorem outlier_fence_classification (v : statistics_version) (clips : list clip) :
  ((exists b, outlier_fence v (map bytes_per_second clips) = Ok b)
   <-> ((2 <= length clips)%nat \/ (v = From313 /\ length clips = 1%nat)))
  /\ ((forall b, outlier_fence v (map bytes_per_second clips) <> Ok b) ->
      outlier_fence v (map bytes_per_second clips) = Raise StatisticsError
      /\ outlier_section v clips = Raise StatisticsError)
  /\ forall b,
      outlier_fence v (map bytes_per_second clips) = Ok b ->
      (exists qs, quantiles v (map bytes_per_second clips) 4 Exclusive = Ok qs
                  /\ q1 b = nth 0 qs 0 /\ q3 b = nth 2 qs 0)
      /\ lower_bound b == q1 b - (3 # 2) * (q3 b - q1 b)
      /\ upper_bound b == q3 b + (3 # 2) * (q3 b - q1 b)
      /\ lower_bound b <= upper_bound b
      /\ (forall c,
             In c (outliers_of clips (lower_bound b) (upper_bound b))
             <-> In c clips
                 /\ (bytes_per_second c < lower_bound b
                     \/ upper_bound b < bytes_per_second c))
      /\ (forall c,
             In c (low_outliers_of
                     (outliers_of clips (lower_bound b) (upper_bound b))
                     (lower_bound b))
             <-> In c clips /\ bytes_per_second c < lower_bound b)
      /\ (forall c,
             In c (high_outliers_of
                     (outliers_of clips (lower_bound b) (upper_bound b))
                     (upper_bound b))
             <-> In c clips /\ upper_bound b < bytes_per_second c)
      /\ (forall c,
             In c (normal_clips_of clips (lower_bound b) (upper_bound b))
             <-> In c clips /\ ~ bytes_per_second c < lower_bound b
                 /\ ~ upper_bound b < bytes_per_second c)
      /\ (forall c,
             In c (normal_clips_of clips (lower_bound b) (upper_bound b))
             <-> In c clips
                 /\ ~ In c (outliers_of clips (lower_bound b) (upper_bound b)))
      /\ (forall c,
             ~ (bytes_per_second c < lower_bound b
                /\ upper_bound b < bytes_per_second c))
      /\ (forall c,
             In c clips ->
             bytes_per_second c == lower_bound b
             \/ bytes_per_second c == upper_bound b ->
             In c (normal_clips_of clips (lower_bound b) (upper_bound b)))
      /\ (forall r,
             outlier_section v clips = Ok r ->
             bounds r = b
             /\ outliers r = outliers_of clips (lower_bound b) (upper_bound b)
             /\ (forall c, In c (outliers r)
                           <-> In c clips
                               /\ (bytes_per_second c < lower_bound b
                                   \/ upper_bound b < bytes_per_second c))
             /\ (forall c, In c (low_outliers r)
                           <-> In c clips /\ bytes_per_second c < lower_bound b)
             /\ (forall c, In c (high_outliers r)
                           <-> In c clips /\ upper_bound b < bytes_per_second c)
             /\ (forall cmp c,
                    high_vs_normal r = Some cmp ->
                    In c (normal_clips cmp)
                    <-> In c clips /\ ~ bytes_per_second c < lower_bound b
                        /\ ~ upper_bound b < bytes_per_second c))
      /\ (q1 b == 10 -> q3 b == 30 ->
          lower_bound b == -20 /\ upper_bound b == 60
          /\ forall c,
              In c clips ->
              (bytes_per_second c == 65 ->
               In c (high_outliers_of
                       (outliers_of clips (lower_bound b) (upper_bound b))
                       (upper_bound b)))
              /\ (bytes_per_second c == 45 ->
                  In c (normal_clips_of clips (lower_bound b) (upper_bound b))
                  /\ ~ In c (outliers_of clips (lower_bound b) (upper_bound b)))
              /\ (bytes_per_second c == -25 ->
                  In c (low_outliers_of
                          (outliers_of clips (lower_bound b) (upper_bound b))
                          (lower_bound b)))).
Proof.
  split; [apply outlier_fence_exists|].
  split.
  { intro Hno.
    destruct (outlier_fence v (map bytes_per_second clips)) as [b|e] eqn:E.
    - exfalso. apply (Hno b). reflexivity.
    - pose proof (outlier_fence_raises _ _ _ E) as ->.
      split; [reflexivity|].
      unfold outlier_section. cbv zeta. rewrite E. reflexivity. }
  intros b Hb.
  destruct (fence_ordered v _ b Hb) as [_ Hord].
  destruct (outlier_fence_Ok v _ b Hb) as (qs & Hqs & Heq).
  assert (Hlo : lower_bound b == q1 b - (3 # 2) * (q3 b - q1 b))
    by (rewrite Heq; reflexivity).
  assert (Hhi : upper_bound b == q3 b + (3 # 2) * (q3 b - q1 b))
    by (rewrite Heq; reflexivity).
  assert (Hcompl : forall c,
             In c (normal_clips_of clips (lower_bound b) (upper_bound b))
             <-> In c clips
                 /\ ~ In c (outliers_of clips (lower_bound b) (upper_bound b))).
  { intro c. rewrite In_normal_clips, In_outliers. tauto. }
  split.
  { exists qs. split; [exact Hqs|]. rewrite Heq. split; reflexivity. }
  split; [exact Hlo|]. split; [exact Hhi|]. split; [exact Hord|].
  split; [intro c; apply In_outliers|].
  split; [intro c; apply In_low_outliers|].
  split; [intro c; apply In_high_outliers|].
  split; [intro c; apply In_normal_clips|].
  split; [exact Hcompl|].
  split; [intros c [H1 H2]; lra|].
  split.
  { intros c Hc Hv. apply In_normal_clips. split; [exact Hc|].
    destruct Hv as [Hv|Hv]; split; lra. }
  split.
  { intros r Hr.
    destruct (outlier_section_lists v clips r Hr) as (Hf & Ho & Hh & Hl & Hc).
    assert (Hbr : bounds r = b) by congruence.
    rewrite Hbr in *. rewrite Ho in *.
    split; [reflexivity|]. split; [reflexivity|].
    split; [intro c; apply In_outliers|].
    split; [|split].
    - intro c. rewrite <- In_low_outliers with (hi := upper_bound b).
      split; apply Permutation_in; [exact Hl | symmetry; exact Hl].
    - intro c. rewrite <- In_high_outliers with (lo := lower_bound b).
      split; apply Permutation_in; [exact Hh | symmetry; exact Hh].
    - intros cmp c Hcmp. rewrite Hcmp in Hc. destruct Hc as [_ Hc].
      rewrite (compare_normal_clips _ _ _ _ _ Hc). apply In_normal_clips. }
  intros H1 H3.
  assert (Hlo' : lower_bound b == -20) by (rewrite Hlo, H1, H3; reflexivity).
  assert (Hhi' : upper_bound b == 60) by (rewrite Hhi, H1, H3; reflexivity).
  split; [exact Hlo'|]. split; [exact Hhi'|].
  intros c Hc. split; [|split]; intro Hv.
  - apply In_high_outliers. split; [exact Hc | lra].
  - split.
    + apply In_normal_clips. split; [exact Hc|]. split; lra.
    + rewrite In_outliers. intros [_ [H|H]]; lra.
  - apply In_low_outliers. split; [exact Hc | lra].
Qed.

Lemma outlier_fence_classification_witness :
  (2 <= length fence_sample)%nat
  /\ exists b,
      outlier_fence UpTo312 (map bytes_per_second fence_sample) = Ok b
      /\ q1 b == 10 /\ q3 b == 30
      /\ lower_bound b == -20 /\ upper_bound b == 60
      /\ In (clip_at 65)
            (high_outliers_of
               (outliers_of fence_sample (lower_bound b) (upper_bound b))
               (upper_bound b))
      /\ In (clip_at 45)
            (normal_clips_of fence_sample (lower_bound b) (upper_bound b))
      /\ ~ In (clip_at 45)
              (outliers_of fence_sample (lower_bound b) (upper_bound b))
      /\ In (clip_at (-25))
            (low_outliers_of
               (outliers_of fence_sample (lower_bound b) (upper_bound b))
               (lower_bound b)).
Proof.
  assert (Hlen : (2 <= length fence_sample)%nat) by (simpl; lia).
  split; [exact Hlen|].
  destruct (outlier_fence_classification UpTo312 fence_sample)
    as (Hex & _ & Hall).
  destruct (proj2 Hex (or_introl Hlen)) as (b & Hb).
  destruct (Hall b Hb) as (_ & _ & _ & _ & _ & _ & _ & _ & _ & _ & _ & _ & Hspec).
  exists b. split; [exact Hb|].
  assert (H1 : q1 b == 10).
  { vm_compute in Hb. inversion Hb. vm_compute. reflexivity. }
  assert (H3 : q3 b == 30).
  { vm_compute in Hb. inversion Hb. vm_compute. reflexivity. }
  destruct (Hspec H1 H3) as (Hlo & Hhi & Hc).
  split; [exact H1|]. split; [exact H3|].
  split; [exact Hlo|]. split; [exact Hhi|].
  split; [|split; [|split]].
  - apply (Hc (clip_at 65)); [simpl; tauto | reflexivity].
  - apply (Hc (clip_at 45)); [simpl; tauto | reflexivity].
  - apply (Hc (clip_at 45)); [simpl; tauto | reflexivity].
  - apply (Hc (clip_at (-25))); [simpl; tauto | reflexivity].
Defined.

(** ** Small samples *)

Lemma filter_none {A : Type} (p : A -> bool) (l : list A) :
  (forall x, In x l -> p x = false) -> filter p l = [].
Proof.
  induction l as [|x l IH]; simpl; intro H; [reflexivity|].
  rewrite (H x) by (left; reflexivity). apply IH. intros y Hy. apply H.
  right. exact Hy.
Qed.

(** C3, as stated, fails: with three records the outlier step raises
    nothing and reports no diagnostic; it computes the fence -200 .. 600
    from the quartiles 100 and 300, and the call returns normally. *)
Lemma three_records_are_fenced_silently :
  length (records_of (dir_glob_mp4 dir_three)) = 3%nat
  /\ (exists r,
         outlier_section UpTo312 (records_of (dir_glob_mp4 dir_three)) = Ok r
         /\ q1 (bounds r) == 100 /\ q3 (bounds r) == 300
         /\ lower_bound (bounds r) == -200 /\ upper_bound (bounds r) == 600)
  /\ (exists r,
         outlier_section From313 (records_of (dir_glob_mp4 dir_three)) = Ok r
         /\ lower_bound (bounds r) == -200 /\ upper_bound (bounds r) == 600)
  /\ analyze_clips_advanced UpTo312 dir_three
     = Ok (Some (records_of (dir_glob_mp4 dir_three))).
Proof.
  split; [reflexivity|].
  split; [|split].
  - eexists. split; [vm_compute; reflexivity|].
    repeat split; vm_compute; reflexivity.
  - eexists. split; [vm_compute; reflexivity|].
    repeat split; vm_compute; reflexivity.
  - vm_compute. reflexivity.
Qed.

(** On binary64 floats as well, a sample of two or more values always has
    a fence, built from the first and the third cut point. *)
Lemma outlier_fence_binary64 (v : statistics_version) (data : list float) :
  (2 <= length data)%nat ->
  exists b,
    Binary64.outlier_fence v data = Ok b
    /\ Binary64.q1 b
       = Binary64.exclusive_cut (Binary64.sorted_key (fun x => x) data) 4 1
    /\ Binary64.q3 b
       = Binary64.exclusive_cut (Binary64.sorted_key (fun x => x) data) 4 3.
Proof.
  intro H. unfold Binary64.outlier_fence, Binary64.quantiles. cbv zeta.
  unfold Binary64.sorted_key. rewrite sorted_by_length.
  destruct (Z.ltb_spec (Z.of_nat (length data)) 2); [lia|].
  cbn [bind]. eexists. split; [reflexivity|]. split; reflexivity.
Qed.

(** C3, amended. For every record set with two or three records the
    outlier step does not fail and gives no diagnostic: both calls of
    [statistics.quantiles] return the three cut points of the exclusive
    method on the sorted sample, the fence is computed from the first and
    the third of them, and a completed outlier section carries this
    fence.  The same holds when the values are binary64 floats. *)
Theorem small_samples_are_fenced_silently
        (v : statistics_version) (clips : list clip) :
  (2 <= length clips < 4)%nat ->
  quantiles v (map bytes_per_second clips) 4 Exclusive
  = Ok (map (exclusive_cut
               (sorted_keyQ (fun x => x) (map bytes_per_second clips)) 4)
            [1; 2; 3]%Z)
  /\ exists b,
      outlier_fence v (map bytes_per_second clips) = Ok b
      /\ q1 b = exclusive_cut
                  (sorted_keyQ (fun x => x) (map bytes_per_second clips)) 4 1
      /\ q3 b = exclusive_cut
                  (sorted_keyQ (fun x => x) (map bytes_per_second clips)) 4 3
      /\ lower_bound b == q1 b - (3 # 2) * (q3 b - q1 b)
      /\ upper_bound b == q3 b + (3 # 2) * (q3 b - q1 b)
      /\ (forall r, outlier_section v clips = Ok r -> bounds r = b)
      /\ (forall data : list float,
             length data = length clips ->
             exists fb,
               Binary64.outlier_fence v data = Ok fb
               /\ Binary64.q1 fb
                  = Binary64.exclusive_cut
                      (Binary64.sorted_key (fun x => x) data) 4 1
               /\ Binary64.q3 fb
                  = Binary64.exclusive_cut
                      (Binary64.sorted_key (fun x => x) data) 4 3).
Proof.
  intro Hlen.
  assert (Hlen2 : (2 <= length (map bytes_per_second clips))%nat)
    by (rewrite length_map; lia).
  pose proof (outlier_fence_exclusive v _ Hlen2) as Hb. cbv zeta in Hb.
  split; [apply (quantiles_length_two v _ Exclusive Hlen2)|].
  eexists. split; [exact Hb|].
  cbn [q1 q3 lower_bound upper_bound].
  split; [reflexivity|]. split; [reflexivity|].
  split; [reflexivity|]. split; [reflexivity|].
  split.
  - intros r Hr.
    destruct (outlier_section_lists v clips r Hr) as (Hf & _).
    congruence.
  - intros data Hd. apply outlier_fence_binary64. lia.
Qed.

Lemma small_samples_are_fenced_silently_witness :
  (2 <= length (records_of (dir_glob_mp4 dir_three)) < 4)%nat
  /\ exists b,
      outlier_fence From313
        (map bytes_per_second (records_of (dir_glob_mp4 dir_three))) = Ok b
      /\ q1 b == 100 /\ q3 b == 300.
Proof.
  assert (H : (2 <= length (records_of (dir_glob_mp4 dir_three)) < 4)%nat)
    by (simpl; lia).
  split; [exact H|].
  destruct (small_samples_are_fenced_silently
              From313 (records_of (dir_glob_mp4 dir_three)) H)
    as (_ & b & Hb & H1 & H3 & _).
  exists b. split; [exact Hb|].
  rewrite H1, H3. split; vm_compute; reflexivity.
Defined.

(** ** Comparative diagnostics *)

Lemma percent_diff_Ok (a b p : Q) :
  percent_diff a b = Ok p -> ~ b == 0 /\ p = (a / b - 1) * 100.
Proof.
  unfold percent_diff, div. destruct (Qeq_bool b 0) eqn:E; simpl; intro H.
  - discriminate.
  - apply Qeq_bool_false in E. inversion H. split; [exact E | reflexivity].
Qed.

Lemma percent_diff_zero (a b : Q) :
  b == 0 -> percent_diff a b = Raise ZeroDivisionError.
Proof.
  intro H. unfold percent_diff, div.
  apply Qeq_bool_iff in H. rewrite H. reflexivity.
Qed.

Lemma percent_diff_nonzero (a b : Q) :
  ~ b == 0 -> percent_diff a b = Ok ((a / b - 1) * 100).
Proof.
  intro H. unfold percent_diff, div.
  apply Qeq_bool_false in H. rewrite H. reflexivity.
Qed.

(** The findings are the four tests in order, each contributing at most
    one entry. *)
Lemma key_findings_spec (hf nf hb nb hp np ha na : Q)
      (fs : list (tracked_field * Q)) :
  key_findings true hf nf hb nb hp np ha na = Ok fs ->
  exists pf pb pp,
    percent_diff hf nf = Ok pf
    /\ percent_diff hb nb = Ok pb
    /\ percent_diff hp np = Ok pp
    /\ fs = (if Qltb 10 (Qabs pf) then [(FieldFps, pf)] else [])
            ++ (if Qltb 10 (Qabs pb) then [(FieldBitrate, pb)] else [])
            ++ (if Qltb 10 (Qabs pp) then [(FieldPixels, pp)] else [])
            ++ (if Qltb 20 (Qabs (ha - na)) then [(FieldAudio, ha - na)]
                else []).
Proof.
  intro H. unfold key_findings in H. cbv zeta in H.
  apply bind_Ok in H. destruct H as (pf & Hpf & H).
  apply bind_Ok in H. destruct H as (pb & Hpb & H).
  apply bind_Ok in H. destruct H as (pp & Hpp & H).
  exists pf, pb, pp. repeat split; try assumption.
  revert H.
  destruct (Qltb 10 (Qabs pf)), (Qltb 10 (Qabs pb)), (Qltb 10 (Qabs pp)),
    (Qltb 20 (Qabs (ha - na))); intro H; injection H as <-; reflexivity.
Qed.

(** With non-zero normal means the findings are always produced. *)
Lemma key_findings_total (hf nf hb nb hp np ha na : Q) :
  ~ nf == 0 -> ~ nb == 0 -> ~ np == 0 ->
  exists fs, key_findings true hf nf hb nb hp np ha na = Ok fs.
Proof.
  intros Hf Hb Hp. unfold key_findings.
  rewrite (percent_diff_nonzero hf nf Hf), (percent_diff_nonzero hb nb Hb),
    (percent_diff_nonzero hp np Hp).
  cbn [bind]. eexists. reflexivity.
Qed.

Lemma compare_findings (clips high : list clip) (lo hi : Q) (cmp : comparison) :
  compare_high_vs_normal clips high lo hi = Ok cmp ->
  key_findings (nonempty (normal_clips cmp))
               (high_avg_fps cmp) (normal_avg_fps cmp)
               (high_avg_bitrate cmp) (normal_avg_bitrate cmp)
               (high_avg_pixels cmp) (normal_avg_pixels cmp)
               (high_audio_pct cmp) (normal_audio_pct cmp)
  = Ok (findings cmp)
  /\ difference_line (nonempty (normal_clips cmp))
                     (high_avg_duration cmp) (normal_avg_duration cmp)
     = Ok (duration_difference cmp).
Proof.
  intro H. unfold compare_high_vs_normal in H. cbv zeta in H.
  do 15 bind_inv H.
  inversion H. cbn. split; assumption.
Qed.

Lemma mean_nonempty (l : list Q) :
  l <> [] -> mean l = Ok (sum l / inject_Z (Z.of_nat (length l))).
Proof.
  intro H. unfold mean. apply nonempty_true in H. rewrite H. reflexivity.
Qed.

Lemma mean_Ok_nonempty (l : list Q) (m : Q) : mean l = Ok m -> l <> [].
Proof.
  unfold mean. destruct l; simpl; intro H; [discriminate | congruence].
Qed.

Lemma audio_pct_nonempty (clips : list clip) :
  clips <> [] -> exists p, audio_pct clips = Ok p.
Proof.
  intro H. unfold audio_pct, div.
  assert (Hz : Qeq_bool (inject_Z (Z.of_nat (length clips))) 0 = false).
  { apply Qeq_bool_false. rewrite inject_Z_zero_iff.
    destruct clips; [contradiction | simpl; lia]. }
  rewrite Hz. cbn [bind]. eexists. reflexivity.
Qed.

Lemma difference_line_nonzero (has_normal : bool) (a b : Q) :
  (has_normal = true -> ~ b == 0) ->
  exists line, difference_line has_normal a b = Ok line.
Proof.
  intro H. unfold difference_line. destruct has_normal.
  - rewrite (percent_diff_nonzero a b (H eq_refl)). cbn [bind].
    eexists. reflexivity.
  - eexists. reflexivity.
Qed.

(** The comparison completes whenever the high outliers have a frame rate
    to average and, if there are normal clips, these have non-zero mean
    frame rate, bitrate, duration and pixel count. *)
Lemma compare_completes (clips high : list clip) (lo hi : Q) :
  (exists m, mean (fps_values high) = Ok m) ->
  (normal_clips_of clips lo hi <> [] ->
   nonzero_mean (fps_values (normal_clips_of clips lo hi))
   /\ nonzero_mean (map bitrate (normal_clips_of clips lo hi))
   /\ nonzero_mean (map duration (normal_clips_of clips lo hi))
   /\ nonzero_mean (map (fun c => inject_Z (pixels_per_frame c))
                        (normal_clips_of clips lo hi))) ->
  exists cmp, compare_high_vs_normal clips high lo hi = Ok cmp.
Proof.
  intros [hf Hhf] Hnormal.
  assert (Hhigh : high <> []).
  { intro Hnil. subst high. discriminate Hhf. }
  unfold compare_high_vs_normal. cbv zeta.
  set (normal := normal_clips_of clips lo hi) in *.
  assert (Hmeans :
            exists nf nb nd np,
              (if nonempty normal then mean (fps_values normal) else Ok 0) = Ok nf
              /\ (if nonempty normal then mean (map bitrate normal) else Ok 0)
                 = Ok nb
              /\ (if nonempty normal then mean (map duration normal) else Ok 0)
                 = Ok nd
              /\ (if nonempty normal
                  then mean (map (fun c => inject_Z (pixels_per_frame c)) normal)
                  else Ok 0) = Ok np
              /\ (nonempty normal = true ->
                  ~ nf == 0 /\ ~ nb == 0 /\ ~ nd == 0 /\ ~ np == 0)).
  { destruct (nonempty normal) eqn:E.
    - apply nonempty_true in E.
      destruct (Hnormal E)
        as ((nf & Hnf & Zf) & (nb & Hnb & Zb) & (nd & Hnd & Zd) & (np & Hnp & Zp)).
      exists nf, nb, nd, np. repeat split; assumption.
    - exists 0, 0, 0, 0. repeat split; try reflexivity; discriminate. }
  destruct Hmeans as (nf & nb & nd & np & Hnf & Hnb & Hnd & Hnp & Hnz).
  rewrite Hhf. cbn [bind]. rewrite Hnf. cbn [bind].
  destruct (difference_line_nonzero (nonempty normal) hf nf) as [lf ->];
    [intro E; apply Hnz; exact E|]. cbn [bind].
  rewrite (mean_nonempty (map bitrate high))
    by (destruct high; [contradiction | discriminate]).
  cbn [bind]. rewrite Hnb. cbn [bind].
  destruct (difference_line_nonzero (nonempty normal)
              (sum (map bitrate high)
               / inject_Z (Z.of_nat (length (map bitrate high)))) nb)
    as [lb ->]; [intro E; apply Hnz; exact E|]. cbn [bind].
  rewrite (mean_nonempty (map duration high))
    by (destruct high; [contradiction | discriminate]).
  cbn [bind]. rewrite Hnd. cbn [bind].
  destruct (difference_line_nonzero (nonempty normal)
              (sum (map duration high)
               / inject_Z (Z.of_nat (length (map duration high)))) nd)
    as [ld ->]; [intro E; apply Hnz; exact E|]. cbn [bind].
  destruct (audio_pct_nonempty high Hhigh) as [ha ->]. cbn [bind].
  assert (Hna : exists na,
             (if nonempty normal then audio_pct normal else Ok 0) = Ok na).
  { destruct (nonempty normal) eqn:E.
    - apply audio_pct_nonempty, nonempty_true, E.
    - exists 0. reflexivity. }
  destruct Hna as [na ->]. cbn [bind].
  rewrite (mean_nonempty (map (fun c => inject_Z (pixels_per_frame c)) high))
    by (destruct high; [contradiction | discriminate]).
  cbn [bind]. rewrite Hnp. cbn [bind].
  destruct (difference_line_nonzero (nonempty normal)
              (sum (map (fun c => inject_Z (pixels_per_frame c)) high)
               / inject_Z (Z.of_nat
                   (length (map (fun c => inject_Z (pixels_per_frame c)) high))))
              np)
    as [lp ->]; [intro E; apply Hnz; exact E|]. cbn [bind].
  destruct (nonempty normal) eqn:E.
  - destruct (Hnz eq_refl) as (Zf & Zb & _ & Zp).
    destruct (key_findings_total hf nf
                (sum (map bitrate high)
                 / inject_Z (Z.of_nat (length (map bitrate high)))) nb
                (sum (map (fun c => inject_Z (pixels_per_frame c)) high)
                 / inject_Z (Z.of_nat
                     (length (map (fun c => inject_Z (pixels_per_frame c)) high))))
                np ha na Zf Zb Zp) as [fs ->].
    cbn [bind]. eexists. reflexivity.
  - cbn [key_findings bind]. eexists. reflexivity.
Qed.

(** C5: the claim is not met by the code.  With seven clips of zero
    duration and one ordinary clip, the ordinary clip is a high outlier, the
    normal group is not empty, its mean bitrate is zero, and the percent
    difference of the bitrate comparison divides by it: the
    [ZeroDivisionError] leaves the comparison, the outlier section and the
    whole call.  In general a percent difference against a zero mean
    raises. *)
Theorem percent_diff_raises_on_zero_normal_mean :
  (forall a b, b == 0 ->
               difference_line true a b = Raise ZeroDivisionError
               /\ percent_diff a b = Raise ZeroDivisionError)
  /\ exists b,
      outlier_fence UpTo312
        (map bytes_per_second (records_of (dir_glob_mp4 dir_zero_duration)))
      = Ok b
      /\ nonempty (normal_clips_of (records_of (dir_glob_mp4 dir_zero_duration))
                                   (lower_bound b) (upper_bound b)) = true
      /\ (exists m,
             mean (map bitrate
                       (normal_clips_of
                          (records_of (dir_glob_mp4 dir_zero_duration))
                          (lower_bound b) (upper_bound b))) = Ok m
             /\ m == 0)
      /\ compare_high_vs_normal
           (records_of (dir_glob_mp4 dir_zero_duration))
           (high_outliers_of
              (outliers_of (records_of (dir_glob_mp4 dir_zero_duration))
                           (lower_bound b) (upper_bound b))
              (upper_bound b))
           (lower_bound b) (upper_bound b)
         = Raise ZeroDivisionError
      /\ outlier_section UpTo312 (records_of (dir_glob_mp4 dir_zero_duration))
         = Raise ZeroDivisionError
      /\ outlier_section From313 (records_of (dir_glob_mp4 dir_zero_duration))
         = Raise ZeroDivisionError
      /\ analyze_clips_advanced UpTo312 dir_zero_duration
         = Raise ZeroDivisionError
      /\ analyze_clips_advanced From313 dir_zero_duration
         = Raise ZeroDivisionError.
Proof.
  split.
  - intros a b Hb. unfold difference_line.
    rewrite (percent_diff_zero a b Hb). split; reflexivity.
  - eexists. split; [vm_compute; reflexivity|].
    split; [vm_compute; reflexivity|].
    split; [eexists; split; [vm_compute; reflexivity | vm_compute; reflexivity]|].
    repeat split; vm_compute; reflexivity.
Qed.

(** C6, as stated, fails: this run has a low outlier and its report holds
    no comparison at all. *)
Lemma low_outliers_get_no_comparison :
  exists r,
    outlier_section UpTo312 (records_of (dir_glob_mp4 dir_low_outlier)) = Ok r
    /\ class_members r LowOutlier <> []
    /\ class_members r HighOutlier = []
    /\ high_vs_normal r = None
    /\ diagnostics_for r LowOutlier = None.
Proof.
  eexists. split; [vm_compute; reflexivity|].
  repeat split; try reflexivity. simpl. discriminate.
Qed.

(** C6, amended. In every outlier section that completes, comparative
    diagnostics against the normal clips are present exactly when there are
    high outliers, and they are the comparison of the high outliers with
    the normal clips; no comparison is made for the low outliers. *)
Theorem only_high_outliers_are_compared
        (v : statistics_version) (clips : list clip) (r : outlier_report) :
  outlier_section v clips = Ok r ->
  (class_members r HighOutlier <> []
   <-> exists cmp, diagnostics_for r HighOutlier = Some cmp)
  /\ (forall cmp,
         diagnostics_for r HighOutlier = Some cmp ->
         compare_high_vs_normal clips (class_members r HighOutlier)
                                (lower_bound (bounds r))
                                (upper_bound (bounds r)) = Ok cmp)
  /\ diagnostics_for r LowOutlier = None.
Proof.
  intro H.
  destruct (outlier_section_lists v clips r H) as (_ & _ & _ & _ & Hc).
  simpl. destruct (high_vs_normal r) as [cmp|].
  - destruct Hc as [Hne Hcmp]. repeat split.
    + intros _. exists cmp. reflexivity.
    + intros _. exact Hne.
    + intros cmp' Heq. inversion Heq; subst. exact Hcmp.
  - repeat split.
    + intro Hne. contradiction.
    + intros [cmp Hcmp]. discriminate.
    + intros cmp Hcmp. discriminate.
Qed.

Lemma only_high_outliers_are_compared_witness :
  exists r,
    outlier_section UpTo312 (records_of (dir_glob_mp4 dir_high_outlier)) = Ok r
    /\ class_members r HighOutlier <> []
    /\ (exists cmp, diagnostics_for r HighOutlier = Some cmp)
    /\ diagnostics_for r LowOutlier = None.
Proof.
  destruct (outlier_section UpTo312 (records_of (dir_glob_mp4 dir_high_outlier)))
    as [r|e] eqn:E.
  - exists r. split; [reflexivity|].
    destruct (only_high_outliers_are_compared _ _ _ E) as (Hiff & _ & Hlow).
    assert (Hne : class_members r HighOutlier <> []).
    { vm_compute in E. inversion E. simpl. discriminate. }
    split; [exact Hne|]. split; [apply Hiff; exact Hne | exact Hlow].
  - vm_compute in E. discriminate.
Defined.

(** * Further properties of the script *)

(** ** Directory scan *)

Lemma records_of_app (l1 l2 : list video_file) :
  records_of (l1 ++ l2) = records_of l1 ++ records_of l2.
Proof. unfold records_of. apply flat_map_app. Qed.

Lemma records_errors_lengths (files : list video_file) :
  (length (records_of files) + length (errors_of files))%nat = length files
  /\ map filename (records_of files) = map vf_name (filter is_readable files)
  /\ map err_filename (errors_of files)
     = map vf_name (filter (fun f => negb (is_readable f)) files).
Proof.
  induction files as [|f files (IH1 & IH2 & IH3)]; simpl; [repeat split|].
  destruct (vf_probe f) as [message|[size md]] eqn:E.
  - assert (Hr : is_readable f = false)
      by (unfold is_readable; rewrite E; reflexivity).
    rewrite Hr. simpl. rewrite IH2, IH3. repeat split. lia.
  - assert (Hr : is_readable f = true)
      by (unfold is_readable; rewrite E; reflexivity).
    rewrite Hr. simpl. rewrite IH2, IH3. repeat split. lia.
Qed.

(** X1. The scanning loop turns every enumerated file into exactly one
    record or exactly one error entry, keeps the enumeration order in both
    lists, counts the records in [file_count], and never stops at a file
    that cannot be read. *)
Theorem scan_accounts_for_every_file (files : list video_file) :
  clips_data (scan files) = records_of files
  /\ errors (scan files) = errors_of files
  /\ file_count (scan files) = Z.of_nat (length (clips_data (scan files)))
  /\ (length (clips_data (scan files)) + length (errors (scan files)))%nat
     = length files
  /\ map filename (clips_data (scan files))
     = map vf_name (filter is_readable files)
  /\ map err_filename (errors (scan files))
     = map vf_name (filter (fun f => negb (is_readable f)) files)
  /\ (forall f message,
         In f files -> vf_probe f = inl message ->
         In {| err_filename := vf_name f; err_error := message |}
            (errors (scan files)))
  /\ (forall f size md,
         In f files -> vf_probe f = inr (size, md) ->
         In (build_record (vf_name f) size md) (clips_data (scan files))).
Proof.
  destruct (scan_records files) as (Hc & Hn & He).
  destruct (records_errors_lengths files) as (Hl & Hnames & Herrs).
  rewrite Hc, He, Hn.
  repeat match goal with |- _ /\ _ => split end;
    try reflexivity; try assumption.
  - intros f message Hin Hp. unfold errors_of. apply in_flat_map.
    exists f. split; [exact Hin|]. rewrite Hp. left. reflexivity.
  - intros f size md Hin Hp. unfold records_of. apply in_flat_map.
    exists f. split; [exact Hin|]. rewrite Hp. left. reflexivity.
Qed.

(** ** Derived fields of a record *)

(** X2. In every record the bitrate is eight times the bytes-per-second
    value, both are non-negative for a non-negative size whatever the
    duration (a duration that is not positive gives zero), the pixel count
    is width times height, and the estimated frame count is duration times
    frame rate, or zero when the frame rate is missing or zero. *)
Theorem derived_fields_are_consistent (name : string) (size : Z) (md : metadata) :
  bitrate (build_record name size md)
  == 8 * bytes_per_second (build_record name size md)
  /\ (~ 0 < md_duration md ->
      bytes_per_second (build_record name size md) == 0
      /\ bitrate (build_record name size md) == 0)
  /\ ((0 <= size)%Z ->
      0 <= bytes_per_second (build_record name size md)
      /\ 0 <= bitrate (build_record name size md))
  /\ pixels_per_frame (build_record name size md)
     = (width (build_record name size md)
        * height (build_record name size md))%Z
  /\ (forall f, md_fps md = Some f ->
                total_frames (build_record name size md)
                == md_duration md * f)
  /\ (md_fps md = None -> total_frames (build_record name size md) == 0).
Proof.
  simpl. destruct (Qltb 0 (md_duration md)) eqn:E.
  - apply Qltb_lt in E.
    assert (Hne : ~ md_duration md == 0) by lra.
    assert (H8 : inject_Z (size * 8) / md_duration md
                 == 8 * (inject_Z size / md_duration md)).
    { rewrite inject_Z_mult. change (inject_Z 8) with 8. field. exact Hne. }
    split; [exact H8|]. split; [intro H; contradiction|].
    split.
    { intro Hs.
      assert (Hq : 0 <= inject_Z size / md_duration md).
      { apply Qle_shift_div_l; [exact E|].
        rewrite Qmult_0_l. unfold Qle, inject_Z. simpl. lia. }
      split; [exact Hq|]. rewrite H8. lra. }
    split; [destruct (md_size md) as [[w h]|]; reflexivity|].
    split.
    + intros f ->. simpl. destruct (Qeq_bool f 0) eqn:Ef; simpl.
      * apply Qeq_bool_iff in Ef. rewrite Ef. ring.
      * reflexivity.
    + intros ->. reflexivity.
  - split; [reflexivity|]. split; [intros _; split; reflexivity|].
    split; [intros _; split; apply Qle_refl|].
    split; [destruct (md_size md) as [[w h]|]; reflexivity|].
    split.
    + intros f ->. simpl. destruct (Qeq_bool f 0) eqn:Ef; simpl.
      * apply Qeq_bool_iff in Ef. rewrite Ef. ring.
      * reflexivity.
    + intros ->. reflexivity.
Qed.

(** ** The resolution string *)

Lemma occurs_app (a : Ascii.ascii) (s t : string) :
  occurs a (s ++ t) = occurs a s || occurs a t.
Proof.
  induction s as [|b s IH]; simpl; [reflexivity|].
  rewrite IH, orb_assoc. reflexivity.
Qed.

Lemma digits_have_no_x (d : Decimal.uint) :
  occurs "x"%char (NilEmpty.string_of_uint d) = false.
Proof. induction d; simpl; auto. Qed.

Lemma str_int_has_no_x (z : Z) : occurs "x"%char (str_int z) = false.
Proof.
  unfold str_int, NilZero.string_of_int, NilZero.string_of_uint.
  destruct (Z.to_int z) as [d|d]; destruct d; simpl;
    auto using digits_have_no_x.
Qed.

Lemma str_int_inj (z z' : Z) : str_int z = str_int z' -> z = z'.
Proof.
  unfold str_int. intro H. apply DecimalZ.to_int_inj.
  assert (Hnn : forall n, Z.to_int n <> Decimal.Pos Decimal.Nil
                          /\ Z.to_int n <> Decimal.Neg Decimal.Nil).
  { intros [|p|p]; simpl; split; try discriminate;
      intro Hp; inversion Hp as [Hq];
      exact (DecimalPos.Unsigned.to_uint_nonnil p Hq). }
  destruct (Hnn z) as [H1 H2]. destruct (Hnn z') as [H1' H2'].
  pose proof (NilZero.isi _ H1 H2) as E.
  pose proof (NilZero.isi _ H1' H2') as E'.
  rewrite H in E. congruence.
Qed.

(** Two strings cut at the first occurrence of a character agree part by
    part. *)
Lemma split_at_first (a : Ascii.ascii) (s1 s2 t1 t2 : string) :
  occurs a s1 = false -> occurs a t1 = false ->
  (s1 ++ String a s2)%string = (t1 ++ String a t2)%string ->
  s1 = t1 /\ s2 = t2.
Proof.
  revert t1. induction s1 as [|b s1 IH]; intros [|c t1]; simpl;
    intros Hs Ht H.
  - inversion H. split; reflexivity.
  - inversion H; subst. rewrite Ascii.eqb_refl in Ht. discriminate.
  - inversion H; subst. rewrite Ascii.eqb_refl in Hs. discriminate.
  - inversion H; subst.
    apply orb_false_iff in Hs. apply orb_false_iff in Ht.
    destruct (IH t1) as [-> ->];
      first [tauto | assumption | split; reflexivity].
Qed.

(** X3. The resolution string identifies the reported size: two records
    carry the same string exactly when their files reported the same
    size, that is the same width and height, or none at all, and
    "Unknown" is the string of the records without a size and of no
    other.  Records with equal strings have equal [width] and [height]
    fields.  The converse fails: a file without a size and a file
    reporting 0 by 0 both get width 0, height 0 and 0 pixels per frame,
    but the strings "Unknown" and "0x0", so they are filed under
    different resolutions. *)
Theorem resolution_string_identifies_size
        (name name' : string) (size size' : Z) (md md' : metadata) :
  (resolution (build_record name size md)
   = resolution (build_record name' size' md')
   <-> md_size md = md_size md')
  /\ (resolution (build_record name size md) = "Unknown"%string
      <-> md_size md = None)
  /\ (resolution (build_record name size md)
      = resolution (build_record name' size' md') ->
      width (build_record name size md) = width (build_record name' size' md')
      /\ height (build_record name size md)
         = height (build_record name' size' md'))
  /\ (md_size md = None -> md_size md' = Some (0, 0)%Z ->
      width (build_record name size md) = width (build_record name' size' md')
      /\ height (build_record name size md)
         = height (build_record name' size' md')
      /\ pixels_per_frame (build_record name size md)
         = pixels_per_frame (build_record name' size' md')
      /\ resolution (build_record name size md) = "Unknown"%string
      /\ resolution (build_record name' size' md') = "0x0"%string
      /\ resolution (build_record name size md)
         <> resolution (build_record name' size' md')).
Proof.
  assert (Hinj : resolution (build_record name size md)
                 = resolution (build_record name' size' md') ->
                 md_size md = md_size md').
  { simpl. destruct (md_size md) as [[w h]|], (md_size md') as [[w' h']|];
      intro H.
    - change (str_int w ++ String "x"%char (str_int h)
              = str_int w' ++ String "x"%char (str_int h'))%string in H.
      apply split_at_first in H; try apply str_int_has_no_x.
      destruct H as [Hw Hh]. apply str_int_inj in Hw. apply str_int_inj in Hh.
      subst. reflexivity.
    - exfalso.
      assert (Hx : occurs "x"%char "Unknown" = true).
      { rewrite <- H, occurs_app. simpl. apply orb_true_r. }
      discriminate Hx.
    - exfalso.
      assert (Hx : occurs "x"%char "Unknown" = true).
      { rewrite H, occurs_app. simpl. apply orb_true_r. }
      discriminate Hx.
    - reflexivity. }
  split; [|split; [|split]].
  - split; [exact Hinj|]. intro H. simpl. rewrite H. reflexivity.
  - simpl. destruct (md_size md) as [[w h]|]; split; intro H;
      try reflexivity; try discriminate H.
    exfalso.
    assert (Hx : occurs "x"%char "Unknown" = true).
    { rewrite <- H, occurs_app. simpl. apply orb_true_r. }
    discriminate Hx.
  - intro H. apply Hinj in H. simpl. rewrite H. split; reflexivity.
  - intros H H'. simpl. rewrite H, H'.
    repeat split. intro Heq. discriminate Heq.
Qed.

Lemma resolution_string_identifies_size_witness :
  (resolution (build_record "a.mp4" 1000 (hd_metadata 10))
   = resolution (build_record "b.mp4" 2000 (hd_metadata 5))
   /\ md_size (hd_metadata 10) = md_size (hd_metadata 5))
  /\ (width (build_record "a.mp4" 1000
              {| md_duration := 10; md_fps := Some 30;
                 md_size := None; md_has_audio := true |})
      = width (build_record "b.mp4" 1000
                 {| md_duration := 10; md_fps := Some 30;
                    md_size := Some (0, 0)%Z; md_has_audio := true |})
      /\ resolution (build_record "a.mp4" 1000
                       {| md_duration := 10; md_fps := Some 30;
                          md_size := None; md_has_audio := true |})
         <> resolution (build_record "b.mp4" 1000
                          {| md_duration := 10; md_fps := Some 30;
                             md_size := Some (0, 0)%Z;
                             md_has_audio := true |})).
Proof.
  split.
  - assert (H : resolution (build_record "a.mp4" 1000 (hd_metadata 10))
                = resolution (build_record "b.mp4" 2000 (hd_metadata 5)))
      by reflexivity.
    split; [exact H|].
    exact (proj1 (proj1 (resolution_string_identifies_size
                           "a.mp4" "b.mp4" 1000 2000
                           (hd_metadata 10) (hd_metadata 5))) H).
  - destruct (proj2 (proj2 (proj2
               (resolution_string_identifies_size
                  "a.mp4" "b.mp4" 1000 1000
                  {| md_duration := 10; md_fps := Some 30;
                     md_size := None; md_has_audio := true |}
                  {| md_duration := 10; md_fps := Some 30;
                     md_size := Some (0, 0)%Z; md_has_audio := true |})))
               eq_refl eq_refl) as (Hw & _ & _ & _ & _ & Hne).
    split; [exact Hw | exact Hne].
Defined.

(** ** Rounding and the rows of the group tables *)

Lemma round_near (x : Q) :
  inject_Z (round x) - (1 # 2) <= x /\ x <= inject_Z (round x) + (1 # 2).
Proof.
  unfold round.
  pose proof (Qfloor_le x) as Hlo. pose proof (Qlt_floor x) as Hhi.
  rewrite inject_Z_plus in Hhi. change (inject_Z 1) with 1 in Hhi.
  destruct (Qcompare_spec (x - inject_Z (Qfloor x)) (1 # 2)) as [H|H|H].
  - destruct (Z.even (Qfloor x)).
    + split; lra.
    + rewrite inject_Z_plus. change (inject_Z 1) with 1. split; lra.
  - split; lra.
  - rewrite inject_Z_plus. change (inject_Z 1) with 1. split; lra.
Qed.

(** A number rounds to a positive integer exactly when it exceeds one
    half. *)
Lemma round_positive (x : Q) : (0 < round x)%Z <-> 1 # 2 < x.
Proof.
  pose proof (round_near x) as [Hlo Hhi].
  unfold round in *.
  pose proof (Qfloor_le x) as Hfl. pose proof (Qlt_floor x) as Hfh.
  rewrite inject_Z_plus in Hfh. change (inject_Z 1) with 1 in Hfh.
  set (f := Qfloor x) in *.
  assert (Hpos : (0 < f)%Z -> 1 <= inject_Z f).
  { intro H. change 1 with (inject_Z 1). rewrite <- Zle_Qle. lia. }
  assert (Hneg : (f <= 0)%Z -> inject_Z f <= 0).
  { intro H. change 0 with (inject_Z 0). rewrite <- Zle_Qle. exact H. }
  assert (Hneg1 : (f < 0)%Z -> inject_Z f <= -1).
  { intro H. change (-1) with (inject_Z (-1)). rewrite <- Zle_Qle. lia. }
  destruct (Qcompare_spec (x - inject_Z f) (1 # 2)) as [H|H|H].
  - destruct (Z.even f) eqn:E; split; intro Hx.
    + specialize (Hpos Hx). lra.
    + destruct (Z_lt_le_dec 0 f) as [Hf|Hf]; [exact Hf|].
      specialize (Hneg Hf). lra.
    + assert (Hf : (0 <= f)%Z) by lia.
      destruct (Z.eq_dec f 0) as [H0|H0];
        [rewrite H0 in E; discriminate E|].
      assert (Hf1 : (0 < f)%Z) by lia. specialize (Hpos Hf1). lra.
    + destruct (Z_lt_le_dec f 0) as [Hf|Hf]; [|lia].
      specialize (Hneg1 Hf). lra.
  - split; intro Hx.
    + specialize (Hpos Hx). lra.
    + destruct (Z_lt_le_dec 0 f) as [Hf|Hf]; [exact Hf|].
      specialize (Hneg Hf). lra.
  - split; intro Hx.
    + assert (Hf : 0 <= inject_Z f).
      { change 0 with (inject_Z 0). rewrite <- Zle_Qle. lia. }
      lra.
    + destruct (Z_lt_le_dec f 0) as [Hf|Hf]; [|lia].
      specialize (Hneg1 Hf). lra.
Qed.

Lemma first_seen_In {K : Type} (eqb : K -> K -> bool) (k : K) (l : list K) :
  In k (first_seen eqb l) -> In k l.
Proof.
  induction l as [|k' l IH]; simpl; [tauto|].
  intros [->|H]; [left; reflexivity|].
  apply filter_In in H. right. apply IH. tauto.
Qed.

(** The groups of a grouping loop are exactly the keys met, each with the
    values of its clips. *)
Lemma group_by_In {K : Type} (eqb : K -> K -> bool)
      (eqb_spec : forall x y, reflect (x = y) (eqb x y))
      (key : clip -> K) (clips : list clip) (k : K) (xs : list Q) :
  In (k, xs) (group_by eqb key clips)
  <-> In k (map key clips) /\ xs = members eqb key k clips.
Proof.
  destruct (group_from_partitions eqb eqb_spec key [] clips)
    as (Hnd & Hcov & Hval & _); [constructor | constructor |].
  fold (group_by eqb key clips) in *.
  split.
  - intro Hin. split; [|apply Hval; exact Hin].
    apply (first_seen_In eqb).
    rewrite <- (group_by_keys eqb eqb_spec).
    change k with (fst (k, xs)). apply in_map. exact Hin.
  - intros [Hk ->]. apply in_map_iff in Hk. destruct Hk as (c & <- & Hc).
    destruct (Hcov c Hc) as ([k' xs'] & [Hin Hfst] & _).
    simpl in Hfst. subst k'.
    rewrite <- (Hval _ _ Hin). exact Hin.
Qed.

Lemma members_nonempty {K : Type} (eqb : K -> K -> bool)
      (eqb_spec : forall x y, reflect (x = y) (eqb x y))
      (key : clip -> K) (clips : list clip) (k : K) :
  (1 <= length (members eqb key k clips))%nat -> In k (map key clips).
Proof.
  unfold members. rewrite length_map. intro H.
  destruct (filter (fun c => eqb (key c) k) clips) as [|c l] eqn:E;
    [simpl in H; lia|].
  assert (Hc : In c (filter (fun c => eqb (key c) k) clips))
    by (rewrite E; left; reflexivity).
  apply filter_In in Hc. destruct Hc as [Hc Hk].
  destruct (eqb_spec (key c) k) as [<-|]; [|discriminate].
  apply in_map. exact Hc.
Qed.

(** X4. Which lines the two group tables hold, in terms of the clips: a
    resolution has a line exactly when at least three clips carry it, and
    an integer frame rate has a line exactly when it is positive and at
    least three clips round to it; the sample count of a line is the number
    of those clips.  A clip's frame rate rounds to a positive key exactly
    when it exceeds one half, so clips without a frame rate, with frame
    rate zero or at most one half never appear in the frame-rate table, and
    a key differs from the frame rates it stands for by at most one
    half. *)
Theorem table_lines_by_clip_counts (clips : list clip) :
  (forall res,
      (exists g, In g (res_emitted (res_groups clips)) /\ fst g = res)
      <-> (3 <= count_resolution res clips)%Z)
  /\ (forall k,
         (exists g, In g (fps_emitted (fps_groups clips)) /\ fst g = k)
         <-> (0 < k)%Z /\ (3 <= count_fps_rounded k clips)%Z)
  /\ (forall g, In g (res_emitted (res_groups clips)) ->
                group_len g = count_resolution (fst g) clips)
  /\ (forall g, In g (fps_emitted (fps_groups clips)) ->
                group_len g = count_fps_rounded (fst g) clips)
  /\ (forall c, (0 < fps_rounded c)%Z
                <-> exists f, fps c = Some f /\ 1 # 2 < f)
  /\ (forall c f, fps c = Some f -> ~ f == 0 ->
                  inject_Z (fps_rounded c) - (1 # 2) <= f
                  /\ f <= inject_Z (fps_rounded c) + (1 # 2)).
Proof.
  assert (Hres : forall g,
             In g (res_emitted (res_groups clips))
             <-> In (fst g) (map resolution clips)
                 /\ snd g = members String.eqb resolution (fst g) clips
                 /\ (3 <= group_len g)%Z).
  { intros [k xs]. unfold res_emitted, sorted_key_reverse, res_groups.
    rewrite filter_In, sorted_by_In, Z.leb_le.
    rewrite (group_by_In String.eqb String.eqb_spec). simpl. tauto. }
  assert (Hfps : forall g,
             In g (fps_emitted (fps_groups clips))
             <-> In (fst g) (map fps_rounded clips)
                 /\ snd g = members Z.eqb fps_rounded (fst g) clips
                 /\ (3 <= group_len g)%Z /\ (0 < fst g)%Z).
  { intros [k xs]. unfold fps_emitted, sorted_key_reverse, fps_groups.
    rewrite filter_In, sorted_by_In, andb_true_iff, Z.leb_le, Z.ltb_lt.
    rewrite (group_by_In Z.eqb Z.eqb_spec). simpl. tauto. }
  assert (Hlr : forall res,
             Z.of_nat (length (members String.eqb resolution res clips))
             = count_resolution res clips).
  { intro res. unfold members, count_resolution. rewrite length_map.
    reflexivity. }
  assert (Hlf : forall k,
             Z.of_nat (length (members Z.eqb fps_rounded k clips))
             = count_fps_rounded k clips).
  { intro k. unfold members, count_fps_rounded. rewrite length_map.
    reflexivity. }
  repeat match goal with |- _ /\ _ => split end.
  - intro res. split.
    + intros (g & Hg & <-). apply Hres in Hg. destruct Hg as (_ & Hs & H3).
      unfold group_len in H3. rewrite Hs, Hlr in H3. exact H3.
    + intro H3. exists (res, members String.eqb resolution res clips).
      split; [|reflexivity]. apply Hres. simpl. unfold group_len. simpl.
      rewrite Hlr. split; [|split; [reflexivity | exact H3]].
      apply (members_nonempty String.eqb String.eqb_spec).
      rewrite <- Hlr in H3. lia.
  - intro k. split.
    + intros (g & Hg & <-). apply Hfps in Hg.
      destruct Hg as (_ & Hs & H3 & H0).
      unfold group_len in H3. rewrite Hs, Hlf in H3. tauto.
    + intros [H0 H3]. exists (k, members Z.eqb fps_rounded k clips).
      split; [|reflexivity]. apply Hfps. simpl. unfold group_len. simpl.
      rewrite Hlf. split; [|split; [reflexivity | split; assumption]].
      apply (members_nonempty Z.eqb Z.eqb_spec).
      rewrite <- Hlf in H3. lia.
  - intros g Hg. apply Hres in Hg. destruct Hg as (_ & Hs & _).
    unfold group_len. rewrite Hs. apply Hlr.
  - intros g Hg. apply Hfps in Hg. destruct Hg as (_ & Hs & _).
    unfold group_len. rewrite Hs. apply Hlf.
  - intro c. unfold fps_rounded. destruct (fps c) as [f|]; simpl.
    + destruct (Qeq_bool f 0) eqn:E; simpl.
      * apply Qeq_bool_iff in E. split; [lia|].
        intros (f' & Hf & Hhalf). inversion Hf; subst. lra.
      * rewrite round_positive. split.
        -- intro H. exists f. split; [reflexivity | exact H].
        -- intros (f' & Hf & Hhalf). inversion Hf; subst. exact Hhalf.
    + split; [lia|]. intros (f' & Hf & _). discriminate Hf.
  - intros c f Hf Hnz. unfold fps_rounded. rewrite Hf. simpl.
    apply Qeq_bool_false in Hnz. rewrite Hnz. simpl. apply round_near.
Qed.

(** ** Resolution distribution *)

Lemma count_step_append (groups : list (string * list Q)) (c : clip) :
  count_step (map (fun g => (fst g, group_len g)) groups) c
  = map (fun g => (fst g, group_len g))
        (append_to String.eqb (resolution c) (bytes_per_second c) groups).
Proof.
  unfold count_step. generalize (bytes_per_second c) as x.
  generalize (resolution c) as k. intros k x.
  induction groups as [|[k' xs] groups IH]; simpl.
  - reflexivity.
  - destruct (String.eqb k k') eqn:E; simpl.
    + f_equal. f_equal. unfold group_len. simpl.
      rewrite length_app. simpl. lia.
    + f_equal. exact IH.
Qed.

Lemma resolutions_from_groups (clips : list clip) (groups : list (string * list Q)) :
  fold_left count_step clips (map (fun g => (fst g, group_len g)) groups)
  = map (fun g => (fst g, group_len g))
        (group_from String.eqb resolution groups clips).
Proof.
  revert groups. induction clips as [|c clips IH]; intro groups.
  - reflexivity.
  - rewrite (group_from_cons String.eqb String.eqb_spec). simpl.
    rewrite count_step_append. apply IH.
Qed.

(** The counter of lines 137-140 and the grouping of lines 157-162 agree:
    same keys in the same order, and each count is the size of the
    group. *)
Lemma resolutions_of_groups (clips : list clip) :
  resolutions_of clips
  = map (fun g => (fst g, group_len g)) (res_groups clips).
Proof. apply (resolutions_from_groups clips []). Qed.

Lemma resolutions_of_In (clips : list clip) (res : string) (n : Z) :
  In (res, n) (resolutions_of clips)
  <-> In res (map resolution clips) /\ n = count_resolution res clips.
Proof.
  rewrite resolutions_of_groups, in_map_iff. split.
  - intros ([k xs] & Heq & Hin). inversion Heq; subst.
    apply (group_by_In String.eqb String.eqb_spec) in Hin.
    destruct Hin as [Hk ->]. split; [exact Hk|].
    unfold group_len, members, count_resolution. simpl.
    rewrite length_map. reflexivity.
  - intros [Hk ->].
    exists (res, members String.eqb resolution res clips). split.
    + unfold group_len, members, count_resolution. simpl.
      rewrite length_map. reflexivity.
    + apply (group_by_In String.eqb String.eqb_spec). split;
        [exact Hk | reflexivity].
Qed.

Lemma count_resolution_positive (clips : list clip) (res : string) :
  In res (map resolution clips) <-> (1 <= count_resolution res clips)%Z.
Proof.
  unfold count_resolution. split.
  - intro H. apply in_map_iff in H. destruct H as (c & <- & Hc).
    assert (Hin : In c (filter (fun c0 => String.eqb (resolution c0)
                                                     (resolution c)) clips)).
    { apply filter_In. split; [exact Hc | apply String.eqb_refl]. }
    destruct (filter _ clips); [destruct Hin | simpl; lia].
  - intro H. apply (members_nonempty String.eqb String.eqb_spec).
    unfold members. rewrite length_map. lia.
Qed.

Lemma sum_counts_perm (l l' : list (string * Z)) :
  Permutation l l' ->
  fold_right Z.add 0%Z (map snd l) = fold_right Z.add 0%Z (map snd l').
Proof.
  induction 1; simpl; lia.
Qed.

Lemma sum_group_lens (groups : list (string * list Q)) :
  fold_right Z.add 0%Z (map snd (map (fun g => (fst g, group_len g)) groups))
  = Z.of_nat (total_samples groups).
Proof.
  unfold total_samples, group_len.
  induction groups as [|g groups IH]; simpl; [reflexivity|].
  rewrite IH. lia.
Qed.

Lemma resolutions_total (clips : list clip) :
  fold_right Z.add 0%Z (map snd (resolutions_of clips))
  = Z.of_nat (length clips).
Proof.
  rewrite resolutions_of_groups, sum_group_lens. f_equal.
  destruct (group_from_partitions String.eqb String.eqb_spec resolution [] clips)
    as (_ & _ & _ & Ht); [constructor | constructor |].
  exact Ht.
Qed.

Lemma percentage_nonzero (count file_count : Z) :
  file_count <> 0%Z ->
  percentage count file_count
  = Ok (inject_Z count / inject_Z file_count * 100).
Proof.
  intro H. unfold percentage, div.
  assert (Hz : Qeq_bool (inject_Z file_count) 0 = false).
  { apply Qeq_bool_false. rewrite inject_Z_zero_iff. exact H. }
  rewrite Hz. reflexivity.
Qed.

Lemma distribution_rows (l : list (string * Z)) (N : Z) :
  N <> 0%Z ->
  exists rows,
    for_each (fun rc => p <- percentage (snd rc) N ;; Ok (fst rc, snd rc, p)) l
    = Ok rows
    /\ map fst rows = l
    /\ (forall res n p, In (res, n, p) rows ->
                        p = inject_Z n / inject_Z N * 100).
Proof.
  intro HN. induction l as [|[res n] l (rows & Hrows & Hmap & Hp)].
  - exists []. simpl. repeat split; try tauto.
  - simpl. rewrite (percentage_nonzero n N HN). cbn [bind].
    rewrite Hrows. cbn [bind].
    eexists. split; [reflexivity|]. simpl. rewrite Hmap.
    split; [reflexivity|].
    intros res' n' p' [Heq|Hin]; [inversion Heq; reflexivity|].
    exact (Hp _ _ _ Hin).
Qed.

(** X5. The resolution counter and the resolution grouping agree: the
    counter has the same keys in the same order as the groups and each
    count is the size of the group, which is the number of clips with that
    resolution and at least one.  The distribution prints every resolution
    once, most frequent first, each with count / file_count * 100, and the
    counts add up to the number of clips. *)
Theorem resolution_distribution_is_complete (clips : list clip) :
  clips <> [] ->
  resolutions_of clips
  = map (fun g => (fst g, group_len g)) (res_groups clips)
  /\ (forall res n,
         In (res, n) (resolutions_of clips)
         <-> (1 <= n)%Z /\ n = count_resolution res clips)
  /\ fold_right Z.add 0%Z (map snd (resolutions_of clips))
     = Z.of_nat (length clips)
  /\ exists rows,
      resolution_distribution (resolutions_of clips)
                              (Z.of_nat (length clips)) = Ok rows
      /\ Permutation (map fst rows) (resolutions_of clips)
      /\ StronglySorted (fun a b => (snd (fst b) <= snd (fst a))%Z) rows
      /\ (forall res n p,
             In (res, n, p) rows ->
             p = inject_Z n / inject_Z (Z.of_nat (length clips)) * 100).
Proof.
  intro Hne.
  assert (HN : Z.of_nat (length clips) <> 0%Z)
    by (destruct clips; [contradiction | simpl; lia]).
  split; [apply resolutions_of_groups|].
  split.
  { intros res n. rewrite resolutions_of_In, count_resolution_positive.
    split; intros [H1 H2]; subst; tauto. }
  split; [apply resolutions_total|].
  unfold resolution_distribution.
  destruct (distribution_rows (sorted_key_reverse snd (resolutions_of clips))
                              _ HN) as (rows & Hrows & Hmap & Hp).
  exists rows. split; [exact Hrows|].
  split; [rewrite Hmap; apply sorted_by_perm|].
  split.
  { pose proof (sorted_key_reverse_sorted (@snd string Z)
                                          (resolutions_of clips)) as Hs.
    rewrite <- Hmap in Hs. clear - Hs.
    induction rows as [|r rows IH]; [constructor|].
    simpl in Hs. inversion Hs as [|? ? Hs' Hr]; subst.
    constructor; [apply IH; exact Hs'|].
    rewrite Forall_forall in *. intros y Hy.
    apply (Hr (fst y)). apply in_map. exact Hy. }
  exact Hp.
Qed.

Lemma resolution_distribution_is_complete_witness :
  records_of (dir_glob_mp4 dir_with_failure) <> []
  /\ fold_right Z.add 0%Z
                (map snd (resolutions_of (records_of (dir_glob_mp4 dir_with_failure))))
     = 3%Z.
Proof.
  assert (H : records_of (dir_glob_mp4 dir_with_failure) <> [])
    by (simpl; discriminate).
  split; [exact H|].
  exact (proj1 (proj2 (proj2 (resolution_distribution_is_complete _ H)))).
Defined.

(** ** Recommendation *)

Lemma first_max_spec {A : Type} (key : A -> Z) (l : list A) (x : A) :
  In (first_max key x l) (x :: l)
  /\ Forall (fun y => (key y <= key (first_max key x l))%Z) (x :: l).
Proof.
  unfold first_max. revert x. induction l as [|y l IH]; intro x; simpl.
  - split; [left; reflexivity|]. constructor; [lia | constructor].
  - destruct (IH (if (key x <? key y)%Z then y else x)) as [Hin Hall].
    split.
    + destruct Hin as [Hin|Hin]; [|right; right; exact Hin].
      rewrite <- Hin. destruct (key x <? key y)%Z; [right | ]; left; reflexivity.
    + inversion Hall as [|? ? Hb Hl]; subst.
      destruct (Z.ltb_spec (key x) (key y)) as [Hlt|Hge].
      * constructor; [lia|]. constructor; [exact Hb | exact Hl].
      * constructor; [exact Hb|]. constructor; [lia | exact Hl].
Qed.

Lemma resolutions_nonempty (clips : list clip) :
  clips <> [] -> resolutions_of clips <> [].
Proof.
  intros Hne Hnil. destruct clips as [|c clips]; [contradiction|].
  assert (Hin : In (resolution c, count_resolution (resolution c) (c :: clips))
                   (resolutions_of (c :: clips))).
  { apply resolutions_of_In. split; [left; reflexivity | reflexivity]. }
  rewrite Hnil in Hin. destruct Hin.
Qed.

(** The dominant resolution is one of the resolutions met and no other has
    more clips. *)
Lemma dominant_spec (clips : list clip) :
  clips <> [] ->
  In (dominant_of (resolutions_of clips)) (resolutions_of clips)
  /\ forall res, (count_resolution res clips
                  <= snd (dominant_of (resolutions_of clips)))%Z.
Proof.
  intro Hne. pose proof (resolutions_nonempty clips Hne) as Hr.
  unfold dominant_of.
  destruct (resolutions_of clips) as [|x l] eqn:E; [contradiction|].
  destruct (first_max_spec (@snd string Z) l x) as [Hin Hall].
  split; [exact Hin|].
  intro res.
  destruct (Z_lt_le_dec (count_resolution res clips) 1) as [H0|H1].
  - assert (Hd : (1 <= snd (first_max snd x l))%Z); [|lia].
    rewrite <- E in Hin. destruct (first_max snd x l) as [r n].
    apply resolutions_of_In in Hin. destruct Hin as [Hk ->].
    apply count_resolution_positive. exact Hk.
  - rewrite Forall_forall in Hall.
    apply (Hall (res, count_resolution res clips)).
    rewrite <- E. apply resolutions_of_In.
    split; [apply count_resolution_positive; exact H1 | reflexivity].
Qed.

Lemma share_above_four_fifths (c N : Z) :
  (0 < N)%Z ->
  (Qltb (4 # 5) (inject_Z c / inject_Z N) = true <-> (4 * N < 5 * c)%Z).
Proof.
  intro HN. rewrite Qltb_lt.
  destruct N as [|p|p]; try lia.
  rewrite <- (Qmake_Qdiv c p). unfold Qlt. cbn [Qnum Qden]. lia.
Qed.

(** Two different resolutions never share a clip. *)
Lemma counts_of_two_resolutions (clips : list clip) (res res' : string) :
  res <> res' ->
  (count_resolution res clips + count_resolution res' clips
   <= Z.of_nat (length clips))%Z.
Proof.
  intro Hne. unfold count_resolution.
  induction clips as [|c clips IH]; [simpl; lia|].
  cbn [filter length].
  destruct (String.eqb_spec (resolution c) res) as [E|E];
    destruct (String.eqb_spec (resolution c) res') as [E'|E'];
    cbn [length]; rewrite ?Nat2Z.inj_succ; try lia.
  congruence.
Qed.

Lemma firstn_In {A : Type} (n : nat) (l : list A) (x : A) :
  In x (firstn n l) -> In x l.
Proof.
  intro H. rewrite <- (firstn_skipn n l). apply in_or_app. left. exact H.
Qed.

(** On a list in descending order of size, keeping the groups of at least
    three samples commutes with taking a prefix. *)
Lemma filter_firstn_sorted {K : Type} (n : nat) (l : list (K * list Q)) :
  StronglySorted (fun a b => (group_len b <= group_len a)%Z) l ->
  filter (fun g => (3 <=? group_len g)%Z) (firstn n l)
  = firstn n (filter (fun g => (3 <=? group_len g)%Z) l).
Proof.
  intro Hs. revert n. induction Hs as [|x l Hs IH Hx]; intro n.
  - destruct n; reflexivity.
  - destruct n as [|n]; simpl.
    + destruct (3 <=? group_len x)%Z; reflexivity.
    + destruct (Z.leb_spec 3 (group_len x)) as [H3|H3].
      * simpl. f_equal. apply IH.
      * assert (Hnone : forall l', (forall y, In y l' -> In y l) ->
                          filter (fun g => (3 <=? group_len g)%Z) l' = []).
        { intros l' Hsub. apply filter_none. intros y Hy.
          rewrite Forall_forall in Hx. specialize (Hx y (Hsub y Hy)).
          apply Z.leb_gt. lia. }
        rewrite (Hnone l) by auto.
        rewrite (Hnone (firstn n l)).
        -- destruct n; reflexivity.
        -- intros y Hy. eapply firstn_In. exact Hy.
Qed.

Lemma for_each_firstn {A B : Type} (f : A -> result B) (n : nat)
      (l : list A) (ys : list B) :
  for_each f l = Ok ys -> for_each f (firstn n l) = Ok (firstn n ys).
Proof.
  revert n ys. induction l as [|x l IH]; intros n ys H; simpl in H.
  - inversion H. destruct n; reflexivity.
  - apply bind_Ok in H. destruct H as (y & Hy & H).
    apply bind_Ok in H. destruct H as (ys' & Hys & H).
    inversion H; subst ys. destruct n as [|n]; simpl; [reflexivity|].
    rewrite Hy. cbn [bind]. rewrite (IH n ys' Hys). reflexivity.
Qed.

Lemma for_each_means {K : Type} (l : list (K * list Q))
      (table : list (K * Q * nat)) :
  for_each group_row l = Ok table ->
  for_each (fun g => m <- mean (snd g) ;; Ok (fst g, m)) l
  = Ok (map (fun r => (fst (fst r), snd (fst r))) table).
Proof.
  revert table. induction l as [|g l IH]; intros table H; simpl in H.
  - inversion H. reflexivity.
  - apply bind_Ok in H. destruct H as (row & Hrow & H).
    apply bind_Ok in H. destruct H as (rows & Hrows & H).
    inversion H; subst table. simpl.
    unfold group_row in Hrow. apply bind_Ok in Hrow.
    destruct Hrow as (m & Hm & Hrow). inversion Hrow; subst row.
    rewrite Hm. cbn [bind]. rewrite (IH rows Hrows). reflexivity.
Qed.

(** X6. With at least one clip the recommendation always completes.  It
    is the "highly representative" note exactly when one resolution holds
    more than 80 percent of the clips; that resolution is then the one
    named, its percentage is count / file_count * 100, and every other
    resolution holds fewer than a fifth of the clips.  Otherwise no
    resolution holds more than 80 percent, and the constants listed are
    the first three lines of the per-resolution table, or fewer when the
    table is shorter: cutting to three before dropping the groups of fewer
    than three samples loses no line. *)
Theorem recommendation_follows_dominant_share (clips : list clip) :
  clips <> [] ->
  exists r,
    recommend (resolutions_of clips) (res_groups clips)
              (Z.of_nat (length clips)) = Ok r
    /\ match r with
       | Representative res pct =>
           (4 * Z.of_nat (length clips) < 5 * count_resolution res clips)%Z
           /\ pct = inject_Z (count_resolution res clips)
                    / inject_Z (Z.of_nat (length clips)) * 100
           /\ (forall res', res' <> res ->
                            (5 * count_resolution res' clips
                             < Z.of_nat (length clips))%Z)
       | Mixed rows =>
           (forall res,
               (5 * count_resolution res clips
                <= 4 * Z.of_nat (length clips))%Z)
           /\ exists table,
               res_table (res_groups clips) = Ok table
               /\ rows = map (fun r => (fst (fst r), snd (fst r)))
                             (firstn 3 table)
       end.
Proof.
  intro Hne.
  assert (HN : (0 < Z.of_nat (length clips))%Z)
    by (destruct clips; [contradiction | simpl; lia]).
  assert (HN0 : Z.of_nat (length clips) <> 0%Z) by lia.
  destruct (dominant_spec clips Hne) as [Hin Hmax].
  unfold recommend. cbv zeta.
  set (d := dominant_of (resolutions_of clips)) in *.
  destruct d as [res n] eqn:Ed. simpl fst. simpl snd in *.
  apply resolutions_of_In in Hin. destruct Hin as [Hk Hn].
  unfold div at 1.
  assert (Hz : Qeq_bool (inject_Z (Z.of_nat (length clips))) 0 = false).
  { apply Qeq_bool_false. rewrite inject_Z_zero_iff. exact HN0. }
  rewrite Hz. cbn [bind].
  pose proof (share_above_four_fifths n _ HN) as Hshare.
  destruct (Qltb (4 # 5) (inject_Z n / inject_Z (Z.of_nat (length clips)))).
  - rewrite (percentage_nonzero n _ HN0). cbn [bind].
    eexists. split; [reflexivity|]. cbv beta iota.
    assert (H45 : (4 * Z.of_nat (length clips) < 5 * n)%Z)
      by (apply Hshare; reflexivity).
    rewrite <- Hn. split; [exact H45|]. split; [reflexivity|].
    intros res' Hres'.
    pose proof (counts_of_two_resolutions clips res res'
                  (fun E => Hres' (eq_sym E))) as Hsum.
    lia.
  - assert (H45 : ~ (4 * Z.of_nat (length clips) < 5 * n)%Z).
    { intro H. apply Hshare in H. discriminate H. }
    destruct (for_each_group_row (res_emitted (res_groups clips)))
      as (table & Htable & _).
    { apply Forall_forall. intros g Hg. apply filter_In in Hg. lia. }
    rewrite (filter_firstn_sorted 3 _
               (sorted_key_reverse_sorted group_len (res_groups clips))).
    fold (res_emitted (res_groups clips)).
    rewrite (for_each_firstn _ 3 _ _
               (for_each_means _ _ Htable)).
    cbn [bind]. eexists. split; [reflexivity|]. cbv beta iota.
    split.
    + intro res0. specialize (Hmax res0). lia.
    + exists table. split; [exact Htable|].
      rewrite firstn_map. reflexivity.
Qed.

Lemma recommendation_follows_dominant_share_witness :
  records_of (dir_glob_mp4 dir_three) <> []
  /\ exists r,
      recommend (resolutions_of (records_of (dir_glob_mp4 dir_three)))
                (res_groups (records_of (dir_glob_mp4 dir_three)))
                (Z.of_nat (length (records_of (dir_glob_mp4 dir_three))))
      = Ok r.
Proof.
  assert (H : records_of (dir_glob_mp4 dir_three) <> [])
    by (simpl; discriminate).
  split; [exact H|].
  destruct (recommendation_follows_dominant_share _ H) as (r & Hr & _).
  exists r. exact Hr.
Defined.

(** ** Outlier listing *)

Section SortedByFacts.
Context {A : Type} (R : A -> A -> Prop) (before : A -> A -> bool).
Hypothesis before_R : forall x y, before x y = true -> R x y.
Hypothesis not_before_R : forall x y, before x y = false -> R y x.
Hypothesis R_trans : forall x y z, R x y -> R y z -> R x z.

Lemma insert_by_sorted (x : A) (l : list A) :
  StronglySorted R l -> StronglySorted R (insert_by before x l).
Proof.
  induction 1 as [|y l Hs IH Hy]; simpl.
  - constructor; constructor.
  - destruct (before x y) eqn:E.
    + constructor; [constructor; assumption|].
      constructor; [apply before_R; exact E|].
      rewrite Forall_forall in *. intros z Hz.
      apply (R_trans x y z); [apply before_R; exact E | apply Hy; exact Hz].
    + constructor; [exact IH|].
      rewrite Forall_forall in *. intros z Hz.
      apply (Permutation_in _ (insert_by_perm before x l)) in Hz.
      destruct Hz as [<-|Hz]; [apply not_before_R; exact E | auto].
Qed.

Lemma sorted_by_sorted (l : list A) : StronglySorted R (sorted_by before l).
Proof.
  induction l as [|x l IH]; simpl; [constructor|].
  apply insert_by_sorted. exact IH.
Qed.
End SortedByFacts.

Lemma sorted_keyQ_sorted {A : Type} (key : A -> Q) (l : list A) :
  StronglySorted (fun a b => key a <= key b) (sorted_keyQ key l).
Proof.
  unfold sorted_keyQ. apply sorted_by_sorted.
  - intros x y H. apply Qle_bool_iff. exact H.
  - intros x y H. apply Qle_bool_false in H. lra.
  - intros x y z H1 H2. lra.
Qed.

Lemma sorted_keyQ_reverse_sorted {A : Type} (key : A -> Q) (l : list A) :
  StronglySorted (fun a b => key b <= key a) (sorted_keyQ_reverse key l).
Proof.
  unfold sorted_keyQ_reverse. apply sorted_by_sorted.
  - intros x y H. apply Qle_bool_iff. exact H.
  - intros x y H. apply Qle_bool_false in H. lra.
  - intros x y z H1 H2. lra.
Qed.

(** The listing loop prints its input unchanged, or raises [TypeError] at
    the first clip without a frame rate. *)
Lemma outlier_lines (l : list clip) :
  (Forall (fun c => fps c <> None) l /\ for_each outlier_line l = Ok l)
  \/ ((exists c, In c l /\ fps c = None)
      /\ for_each outlier_line l = Raise TypeError).
Proof.
  induction l as [|c l IH]; simpl.
  - left. split; [constructor | reflexivity].
  - unfold outlier_line at 1 3. destruct (fps c) as [f|] eqn:E; simpl.
    + destruct IH as [[Hall ->]|[(c' & Hin & Hc') ->]]; simpl.
      * left. split; [|reflexivity].
        constructor; [congruence | exact Hall].
      * right. split; [|reflexivity]. exists c'. tauto.
    + right. split; [|reflexivity]. exists c. tauto.
Qed.

Lemma bind_Raise {A B : Type} (m : result A) (k : A -> result B) (e : exn) :
  bind m k = Raise e ->
  m = Raise e \/ exists a, m = Ok a /\ k a = Raise e.
Proof.
  destruct m as [a|e']; simpl; intro H.
  - right. exists a. split; [reflexivity | exact H].
  - left. inversion H. reflexivity.
Qed.

(** The outlier section once the fence is known. *)
Lemma outlier_section_unfold (v : statistics_version) (clips : list clip)
      (b : fence) :
  outlier_fence v (map bytes_per_second clips) = Ok b ->
  let out := outliers_of clips (lower_bound b) (upper_bound b) in
  let high := high_outliers_of out (upper_bound b) in
  let low := low_outliers_of out (lower_bound b) in
  let high' := if nonempty high
               then sorted_keyQ_reverse bytes_per_second high else high in
  let low' := if nonempty low
              then sorted_keyQ bytes_per_second low else low in
  outlier_section v clips
  = if nonempty out then
      high_listed <-
        (if nonempty high' then for_each outlier_line (firstn 10 high')
         else Ok []) ;;
      low_listed <-
        (if nonempty low' then for_each outlier_line (firstn 10 low')
         else Ok []) ;;
      high_vs_normal <-
        (if nonempty high'
         then fmap Some (compare_high_vs_normal clips high'
                           (lower_bound b) (upper_bound b))
         else Ok None) ;;
      Ok {| bounds := b; outliers := out;
            high_outliers := high'; low_outliers := low';
            high_listed := high_listed; low_listed := low_listed;
            high_vs_normal := high_vs_normal |}
    else
      Ok {| bounds := b; outliers := out;
            high_outliers := []; low_outliers := [];
            high_listed := []; low_listed := [];
            high_vs_normal := None |}.
Proof.
  intro Hb. unfold outlier_section. rewrite Hb. reflexivity.
Qed.

Lemma sorted_if_nonempty {A : Type} (before : A -> A -> bool) (l : list A) :
  (if nonempty l then sorted_by before l else l) = sorted_by before l.
Proof. destruct l; reflexivity. Qed.

Lemma listing_if_nonempty (l : list clip) :
  (if nonempty l then for_each outlier_line (firstn 10 l) else Ok [])
  = for_each outlier_line (firstn 10 l).
Proof. destruct l; reflexivity. Qed.

(** X7. In every outlier section that completes, each of the two lists of
    outliers is in order (high outliers by descending, low outliers by
    ascending bytes per second), the lines printed are the first ten
    entries of each list, or all of them when there are fewer, and every
    printed clip has a frame rate. *)
Theorem outlier_listing_is_sorted_prefix
        (v : statistics_version) (clips : list clip) (r : outlier_report) :
  outlier_section v clips = Ok r ->
  StronglySorted (fun a b => bytes_per_second b <= bytes_per_second a)
                 (high_outliers r)
  /\ StronglySorted (fun a b => bytes_per_second a <= bytes_per_second b)
                    (low_outliers r)
  /\ high_listed r = firstn 10 (high_outliers r)
  /\ low_listed r = firstn 10 (low_outliers r)
  /\ length (high_listed r) = Nat.min 10 (length (high_outliers r))
  /\ length (low_listed r) = Nat.min 10 (length (low_outliers r))
  /\ Forall (fun c => fps c <> None) (high_listed r ++ low_listed r).
Proof.
  intro H.
  destruct (outlier_section_lists v clips r H) as (Hb & _).
  rewrite (outlier_section_unfold v clips _ Hb) in H. cbv zeta in H.
  rewrite !listing_if_nonempty in H.
  unfold sorted_keyQ_reverse, sorted_keyQ in H.
  rewrite !sorted_if_nonempty in H.
  fold (sorted_keyQ_reverse bytes_per_second
          (high_outliers_of
             (outliers_of clips (lower_bound (bounds r)) (upper_bound (bounds r)))
             (upper_bound (bounds r)))) in H.
  fold (sorted_keyQ bytes_per_second
          (low_outliers_of
             (outliers_of clips (lower_bound (bounds r)) (upper_bound (bounds r)))
             (lower_bound (bounds r)))) in H.
  set (high' := sorted_keyQ_reverse bytes_per_second _) in H.
  set (low' := sorted_keyQ bytes_per_second _) in H.
  assert (Hsh : StronglySorted
                  (fun a b => bytes_per_second b <= bytes_per_second a) high')
    by apply sorted_keyQ_reverse_sorted.
  assert (Hsl : StronglySorted
                  (fun a b => bytes_per_second a <= bytes_per_second b) low')
    by apply sorted_keyQ_sorted.
  destruct (nonempty (outliers_of clips (lower_bound (bounds r))
                                  (upper_bound (bounds r)))).
  - apply bind_Ok in H. destruct H as (hl & Hhl & H).
    apply bind_Ok in H. destruct H as (ll & Hll & H).
    apply bind_Ok in H. destruct H as (hvn & _ & H).
    assert (Eh : hl = firstn 10 high'
                 /\ Forall (fun c => fps c <> None) (firstn 10 high')).
    { destruct (outlier_lines (firstn 10 high')) as [[Hall E]|[_ E]];
        [|congruence].
      split; [congruence | exact Hall]. }
    assert (El : ll = firstn 10 low'
                 /\ Forall (fun c => fps c <> None) (firstn 10 low')).
    { destruct (outlier_lines (firstn 10 low')) as [[Hall E]|[_ E]];
        [|congruence].
      split; [congruence | exact Hall]. }
    destruct Eh as [Eh Hfh]. destruct El as [El Hfl].
    injection H as Hr.
    pose proof (f_equal high_outliers Hr) as E1.
    pose proof (f_equal low_outliers Hr) as E2.
    pose proof (f_equal high_listed Hr) as E3.
    pose proof (f_equal low_listed Hr) as E4.
    cbn [high_outliers low_outliers high_listed low_listed] in E1, E2, E3, E4.
    rewrite <- E3, <- E4, <- E1, <- E2, Eh, El.
    repeat match goal with |- _ /\ _ => split end;
      try assumption; try reflexivity; try apply length_firstn.
    apply Forall_app. split; assumption.
  - injection H as Hr.
    pose proof (f_equal high_outliers Hr) as E1.
    pose proof (f_equal low_outliers Hr) as E2.
    pose proof (f_equal high_listed Hr) as E3.
    pose proof (f_equal low_listed Hr) as E4.
    cbn [high_outliers low_outliers high_listed low_listed] in E1, E2, E3, E4.
    rewrite <- E3, <- E4, <- E1, <- E2.
    repeat match goal with |- _ /\ _ => split end;
      try reflexivity; constructor.
Qed.

Lemma outlier_listing_is_sorted_prefix_witness :
  exists r,
    outlier_section UpTo312 (records_of (dir_glob_mp4 dir_high_outlier)) = Ok r
    /\ high_listed r = firstn 10 (high_outliers r)
    /\ length (high_listed r) = 1%nat.
Proof.
  destruct (outlier_section UpTo312 (records_of (dir_glob_mp4 dir_high_outlier)))
    as [r|e] eqn:E; [|vm_compute in E; discriminate].
  exists r. split; [reflexivity|].
  destruct (outlier_listing_is_sorted_prefix _ _ _ E)
    as (_ & _ & Hh & _ & Hlen & _).
  split; [exact Hh|]. rewrite Hlen.
  vm_compute in E. inversion E. reflexivity.
Defined.

(** ** Which exceptions the comparison can raise *)

Lemma mean_raises (l : list Q) (e : exn) :
  mean l = Raise e -> e = StatisticsError /\ l = [].
Proof.
  unfold mean. destruct l; simpl; intro H; [|discriminate H].
  inversion H. split; reflexivity.
Qed.

Lemma div_raises (a b : Q) (e : exn) :
  div a b = Raise e -> e = ZeroDivisionError /\ b == 0.
Proof.
  unfold div. destruct (Qeq_bool b 0) eqn:E; intro H; [|discriminate H].
  inversion H. split; [reflexivity | apply Qeq_bool_iff; exact E].
Qed.

Lemma percent_diff_raises (a b : Q) (e : exn) :
  percent_diff a b = Raise e -> e = ZeroDivisionError /\ b == 0.
Proof.
  unfold percent_diff. intro H. apply bind_Raise in H.
  destruct H as [H|(q & _ & H)]; [apply div_raises in H; exact H|].
  discriminate H.
Qed.

Lemma guarded_mean_raises (guard : bool) (l : list Q) (e : exn) :
  (if guard then mean l else Ok 0) = Raise e -> e = StatisticsError.
Proof.
  destruct guard; intro H; [|discriminate H].
  apply mean_raises in H. tauto.
Qed.

Lemma difference_line_raises (guard : bool) (a b : Q) (e : exn) :
  difference_line guard a b = Raise e -> e = ZeroDivisionError.
Proof.
  unfold difference_line. destruct guard; intro H; [|discriminate H].
  apply bind_Raise in H. destruct H as [H|(p & _ & H)];
    [apply percent_diff_raises in H; tauto | discriminate H].
Qed.

Lemma audio_pct_raises (clips : list clip) (e : exn) :
  audio_pct clips = Raise e -> e = ZeroDivisionError.
Proof.
  unfold audio_pct. intro H. apply bind_Raise in H.
  destruct H as [H|(p & _ & H)];
    [apply div_raises in H; tauto | discriminate H].
Qed.

Lemma guarded_audio_pct_raises (guard : bool) (clips : list clip) (e : exn) :
  (if guard then audio_pct clips else Ok 0) = Raise e ->
  e = ZeroDivisionError.
Proof.
  destruct guard; intro H; [|discriminate H].
  apply audio_pct_raises in H. exact H.
Qed.

Lemma key_findings_raises (guard : bool) (hf nf hb nb hp np ha na : Q)
      (e : exn) :
  key_findings guard hf nf hb nb hp np ha na = Raise e ->
  e = ZeroDivisionError.
Proof.
  unfold key_findings. destruct guard; intro H; [|discriminate H].
  cbv zeta in H.
  apply bind_Raise in H. destruct H as [H|(p1 & _ & H)];
    [apply percent_diff_raises in H; tauto|].
  apply bind_Raise in H. destruct H as [H|(p2 & _ & H)];
    [apply percent_diff_raises in H; tauto|].
  apply bind_Raise in H. destruct H as [H|(p3 & _ & H)];
    [apply percent_diff_raises in H; tauto|].
  discriminate H.
Qed.

Ltac raise_step H :=
  let a := fresh "a" in
  apply bind_Raise in H;
  destruct H as [H|(a & _ & H)];
  [ first [ apply mean_raises in H; tauto
          | apply guarded_mean_raises in H; tauto
          | apply difference_line_raises in H; tauto
          | apply audio_pct_raises in H; tauto
          | apply guarded_audio_pct_raises in H; tauto
          | apply key_findings_raises in H; tauto ]
  | ].

(** The comparison raises nothing but [StatisticsError] (an empty sample
    of frame rates) and [ZeroDivisionError] (a zero normal mean). *)
Lemma compare_raises (clips high : list clip) (lo hi : Q) (e : exn) :
  compare_high_vs_normal clips high lo hi = Raise e ->
  e = StatisticsError \/ e = ZeroDivisionError.
Proof.
  intro H. unfold compare_high_vs_normal in H. cbv zeta in H.
  do 15 raise_step H.
  discriminate H.
Qed.

(** X8. Once the fence exists, [TypeError] leaves the outlier section
    exactly when one of the clips to be listed, that is one of the first
    ten high outliers or one of the first ten low outliers in listing
    order, has no frame rate. *)
Theorem listing_raises_type_error_iff_fps_missing
        (v : statistics_version) (clips : list clip) (b : fence) :
  outlier_fence v (map bytes_per_second clips) = Ok b ->
  (outlier_section v clips = Raise TypeError
   <-> exists c,
      In c (firstn 10 (sorted_keyQ_reverse bytes_per_second
                         (high_outliers_of
                            (outliers_of clips (lower_bound b) (upper_bound b))
                            (upper_bound b)))
            ++ firstn 10 (sorted_keyQ bytes_per_second
                            (low_outliers_of
                               (outliers_of clips (lower_bound b) (upper_bound b))
                               (lower_bound b))))
      /\ fps c = None).
Proof.
  intro Hb.
  rewrite (outlier_section_unfold v clips b Hb). cbv zeta.
  rewrite !listing_if_nonempty.
  unfold sorted_keyQ_reverse, sorted_keyQ.
  rewrite !sorted_if_nonempty.
  set (out := outliers_of clips (lower_bound b) (upper_bound b)).
  set (high' := sorted_by _ (high_outliers_of out (upper_bound b))).
  set (low' := sorted_by _ (low_outliers_of out (lower_bound b))).
  destruct (nonempty out) eqn:Hout.
  - destruct (outlier_lines (firstn 10 high')) as [[Hh ->]|[(c & Hc & Hn) ->]];
      cbn [bind].
    2:{ split; [|reflexivity]. intros _. exists c. split; [|exact Hn].
        apply in_or_app. left. exact Hc. }
    destruct (outlier_lines (firstn 10 low')) as [[Hl ->]|[(c & Hc & Hn) ->]];
      cbn [bind].
    2:{ split; [|reflexivity]. intros _. exists c. split; [|exact Hn].
        apply in_or_app. right. exact Hc. }
    split.
    + intro H. exfalso. apply bind_Raise in H.
      destruct H as [H|(a & _ & H)]; [|discriminate H].
      destruct (nonempty high'); [|discriminate H].
      unfold fmap in H. apply bind_Raise in H.
      destruct H as [H|(a & _ & H)]; [|discriminate H].
      apply compare_raises in H. destruct H; discriminate.
    + intros (c & Hc & Hn). exfalso.
      apply in_app_or in Hc. rewrite Forall_forall in Hh, Hl.
      destruct Hc as [Hc|Hc]; [apply (Hh c Hc) | apply (Hl c Hc)]; exact Hn.
  - apply nonempty_false in Hout.
    split; [intro H; discriminate H|].
    intros (c & Hc & _). exfalso.
    subst high' low'. rewrite Hout in Hc. simpl in Hc. exact Hc.
Qed.

Lemma listing_raises_type_error_iff_fps_missing_witness :
  exists b,
    outlier_fence UpTo312
      (map bytes_per_second (records_of (dir_glob_mp4 dir_outlier_without_fps)))
    = Ok b
    /\ outlier_section UpTo312 (records_of (dir_glob_mp4 dir_outlier_without_fps))
       = Raise TypeError
    /\ analyze_clips_advanced UpTo312 dir_outlier_without_fps = Raise TypeError.
Proof.
  destruct (outlier_fence UpTo312
              (map bytes_per_second
                   (records_of (dir_glob_mp4 dir_outlier_without_fps))))
    as [b|e] eqn:E; [|vm_compute in E; discriminate].
  exists b. split; [reflexivity|].
  split; [|vm_compute; reflexivity].
  apply (listing_raises_type_error_iff_fps_missing _ _ b E).
  vm_compute in E. inversion E; subst b; clear E.
  exists (build_record "odd.mp4" 5000
            {| md_duration := 5; md_fps := None;
               md_size := Some (1920%Z, 1080%Z); md_has_audio := true |}).
  split; [|reflexivity]. vm_compute. left. reflexivity.
Defined.

(** ** The report in terms of the outlier section *)

Lemma tables_complete (clips : list clip) :
  exists res_rows fps_rows,
    res_table (res_groups clips) = Ok res_rows
    /\ fps_table (fps_groups clips) = Ok fps_rows.
Proof.
  destruct (for_each_group_row (res_emitted (res_groups clips)))
    as (res_rows & Hres & _).
  { apply Forall_forall. intros g Hg. apply filter_In in Hg. lia. }
  destruct (for_each_group_row (fps_emitted (fps_groups clips)))
    as (fps_rows & Hfps & _).
  { apply Forall_forall. intros g Hg. apply filter_In in Hg.
    destruct Hg as [_ Hg]. apply andb_true_iff in Hg. lia. }
  exists res_rows, fps_rows. split; assumption.
Qed.

(** The two group tables never raise, so the report of the entry point
    ends as its outlier section does. *)
Lemma analyze_by_outlier_section (v : statistics_version) (d : directory) :
  ~ gives_up d ->
  analyze_clips_advanced v d
  = (do outlier_section v (records_of (dir_glob_mp4 d)) ;;
     Ok (Some (records_of (dir_glob_mp4 d)))).
Proof.
  intro Hg. unfold gives_up in Hg. unfold analyze_clips_advanced.
  destruct (dir_exists d); [|tauto]. cbn [negb].
  destruct (dir_glob_mp4 d) as [|f files] eqn:Hglob; [tauto|].
  cbn [negb nonempty].
  pose proof (file_count_zero_iff (f :: files)) as Hcount.
  destruct (scan_records (f :: files)) as (Hclips & _ & _).
  destruct (file_count (scan (f :: files)) =? 0)%Z.
  { exfalso. apply Hg. right. right. apply Hcount. reflexivity. }
  unfold print_report. rewrite Hclips. cbv zeta.
  destruct (tables_complete (records_of (f :: files)))
    as (res_rows & fps_rows & -> & ->).
  cbn [bind].
  destruct (outlier_section v (records_of (f :: files))); reflexivity.
Qed.

(** X9. A directory with exactly one readable file (and any number of
    unreadable ones): with the statistics module up to Python 3.12 the
    call raises [StatisticsError], because the quartiles need two values;
    from Python 3.13 on it returns the one record, the fence collapses to
    the clip's own value and there is no outlier. *)
Theorem one_readable_file_depends_on_library (d : directory) (c : clip) :
  dir_exists d = true ->
  records_of (dir_glob_mp4 d) = [c] ->
  analyze_clips_advanced UpTo312 d = Raise StatisticsError
  /\ analyze_clips_advanced From313 d = Ok (Some [c])
  /\ exists r,
      outlier_section From313 [c] = Ok r
      /\ outliers r = []
      /\ lower_bound (bounds r) == bytes_per_second c
      /\ upper_bound (bounds r) == bytes_per_second c.
Proof.
  intros He Hr.
  assert (Hg : ~ gives_up d).
  { unfold gives_up. rewrite He, Hr. intros [H|[H|H]]; try discriminate.
    rewrite H in Hr. discriminate Hr. }
  rewrite !(analyze_by_outlier_section _ d Hg), Hr.
  assert (Hfence :
            outlier_fence From313 (map bytes_per_second [c])
            = Ok {| q1 := bytes_per_second c; q3 := bytes_per_second c;
                    iqr := bytes_per_second c - bytes_per_second c;
                    lower_bound :=
                      bytes_per_second c
                      - (3 # 2) * (bytes_per_second c - bytes_per_second c);
                    upper_bound :=
                      bytes_per_second c
                      + (3 # 2) * (bytes_per_second c - bytes_per_second c) |})
    by reflexivity.
  assert (Hsec :
            exists r, outlier_section From313 [c] = Ok r
                      /\ outliers r = []
                      /\ lower_bound (bounds r) == bytes_per_second c
                      /\ upper_bound (bounds r) == bytes_per_second c).
  { rewrite (outlier_section_unfold From313 [c] _ Hfence). cbv zeta.
    cbn [lower_bound upper_bound].
    assert (Hout : outliers_of [c]
                     (bytes_per_second c
                      - (3 # 2) * (bytes_per_second c - bytes_per_second c))
                     (bytes_per_second c
                      + (3 # 2) * (bytes_per_second c - bytes_per_second c))
                   = []).
    { apply filter_none. intros x [<-|[]].
      apply orb_false_iff. unfold is_low, is_high. rewrite !Qltb_ge.
      split; lra. }
    rewrite Hout. cbn [nonempty].
    eexists. split; [reflexivity|]. cbn.
    split; [reflexivity|]. split; ring. }
  split; [reflexivity|].
  destruct Hsec as (r & Hsec & Hrest).
  split; [rewrite Hsec; reflexivity|].
  exists r. split; [exact Hsec | exact Hrest].
Qed.

Lemma one_readable_file_depends_on_library_witness :
  analyze_clips_advanced UpTo312
    {| dir_exists := true; dir_glob_mp4 := [readable "only.mp4" 1000 10] |}
  = Raise StatisticsError.
Proof.
  apply (one_readable_file_depends_on_library
           {| dir_exists := true;
              dir_glob_mp4 := [readable "only.mp4" 1000 10] |}
           (build_record "only.mp4" 1000 (hd_metadata 10)));
    reflexivity.
Defined.

(** ** The three lists of the outlier step *)

Lemma sorted_sample_In (data : list Q) (x : Q) :
  In x (sorted_keyQ (fun y => y) data) <-> In x data.
Proof. apply sorted_by_In. Qed.

(** Each clip falls in exactly one of the three lists. *)
Lemma three_way_split (clips : list clip) (lo hi : Q) :
  lo <= hi ->
  Permutation
    (low_outliers_of (outliers_of clips lo hi) lo
     ++ normal_clips_of clips lo hi
     ++ high_outliers_of (outliers_of clips lo hi) hi)
    clips
  /\ Permutation
       (low_outliers_of (outliers_of clips lo hi) lo
        ++ high_outliers_of (outliers_of clips lo hi) hi)
       (outliers_of clips lo hi).
Proof.
  intro Hord.
  unfold low_outliers_of, high_outliers_of, normal_clips_of, outliers_of.
  induction clips as [|c clips [IH1 IH2]]; [split; reflexivity|].
  cbn [filter].
  destruct (is_low lo c) eqn:El; destruct (is_high hi c) eqn:Eh;
    cbn [orb filter]; rewrite ?El, ?Eh;
    unfold is_low in El; unfold is_high in Eh;
    try (apply Qltb_lt in El); try (apply Qltb_lt in Eh);
    try (apply Qltb_ge in El); try (apply Qltb_ge in Eh).
  - exfalso. lra.
  - assert (Hn : Qle_bool lo (bytes_per_second c)
                 && Qle_bool (bytes_per_second c) hi = false).
    { apply andb_false_iff. left. apply Qle_bool_false. exact El. }
    rewrite Hn. split; simpl; apply perm_skip; assumption.
  - assert (Hn : Qle_bool lo (bytes_per_second c)
                 && Qle_bool (bytes_per_second c) hi = false).
    { apply andb_false_iff. right. apply Qle_bool_false. exact Eh. }
    rewrite Hn. split.
    + rewrite app_assoc. apply Permutation_sym. apply Permutation_cons_app.
      rewrite <- app_assoc. apply Permutation_sym. exact IH1.
    + apply Permutation_sym. apply Permutation_cons_app.
      apply Permutation_sym. exact IH2.
  - assert (Hn : Qle_bool lo (bytes_per_second c)
                 && Qle_bool (bytes_per_second c) hi = true).
    { apply andb_true_iff. split; apply Qle_bool_iff; assumption. }
    rewrite Hn. split; [|exact IH2].
    apply Permutation_sym. apply Permutation_cons_app.
    apply Permutation_sym. exact IH1.
Qed.

(** X11. Whenever the fence exists the three lists the outlier step builds
    divide the clips without loss or overlap: low outliers, normal clips
    and high outliers together are a rearrangement of the clips, the
    outliers are the low and the high ones together, and the counts add
    up. *)
Theorem outlier_lists_divide_the_clips
        (v : statistics_version) (clips : list clip) (b : fence) :
  outlier_fence v (map bytes_per_second clips) = Ok b ->
  Permutation
    (low_outliers_of (outliers_of clips (lower_bound b) (upper_bound b))
                     (lower_bound b)
     ++ normal_clips_of clips (lower_bound b) (upper_bound b)
     ++ high_outliers_of (outliers_of clips (lower_bound b) (upper_bound b))
                         (upper_bound b))
    clips
  /\ Permutation
       (low_outliers_of (outliers_of clips (lower_bound b) (upper_bound b))
                        (lower_bound b)
        ++ high_outliers_of (outliers_of clips (lower_bound b) (upper_bound b))
                            (upper_bound b))
       (outliers_of clips (lower_bound b) (upper_bound b))
  /\ (length (outliers_of clips (lower_bound b) (upper_bound b))
      + length (normal_clips_of clips (lower_bound b) (upper_bound b)))%nat
     = length clips
  /\ (forall r,
         outlier_section v clips = Ok r ->
         (length (low_outliers r) + length (high_outliers r))%nat
         = length (outliers r)).
Proof.
  intro Hb.
  destruct (fence_ordered v _ b Hb) as [_ Hord].
  destruct (three_way_split clips _ _ Hord) as [H3 H2].
  split; [exact H3|]. split; [exact H2|]. split.
  - apply Permutation_length in H3. apply Permutation_length in H2.
    rewrite !length_app in H3. rewrite length_app in H2. lia.
  - intros r Hr.
    destruct (outlier_section_lists v clips r Hr) as (Hf & Ho & Hh & Hl & _).
    assert (Hbr : bounds r = b) by congruence.
    rewrite Hbr in *. rewrite Ho in *.
    apply Permutation_length in Hh. apply Permutation_length in Hl.
    apply Permutation_length in H2. rewrite length_app in H2. lia.
Qed.

Lemma outlier_lists_divide_the_clips_witness :
  exists b,
    outlier_fence UpTo312
      (map bytes_per_second (records_of (dir_glob_mp4 dir_low_outlier)))
    = Ok b
    /\ (length (outliers_of (records_of (dir_glob_mp4 dir_low_outlier))
                            (lower_bound b) (upper_bound b))
        + length (normal_clips_of (records_of (dir_glob_mp4 dir_low_outlier))
                                  (lower_bound b) (upper_bound b)))%nat
       = 8%nat.
Proof.
  destruct (outlier_fence UpTo312
              (map bytes_per_second
                   (records_of (dir_glob_mp4 dir_low_outlier))))
    as [b|e] eqn:E; [|vm_compute in E; discriminate].
  exists b. split; [reflexivity|].
  exact (proj1 (proj2 (proj2 (outlier_lists_divide_the_clips _ _ b E)))).
Defined.

(** ** Statistics blocks *)

Lemma fold_min_spec (l : list Q) (best : Q) :
  let m := fold_left (fun b y => if Qltb y b then y else b) l best in
  In m (best :: l) /\ m <= best /\ Forall (fun y => m <= y) l.
Proof.
  revert best. induction l as [|y l IH]; intro best; simpl.
  - split; [left; reflexivity|]. split; [apply Qle_refl | constructor].
  - destruct (IH (if Qltb y best then y else best)) as (Hin & Hle & Hall).
    destruct (Qltb y best) eqn:E.
    + apply Qltb_lt in E. split; [right; exact Hin|].
      split; [lra|]. constructor; [exact Hle | exact Hall].
    + apply Qltb_ge in E.
      split; [destruct Hin as [Hin|Hin]; [left | right; right]; exact Hin|].
      split; [exact Hle|]. constructor; [lra | exact Hall].
Qed.

Lemma fold_max_spec (l : list Q) (best : Q) :
  let m := fold_left (fun b y => if Qltb b y then y else b) l best in
  In m (best :: l) /\ best <= m /\ Forall (fun y => y <= m) l.
Proof.
  revert best. induction l as [|y l IH]; intro best; simpl.
  - split; [left; reflexivity|]. split; [apply Qle_refl | constructor].
  - destruct (IH (if Qltb best y then y else best)) as (Hin & Hle & Hall).
    destruct (Qltb best y) eqn:E.
    + apply Qltb_lt in E. split; [right; exact Hin|].
      split; [lra|]. constructor; [exact Hle | exact Hall].
    + apply Qltb_ge in E.
      split; [destruct Hin as [Hin|Hin]; [left | right; right]; exact Hin|].
      split; [exact Hle|]. constructor; [lra | exact Hall].
Qed.

Lemma py_min_spec (l : list Q) :
  l <> [] -> In (py_min l) l /\ Forall (fun y => py_min l <= y) l.
Proof.
  destruct l as [|x l]; [contradiction|]. intros _. unfold py_min.
  destruct (fold_min_spec l x) as (Hin & Hle & Hall).
  split; [exact Hin|]. constructor; [exact Hle | exact Hall].
Qed.

Lemma py_max_spec (l : list Q) :
  l <> [] -> In (py_max l) l /\ Forall (fun y => y <= py_max l) l.
Proof.
  destruct l as [|x l]; [contradiction|]. intros _. unfold py_max.
  destruct (fold_max_spec l x) as (Hin & Hle & Hall).
  split; [exact Hin|]. constructor; [exact Hle | exact Hall].
Qed.

Lemma fold_sum_bounds (lo hi : Q) (l : list Q) (acc : Q) :
  Forall (fun y => lo <= y /\ y <= hi) l ->
  acc + inject_Z (Z.of_nat (length l)) * lo <= fold_left Qplus l acc
  /\ fold_left Qplus l acc <= acc + inject_Z (Z.of_nat (length l)) * hi.
Proof.
  intro H. revert acc. induction H as [|y l [Hy1 Hy2] _ IH]; intro acc.
  - simpl. change (inject_Z 0) with 0. split; lra.
  - cbn [fold_left length]. destruct (IH (acc + y)) as [H1 H2].
    rewrite Nat2Z.inj_succ. unfold Z.succ. rewrite inject_Z_plus.
    change (inject_Z 1) with 1.
    clear IH.
    generalize dependent (inject_Z (Z.of_nat (length l))). intros n H1 H2.
    split.
    + apply Qle_trans with (acc + y + n * lo); [|exact H1].
      setoid_replace ((n + 1) * lo) with (n * lo + lo) by ring. lra.
    + apply Qle_trans with (acc + y + n * hi); [exact H2|].
      setoid_replace ((n + 1) * hi) with (n * hi + hi) by ring. lra.
Qed.

Lemma mean_between (lo hi : Q) (l : list Q) :
  l <> [] -> Forall (fun y => lo <= y /\ y <= hi) l ->
  exists m, mean l = Ok m /\ lo <= m /\ m <= hi.
Proof.
  intros Hne Hall. rewrite (mean_nonempty l Hne).
  eexists. split; [reflexivity|].
  destruct (fold_sum_bounds lo hi l 0 Hall) as [H1 H2].
  fold (sum l) in H1, H2.
  assert (Hn : 0 < inject_Z (Z.of_nat (length l))).
  { change 0 with (inject_Z 0). rewrite <- Zlt_Qlt.
    destruct l; [contradiction | simpl; lia]. }
  split.
  - apply Qle_shift_div_l; [exact Hn|].
    rewrite Qmult_comm. lra.
  - apply Qle_shift_div_r; [exact Hn|].
    rewrite Qmult_comm. lra.
Qed.

Lemma median_between (lo hi : Q) (l : list Q) :
  l <> [] -> Forall (fun y => lo <= y /\ y <= hi) l ->
  exists m, median l = Ok m /\ lo <= m /\ m <= hi.
Proof.
  intros Hne Hall. unfold median.
  set (s := sorted_keyQ (fun x => x) l).
  assert (Hlen : length s = length l) by apply sorted_by_length.
  assert (Hs : forall i, (i < length s)%nat -> lo <= nth i s 0 /\ nth i s 0 <= hi).
  { intros i Hi. rewrite Forall_forall in Hall. apply Hall.
    apply (proj1 (sorted_sample_In l _)). apply nth_In. exact Hi. }
  assert (Hpos : (0 < length s)%nat).
  { rewrite Hlen. destruct l; [contradiction | simpl; lia]. }
  destruct (Nat.eqb_spec (length s) 0) as [H0|H0]; [lia|].
  destruct (Nat.eqb_spec (length s mod 2) 1) as [Hodd|Heven].
  - eexists. split; [reflexivity|].
    apply Hs. apply Nat.div_lt; lia.
  - eexists. split; [reflexivity|].
    assert (Hmod : (length s mod 2 = 0)%nat).
    { pose proof (Nat.mod_upper_bound (length s) 2). lia. }
    assert (Hdiv : (length s = 2 * (length s / 2))%nat).
    { pose proof (Nat.div_mod_eq (length s) 2). lia. }
    destruct (Hs (length s / 2 - 1)%nat) as [Ha1 Ha2]; [lia|].
    destruct (Hs (length s / 2)%nat) as [Hb1 Hb2]; [lia|].
    unfold Qdiv. change (/ 2) with (1 # 2). split; lra.
Qed.

(** X13. A statistics block over a non-empty sample always completes; its
    minimum and maximum are values of the sample that bound every value,
    and the mean and the median lie between them; the standard deviation
    is printed exactly when there are at least two values.  Over an empty sample the block
    raises [StatisticsError]. *)
Theorem stat_block_is_ordered (values : list Q) :
  stat_block_of [] = Raise StatisticsError
  /\ (values <> [] ->
      exists sb,
        stat_block_of values = Ok sb
        /\ In (sb_min sb) values /\ In (sb_max sb) values
        /\ (forall x, In x values -> sb_min sb <= x /\ x <= sb_max sb)
        /\ sb_min sb <= sb_mean sb /\ sb_mean sb <= sb_max sb
        /\ sb_min sb <= sb_median sb /\ sb_median sb <= sb_max sb
        /\ (sb_stdev_shown sb = true <-> (2 <= length values)%nat)).
Proof.
  split; [reflexivity|]. intro Hne.
  destruct (py_min_spec values Hne) as [Hmin_in Hmin].
  destruct (py_max_spec values Hne) as [Hmax_in Hmax].
  assert (Hall : Forall (fun y => py_min values <= y /\ y <= py_max values)
                        values).
  { rewrite Forall_forall in *. intros y Hy. split; auto. }
  destruct (mean_between _ _ values Hne Hall) as (m & Hm & Hm1 & Hm2).
  destruct (median_between _ _ values Hne Hall) as (d & Hd & Hd1 & Hd2).
  unfold stat_block_of. rewrite Hm, Hd. cbn [bind].
  eexists. split; [reflexivity|].
  cbn [sb_total sb_mean sb_median sb_stdev_shown sb_min sb_max].
  repeat match goal with |- _ /\ _ => split end; try assumption.
  - intros x Hx. rewrite Forall_forall in Hall. apply Hall. exact Hx.
  - rewrite Nat.ltb_lt. reflexivity.
Qed.

Lemma stat_block_is_ordered_witness :
  exists sb,
    stat_block_of (map bytes_per_second
                       (records_of (dir_glob_mp4 dir_three))) = Ok sb
    /\ sb_min sb <= sb_median sb /\ sb_median sb <= sb_max sb.
Proof.
  assert (H : map bytes_per_second (records_of (dir_glob_mp4 dir_three)) <> [])
    by (simpl; discriminate).
  destruct (proj2 (stat_block_is_ordered _) H)
    as (sb & Hsb & _ & _ & _ & _ & _ & H1 & H2 & _).
  exists sb. split; [exact Hsb|]. split; [exact H1 | exact H2].
Defined.

(** ** Frame-rate block *)

Lemma sorted_distinct_is_strict (l : list Z) :
  StronglySorted Z.le l -> NoDup l -> StronglySorted Z.lt l.
Proof.
  induction 1 as [|x l Hs IH Hx]; intro Hnd; [constructor|].
  inversion Hnd as [|? ? Hnotin Hnd']; subst.
  constructor; [apply IH; exact Hnd'|].
  rewrite Forall_forall in *. intros y Hy.
  specialize (Hx y Hy).
  assert (x <> y) by (intro E; subst; contradiction).
  lia.
Qed.

Lemma sorted_set_spec (l : list Z) :
  StronglySorted Z.lt (sorted_set l)
  /\ forall z, In z (sorted_set l) <-> In z l.
Proof.
  unfold sorted_set. split.
  - apply sorted_distinct_is_strict.
    + apply sorted_by_sorted.
      * intros x y H. apply Z.leb_le. exact H.
      * intros x y H. apply Z.leb_gt in H. lia.
      * intros x y z H1 H2. lia.
    + apply (Permutation_NoDup (Permutation_sym (sorted_by_perm _ _))).
      apply NoDup_nodup.
  - intro z. rewrite sorted_by_In. apply nodup_In.
Qed.

Lemma truthy_true (o : option Q) :
  truthy o = true <-> exists f, o = Some f /\ ~ f == 0.
Proof.
  destruct o as [f|]; simpl.
  - rewrite negb_true_iff, Qeq_bool_false. split.
    + intro H. exists f. split; [reflexivity | exact H].
    + intros (f' & Hf & Hn). inversion Hf; subst. exact Hn.
  - split; [discriminate|]. intros (f & Hf & _). discriminate Hf.
Qed.

Lemma fps_values_In (clips : list clip) (x : Q) :
  In x (fps_values clips)
  <-> exists c, In c clips /\ fps c = Some x /\ ~ x == 0.
Proof.
  unfold fps_values. rewrite in_map_iff. split.
  - intros (c & Hx & Hc). apply filter_In in Hc. destruct Hc as [Hc Ht].
    apply truthy_true in Ht. destruct Ht as (f & Hf & Hn).
    rewrite Hf in Hx. simpl in Hx. subst x.
    exists c. split; [exact Hc|]. split; [exact Hf | exact Hn].
  - intros (c & Hc & Hf & Hn). exists c. split; [rewrite Hf; reflexivity|].
    apply filter_In. split; [exact Hc|].
    apply truthy_true. exists x. split; [exact Hf | exact Hn].
Qed.

Lemma py_int_floor (f : Q) : 0 <= f -> py_int f = Qfloor f.
Proof.
  destruct f as [n d]. unfold py_int, Qfloor, Qle. simpl. intro H.
  apply Z.quot_div_nonneg; lia.
Qed.

(** X14. The frame-rate block never raises; it is absent exactly when no
    clip has a usable frame rate.  Otherwise its "common values" are the
    frame rates truncated to integers, each once and in ascending order,
    and its mean and median lie between the least and the greatest frame
    rate.  The truncated value is not always the key under which the
    frame-rate table files the clip: for a positive frame rate that key is
    the truncated value or the next integer. *)
Theorem fps_block_lists_truncated_rates (clips : list clip) :
  exists o,
    fps_block_of clips = Ok o
    /\ (o = None <-> forall c, In c clips -> truthy (fps c) = false)
    /\ (forall fb,
           o = Some fb ->
           StronglySorted Z.lt (fb_common fb)
           /\ (forall z,
                  In z (fb_common fb)
                  <-> exists c f, In c clips /\ fps c = Some f
                                  /\ ~ f == 0 /\ py_int f = z)
           /\ py_min (fps_values clips) <= fb_mean fb
           /\ fb_mean fb <= py_max (fps_values clips)
           /\ py_min (fps_values clips) <= fb_median fb
           /\ fb_median fb <= py_max (fps_values clips))
    /\ (forall c f,
           fps c = Some f -> 0 < f ->
           fps_rounded c = py_int f \/ fps_rounded c = (py_int f + 1)%Z).
Proof.
  unfold fps_block_of. cbv zeta.
  assert (Hround : forall c f,
             fps c = Some f -> 0 < f ->
             fps_rounded c = py_int f \/ fps_rounded c = (py_int f + 1)%Z).
  { intros c f Hf Hpos. unfold fps_rounded. rewrite Hf. simpl.
    assert (Hn : Qeq_bool f 0 = false) by (apply Qeq_bool_false; lra).
    rewrite Hn. simpl. rewrite py_int_floor by lra.
    unfold round. destruct (Qcompare _ _); [destruct (Z.even _)| |]; tauto. }
  assert (Hnone : fps_values clips = []
                  <-> forall c, In c clips -> truthy (fps c) = false).
  { unfold fps_values. split.
    - intros H c Hc. destruct (truthy (fps c)) eqn:E; [|reflexivity].
      assert (Hin : In c (filter (fun c0 => truthy (fps c0)) clips))
        by (apply filter_In; split; assumption).
      apply map_eq_nil in H. rewrite H in Hin. destruct Hin.
    - intro H. rewrite (filter_none _ clips H). reflexivity. }
  destruct (nonempty (fps_values clips)) eqn:E.
  - apply nonempty_true in E.
    destruct (py_min_spec _ E) as [_ Hmin].
    destruct (py_max_spec _ E) as [_ Hmax].
    assert (Hall : Forall (fun y => py_min (fps_values clips) <= y
                                    /\ y <= py_max (fps_values clips))
                          (fps_values clips)).
    { rewrite Forall_forall in *. intros y Hy. split; auto. }
    destruct (mean_between _ _ _ E Hall) as (m & -> & Hm1 & Hm2).
    destruct (median_between _ _ _ E Hall) as (d & -> & Hd1 & Hd2).
    cbn [bind]. eexists. split; [reflexivity|].
    split; [split; [discriminate | intro H; apply Hnone in H; contradiction]|].
    split; [|exact Hround].
    intros fb Hfb. inversion Hfb; subst fb; clear Hfb.
    cbn [fb_common fb_mean fb_median].
    destruct (sorted_set_spec (map py_int (fps_values clips))) as [Hs Hin].
    split; [exact Hs|]. split.
    + intro z. rewrite Hin, in_map_iff. split.
      * intros (x & Hz & Hx). apply fps_values_In in Hx.
        destruct Hx as (c & Hc & Hf & Hn). exists c, x. tauto.
      * intros (c & f & Hc & Hf & Hn & Hz). exists f. split; [exact Hz|].
        apply fps_values_In. exists c. tauto.
    + tauto.
  - apply nonempty_false in E.
    eexists. split; [reflexivity|].
    split; [split; [intros _; apply Hnone; exact E | reflexivity]|].
    split; [intros fb Hfb; discriminate Hfb | exact Hround].
Qed.

(** ** Audio presence *)

Lemma audio_members (clips : list clip) :
  length (get String.eqb "with_audio"%string [] (audio_groups clips))
  = length (filter has_audio clips)
  /\ length (get String.eqb "without_audio"%string [] (audio_groups clips))
     = length (filter (fun c => negb (has_audio c)) clips).
Proof.
  unfold audio_groups.
  rewrite !(group_from_get String.eqb String.eqb_spec). simpl.
  unfold members. rewrite !length_map. split; f_equal;
    apply filter_ext; intro c; unfold audio_key;
    destruct (has_audio c); reflexivity.
Qed.

Lemma filter_complement_length {A : Type} (p : A -> bool) (l : list A) :
  (length (filter p l) + length (filter (fun x => negb (p x)) l))%nat
  = length l.
Proof.
  induction l as [|x l IH]; simpl; [reflexivity|].
  destruct (p x); simpl; lia.
Qed.

(** X15. With at least one clip the audio block completes; the clips with
    and without audio add up to the number of clips, each count is printed
    with count / file_count * 100, the two counts are the sizes of the two
    audio groups, and a line of the audio table is printed exactly for a
    group that is not empty. *)
Theorem audio_presence_adds_up (clips : list clip) :
  clips <> [] ->
  exists ap w wo,
    audio_presence_of clips (Z.of_nat (length clips)) = Ok ap
    /\ (ap_with ap + ap_without ap)%Z = Z.of_nat (length clips)
    /\ ap_with ap = Z.of_nat (length (filter has_audio clips))
    /\ ap_with_pct ap
       = inject_Z (ap_with ap) / inject_Z (Z.of_nat (length clips)) * 100
    /\ ap_without_pct ap
       = inject_Z (ap_without ap) / inject_Z (Z.of_nat (length clips)) * 100
    /\ ap_with ap
       = Z.of_nat (length (get String.eqb "with_audio"%string []
                               (audio_groups clips)))
    /\ ap_without ap
       = Z.of_nat (length (get String.eqb "without_audio"%string []
                               (audio_groups clips)))
    /\ audio_row "with_audio" (audio_groups clips) = Ok w
    /\ audio_row "without_audio" (audio_groups clips) = Ok wo
    /\ (w = None <-> ap_with ap = 0%Z)
    /\ (wo = None <-> ap_without ap = 0%Z).
Proof.
  intro Hne.
  assert (HN : Z.of_nat (length clips) <> 0%Z)
    by (destruct clips; [contradiction | simpl; lia]).
  destruct (audio_members clips) as [Hw Hwo].
  pose proof (filter_complement_length has_audio clips) as Hsum.
  unfold audio_presence_of. cbv zeta.
  rewrite !(percentage_nonzero _ _ HN). cbn [bind].
  assert (Hrow : forall label,
             exists o,
               audio_row label (audio_groups clips) = Ok o
               /\ (o = None
                   <-> Z.of_nat (length (get String.eqb label []
                                             (audio_groups clips))) = 0%Z)).
  { intro label. unfold audio_row. cbv zeta.
    destruct (get String.eqb label [] (audio_groups clips)) as [|x l] eqn:E.
    - exists None. split; [reflexivity|]. split; reflexivity.
    - cbn [nonempty]. rewrite (mean_nonempty (x :: l)) by discriminate.
      cbn [bind]. eexists. split; [reflexivity|].
      split; [discriminate | simpl; lia]. }
  destruct (Hrow "with_audio"%string) as (w & Hrw & Hnw).
  destruct (Hrow "without_audio"%string) as (wo & Hrwo & Hnwo).
  eexists. exists w, wo. split; [reflexivity|].
  cbn [ap_with ap_without ap_with_pct ap_without_pct].
  rewrite Hw in Hnw. rewrite Hwo in Hnwo.
  repeat match goal with |- _ /\ _ => split end;
    try assumption.
  - lia.
  - reflexivity.
  - reflexivity.
  - reflexivity.
  - rewrite Hw. reflexivity.
  - rewrite Hwo. f_equal. lia.
  - rewrite Hnwo. lia.
Qed.

Lemma audio_presence_adds_up_witness :
  records_of (dir_glob_mp4 dir_three) <> []
  /\ exists ap,
      audio_presence_of (records_of (dir_glob_mp4 dir_three))
                        (Z.of_nat (length (records_of (dir_glob_mp4 dir_three))))
      = Ok ap
      /\ (ap_with ap + ap_without ap)%Z = 3%Z.
Proof.
  assert (H : records_of (dir_glob_mp4 dir_three) <> [])
    by (simpl; discriminate).
  split; [exact H|].
  destruct (audio_presence_adds_up _ H) as (ap & _ & _ & Hap & Hsum & _).
  exists ap. split; [exact Hap | exact Hsum].
Defined.

(** ** When the comparison completes *)

Lemma difference_line_Ok (a b : Q) (line : option (Q * Q)) :
  difference_line true a b = Ok line -> ~ b == 0.
Proof.
  unfold difference_line. intro H. apply bind_Ok in H.
  destruct H as (p & Hp & _). apply percent_diff_Ok in Hp. tauto.
Qed.

(** X16. The comparison of the high outliers with the normal clips
    completes exactly when the high outliers have at least one usable
    frame rate and, if there are normal clips, the normal clips have a
    mean frame rate, a mean bitrate, a mean duration and a mean pixel
    count that exist and are not zero.  When it does not complete it
    raises [StatisticsError] or [ZeroDivisionError], nothing else. *)
Theorem comparison_completes_iff_means_usable
        (clips high : list clip) (lo hi : Q) :
  ((exists cmp, compare_high_vs_normal clips high lo hi = Ok cmp)
   <-> fps_values high <> []
       /\ (normal_clips_of clips lo hi <> [] ->
           nonzero_mean (fps_values (normal_clips_of clips lo hi))
           /\ nonzero_mean (map bitrate (normal_clips_of clips lo hi))
           /\ nonzero_mean (map duration (normal_clips_of clips lo hi))
           /\ nonzero_mean (map (fun c => inject_Z (pixels_per_frame c))
                                (normal_clips_of clips lo hi))))
  /\ (forall e, compare_high_vs_normal clips high lo hi = Raise e ->
                e = StatisticsError \/ e = ZeroDivisionError).
Proof.
  split; [|intros e He; exact (compare_raises _ _ _ _ _ He)].
  split.
  - intros (cmp & H). unfold compare_high_vs_normal in H. cbv zeta in H.
    apply bind_Ok in H. destruct H as (hf & Hhf & H).
    apply bind_Ok in H. destruct H as (nf & Hnf & H).
    apply bind_Ok in H. destruct H as (lf & Hlf & H).
    apply bind_Ok in H. destruct H as (hb & Hhb & H).
    apply bind_Ok in H. destruct H as (nb & Hnb & H).
    apply bind_Ok in H. destruct H as (lb & Hlb & H).
    apply bind_Ok in H. destruct H as (hd & Hhd & H).
    apply bind_Ok in H. destruct H as (nd & Hnd & H).
    apply bind_Ok in H. destruct H as (ld & Hld & H).
    apply bind_Ok in H. destruct H as (ha & Hha & H).
    apply bind_Ok in H. destruct H as (na & Hna & H).
    apply bind_Ok in H. destruct H as (hp & Hhp & H).
    apply bind_Ok in H. destruct H as (np & Hnp & H).
    apply bind_Ok in H. destruct H as (lp & Hlp & H).
    split; [exact (mean_Ok_nonempty _ _ Hhf)|].
    intro Hne. apply nonempty_true in Hne.
    rewrite Hne in Hnf, Hlf, Hnb, Hlb, Hnd, Hld, Hnp, Hlp.
    repeat split.
    + exists nf. split; [exact Hnf | exact (difference_line_Ok _ _ _ Hlf)].
    + exists nb. split; [exact Hnb | exact (difference_line_Ok _ _ _ Hlb)].
    + exists nd. split; [exact Hnd | exact (difference_line_Ok _ _ _ Hld)].
    + exists np. split; [exact Hnp | exact (difference_line_Ok _ _ _ Hlp)].
  - intros [Hhigh Hnormal]. apply compare_completes; [|exact Hnormal].
    rewrite (mean_nonempty _ Hhigh). eexists. reflexivity.
Qed.

(** ** The whole report *)

Lemma stat_block_completes (values : list Q) :
  values <> [] -> exists sb, stat_block_of values = Ok sb.
Proof.
  intro Hne.
  destruct (py_min_spec values Hne) as [_ Hmin].
  destruct (py_max_spec values Hne) as [_ Hmax].
  assert (Hall : Forall (fun y => py_min values <= y /\ y <= py_max values)
                        values).
  { rewrite Forall_forall in *. intros y Hy. split; auto. }
  destruct (median_between _ _ values Hne Hall) as (d & Hd & _).
  unfold stat_block_of. rewrite (mean_nonempty values Hne), Hd. cbn [bind].
  eexists. reflexivity.
Qed.

Lemma fps_block_completes (clips : list clip) :
  exists o, fps_block_of clips = Ok o.
Proof.
  unfold fps_block_of. cbv zeta.
  destruct (nonempty (fps_values clips)) eqn:E; [|eexists; reflexivity].
  apply nonempty_true in E.
  destruct (py_min_spec _ E) as [_ Hmin].
  destruct (py_max_spec _ E) as [_ Hmax].
  assert (Hall : Forall (fun y => py_min (fps_values clips) <= y
                                  /\ y <= py_max (fps_values clips))
                        (fps_values clips)).
  { rewrite Forall_forall in *. intros y Hy. split; auto. }
  destruct (median_between _ _ _ E Hall) as (d & Hd & _).
  rewrite (mean_nonempty _ E), Hd. cbn [bind]. eexists. reflexivity.
Qed.

Lemma audio_row_completes (label : string) (groups : list (string * list Q)) :
  exists o, audio_row label groups = Ok o.
Proof.
  unfold audio_row. cbv zeta.
  destruct (get String.eqb label [] groups) as [|x l]; [eexists; reflexivity|].
  cbn [nonempty]. rewrite (mean_nonempty (x :: l)) by discriminate.
  cbn [bind]. eexists. reflexivity.
Qed.

Lemma recommend_completes (clips : list clip) :
  clips <> [] ->
  exists r, recommend (resolutions_of clips) (res_groups clips)
                      (Z.of_nat (length clips)) = Ok r.
Proof.
  intro Hne.
  assert (HN0 : Z.of_nat (length clips) <> 0%Z)
    by (destruct clips; [contradiction | simpl; lia]).
  unfold recommend. cbv zeta. unfold div at 1.
  assert (Hz : Qeq_bool (inject_Z (Z.of_nat (length clips))) 0 = false).
  { apply Qeq_bool_false. rewrite inject_Z_zero_iff. exact HN0. }
  rewrite Hz. cbn [bind].
  destruct (Qltb (4 # 5) _).
  - rewrite (percentage_nonzero _ _ HN0). cbn [bind]. eexists. reflexivity.
  - destruct (for_each_group_row
                (filter (fun g => (3 <=? group_len g)%Z)
                        (firstn 3 (sorted_key_reverse group_len
                                                      (res_groups clips)))))
      as (table & Htable & _).
    { apply Forall_forall. intros g Hg. apply filter_In in Hg. lia. }
    rewrite (for_each_means _ _ Htable). cbn [bind]. eexists. reflexivity.
Qed.

(** The whole report ends as its outlier section does: every other block
    completes. *)
Lemma full_report_by_outlier_section (v : statistics_version)
      (files : list video_file) :
  records_of files <> [] ->
  exists (make : outlier_report -> full_report),
    print_full_report v (scan files)
    = (o <- outlier_section v (records_of files) ;; Ok (make o))
    /\ (forall o, fr_outliers (make o) = o)
    /\ (forall o, res_table (res_groups (records_of files))
                  = Ok (fr_res_table (make o)))
    /\ (forall o, fps_table (fps_groups (records_of files))
                  = Ok (fr_fps_table (make o))).
Proof.
  intro Hne.
  destruct (scan_records files) as (Hclips & Hcount & _).
  assert (HN0 : Z.of_nat (length (records_of files)) <> 0%Z)
    by (destruct (records_of files); [contradiction | simpl; lia]).
  unfold print_full_report. rewrite Hclips, Hcount. cbv zeta.
  destruct (stat_block_completes
              (map (fun c => inject_Z (file_size c)) (records_of files)))
    as (b1 & ->); [destruct (records_of files); [contradiction | discriminate]|].
  destruct (stat_block_completes (map duration (records_of files)))
    as (b2 & ->); [destruct (records_of files); [contradiction | discriminate]|].
  destruct (stat_block_completes (map bytes_per_second (records_of files)))
    as (b3 & ->); [destruct (records_of files); [contradiction | discriminate]|].
  destruct (stat_block_completes (map bitrate (records_of files)))
    as (b4 & ->); [destruct (records_of files); [contradiction | discriminate]|].
  destruct (fps_block_completes (records_of files)) as (fb & ->).
  destruct (distribution_rows
              (sorted_key_reverse snd (resolutions_of (records_of files)))
              _ HN0) as (rows & Hrows & _).
  unfold resolution_distribution. rewrite Hrows.
  destruct (tables_complete (records_of files))
    as (res_rows & fps_rows & Hres & Hfps).
  rewrite Hres, Hfps.
  destruct (audio_row_completes "with_audio" (audio_groups (records_of files)))
    as (w & ->).
  destruct (audio_row_completes "without_audio"
                                (audio_groups (records_of files)))
    as (wo & ->).
  destruct (recommend_completes (records_of files) Hne) as (adv & ->).
  unfold audio_presence_of. cbv zeta.
  rewrite !(percentage_nonzero _ _ HN0).
  cbn [bind].
  eexists (fun o => _). split; [reflexivity|].
  split; [reflexivity|]. split; intro o; reflexivity.
Qed.

(** X17. With at least one readable file, every block of the report other
    than the outlier section completes: the four statistics blocks, the
    frame-rate block, the resolution distribution, the audio block, the
    three group tables and the recommendation never raise.  The whole
    report therefore raises exactly the exception the outlier section
    raises, and completes exactly when the outlier section does. *)
Theorem only_the_outlier_section_can_fail
        (v : statistics_version) (files : list video_file) :
  records_of files <> [] ->
  (forall e,
      print_full_report v (scan files) = Raise e
      <-> outlier_section v (records_of files) = Raise e)
  /\ (forall o,
         outlier_section v (records_of files) = Ok o
         <-> exists fr, print_full_report v (scan files) = Ok fr
                        /\ fr_outliers fr = o)
  /\ (forall fr,
         print_full_report v (scan files) = Ok fr ->
         res_table (res_groups (records_of files)) = Ok (fr_res_table fr)
         /\ fps_table (fps_groups (records_of files)) = Ok (fr_fps_table fr))
  /\ (forall e,
         print_full_report v (scan files) = Raise e
         <-> print_report v (scan files) = Raise e).
Proof.
  intro Hne.
  destruct (full_report_by_outlier_section v files Hne)
    as (make & Hfull & Hout & Hres & Hfps).
  destruct (scan_records files) as (Hclips & _ & _).
  assert (Hrep : forall e, print_report v (scan files) = Raise e
                           <-> outlier_section v (records_of files) = Raise e).
  { intro e. unfold print_report. rewrite Hclips. cbv zeta.
    destruct (tables_complete (records_of files))
      as (res_rows & fps_rows & -> & ->).
    cbn [bind].
    destruct (outlier_section v (records_of files)); cbn [bind];
      split; intro H; congruence. }
  rewrite Hfull.
  destruct (outlier_section v (records_of files)) as [o|e0] eqn:E; cbn [bind].
  - split; [intro e; split; intro H; discriminate H|].
    split.
    { intro o'. split.
      - intro H. inversion H; subst o'. exists (make o).
        split; [reflexivity | apply Hout].
      - intros (fr & Hfr & Ho). inversion Hfr; subst fr.
        rewrite Hout in Ho. congruence. }
    split.
    { intros fr Hfr. inversion Hfr; subst fr. split; [apply Hres | apply Hfps]. }
    intro e. rewrite Hrep. split; intro H; discriminate H.
  - split; [intro e; split; intro H; inversion H; reflexivity|].
    split.
    { intro o'. split; [intro H; discriminate H|].
      intros (fr & Hfr & _). discriminate Hfr. }
    split; [intros fr Hfr; discriminate Hfr|].
    intro e. rewrite Hrep. split; intro H; inversion H; reflexivity.
Qed.

Lemma only_the_outlier_section_can_fail_witness :
  records_of (dir_glob_mp4 dir_zero_duration) <> []
  /\ print_full_report UpTo312 (scan (dir_glob_mp4 dir_zero_duration))
     = Raise ZeroDivisionError.
Proof.
  assert (H : records_of (dir_glob_mp4 dir_zero_duration) <> [])
    by (simpl; discriminate).
  split; [exact H|].
  apply (proj1 (only_the_outlier_section_can_fail UpTo312 _ H)).
  vm_compute. reflexivity.
Defined.

(** ** What a completed comparison holds *)

Lemma difference_line_value (a b : Q) (line : option (Q * Q)) :
  difference_line true a b = Ok line ->
  line = Some (a - b, (a / b - 1) * 100).
Proof.
  unfold difference_line. intro H. apply bind_Ok in H.
  destruct H as (p & Hp & H). apply percent_diff_Ok in Hp.
  destruct Hp as [_ ->]. inversion H. reflexivity.
Qed.

Lemma audio_pct_range (clips : list clip) (p : Q) :
  audio_pct clips = Ok p -> 0 <= p /\ p <= 100.
Proof.
  unfold audio_pct. intro H. apply bind_Ok in H. destruct H as (r & Hr & H).
  inversion H; subst p; clear H.
  unfold div in Hr. destruct (Qeq_bool _ 0) eqn:E; [discriminate Hr|].
  apply Qeq_bool_false in E. inversion Hr; subst r; clear Hr.
  assert (Hn : 0 < inject_Z (Z.of_nat (length clips))).
  { rewrite inject_Z_zero_iff in E.
    change 0 with (inject_Z 0). rewrite <- Zlt_Qlt. lia. }
  assert (H0 : 0 <= inject_Z (Z.of_nat (length (filter has_audio clips)))).
  { change 0 with (inject_Z 0). rewrite <- Zle_Qle. lia. }
  assert (H1 : inject_Z (Z.of_nat (length (filter has_audio clips)))
               <= inject_Z (Z.of_nat (length clips))).
  { rewrite <- Zle_Qle. pose proof (filter_length_le has_audio clips). lia. }
  assert (Hq0 : 0 <= inject_Z (Z.of_nat (length (filter has_audio clips)))
                     / inject_Z (Z.of_nat (length clips))).
  { apply Qle_shift_div_l; [exact Hn | lra]. }
  assert (Hq1 : inject_Z (Z.of_nat (length (filter has_audio clips)))
                / inject_Z (Z.of_nat (length clips)) <= 1).
  { apply Qle_shift_div_r; [exact Hn | lra]. }
  split; lra.
Qed.

Lemma audio_pct_value (clips : list clip) (p : Q) :
  audio_pct clips = Ok p ->
  p = inject_Z (Z.of_nat (length (filter has_audio clips)))
      / inject_Z (Z.of_nat (length clips)) * 100.
Proof.
  unfold audio_pct. intro H. apply bind_Ok in H. destruct H as (r & Hr & H).
  unfold div in Hr. destruct (Qeq_bool _ 0); [discriminate Hr|].
  inversion Hr; subst r. inversion H. reflexivity.
Qed.

(** X18. A completed comparison holds what it prints.  The normal clips
    are the clips within the fence.  Each pair of means, for the frame
    rate, the bitrate, the duration and the pixels per frame, is the mean
    of that field over the high outliers and over the normal clips, the
    frame rate being averaged over the clips that have one.  Each audio
    rate is the number of clips of its group that have audio, divided by
    the size of the group, times 100, and lies between 0 and 100.  Each
    "Difference" line is the difference of the two means together with
    [(outlier_mean / normal_mean - 1) * 100], and the percentage carried
    by a finding is the one printed in the difference line of its field,
    the audio finding carrying the difference of the two rates. *)
Theorem comparison_prints_consistent_lines
        (clips high : list clip) (lo hi : Q) (cmp : comparison) :
  compare_high_vs_normal clips high lo hi = Ok cmp ->
  normal_clips cmp <> [] ->
  normal_clips cmp = normal_clips_of clips lo hi
  /\ mean (fps_values high) = Ok (high_avg_fps cmp)
  /\ mean (fps_values (normal_clips cmp)) = Ok (normal_avg_fps cmp)
  /\ mean (map bitrate high) = Ok (high_avg_bitrate cmp)
  /\ mean (map bitrate (normal_clips cmp)) = Ok (normal_avg_bitrate cmp)
  /\ mean (map duration high) = Ok (high_avg_duration cmp)
  /\ mean (map duration (normal_clips cmp)) = Ok (normal_avg_duration cmp)
  /\ mean (map (fun c => inject_Z (pixels_per_frame c)) high)
     = Ok (high_avg_pixels cmp)
  /\ mean (map (fun c => inject_Z (pixels_per_frame c)) (normal_clips cmp))
     = Ok (normal_avg_pixels cmp)
  /\ audio_pct high = Ok (high_audio_pct cmp)
  /\ audio_pct (normal_clips cmp) = Ok (normal_audio_pct cmp)
  /\ high_audio_pct cmp
     = inject_Z (Z.of_nat (length (filter has_audio high)))
       / inject_Z (Z.of_nat (length high)) * 100
  /\ normal_audio_pct cmp
     = inject_Z (Z.of_nat (length (filter has_audio (normal_clips cmp))))
       / inject_Z (Z.of_nat (length (normal_clips cmp))) * 100
  /\ fps_difference cmp
     = Some (high_avg_fps cmp - normal_avg_fps cmp,
             (high_avg_fps cmp / normal_avg_fps cmp - 1) * 100)
  /\ bitrate_difference cmp
     = Some (high_avg_bitrate cmp - normal_avg_bitrate cmp,
             (high_avg_bitrate cmp / normal_avg_bitrate cmp - 1) * 100)
  /\ duration_difference cmp
     = Some (high_avg_duration cmp - normal_avg_duration cmp,
             (high_avg_duration cmp / normal_avg_duration cmp - 1) * 100)
  /\ pixels_difference cmp
     = Some (high_avg_pixels cmp - normal_avg_pixels cmp,
             (high_avg_pixels cmp / normal_avg_pixels cmp - 1) * 100)
  /\ (0 <= high_audio_pct cmp /\ high_audio_pct cmp <= 100)
  /\ (0 <= normal_audio_pct cmp /\ normal_audio_pct cmp <= 100)
  /\ (forall field p,
         In (field, p) (findings cmp) ->
         match field with
         | FieldFps => exists d, fps_difference cmp = Some (d, p)
         | FieldBitrate => exists d, bitrate_difference cmp = Some (d, p)
         | FieldPixels => exists d, pixels_difference cmp = Some (d, p)
         | FieldAudio => p = high_audio_pct cmp - normal_audio_pct cmp
         | FieldDuration => False
         end).
Proof.
  intros H Hne.
  pose proof (compare_normal_clips _ _ _ _ _ H) as Hnc.
  destruct (compare_findings _ _ _ _ _ H) as [Hfind _].
  unfold compare_high_vs_normal in H. cbv zeta in H.
  rewrite <- Hnc in H.
  apply nonempty_true in Hne. rewrite Hne in H, Hfind.
  apply bind_Ok in H. destruct H as (hf & Hhf & H).
  apply bind_Ok in H. destruct H as (nf & Hnf & H).
  apply bind_Ok in H. destruct H as (lf & Hlf & H).
  apply bind_Ok in H. destruct H as (hb & Hhb & H).
  apply bind_Ok in H. destruct H as (nb & Hnb & H).
  apply bind_Ok in H. destruct H as (lb & Hlb & H).
  apply bind_Ok in H. destruct H as (hd & Hhd & H).
  apply bind_Ok in H. destruct H as (nd & Hnd & H).
  apply bind_Ok in H. destruct H as (ld & Hld & H).
  apply bind_Ok in H. destruct H as (ha & Hha & H).
  apply bind_Ok in H. destruct H as (na & Hna & H).
  apply bind_Ok in H. destruct H as (hp & Hhp & H).
  apply bind_Ok in H. destruct H as (np & Hnp & H).
  apply bind_Ok in H. destruct H as (lp & Hlp & H).
  apply bind_Ok in H. destruct H as (fs & Hfs & H).
  apply difference_line_value in Hlf, Hlb, Hld, Hlp.
  apply key_findings_spec in Hfind.
  destruct Hfind as (pf & pb & pp & Hpf & Hpb & Hpp & Hfind).
  apply percent_diff_Ok in Hpf, Hpb, Hpp.
  destruct Hpf as [_ Hpf]. destruct Hpb as [_ Hpb]. destruct Hpp as [_ Hpp].
  injection H as Hcmp.
  pose proof (f_equal high_avg_fps Hcmp) as E1.
  pose proof (f_equal normal_avg_fps Hcmp) as E2.
  pose proof (f_equal high_avg_bitrate Hcmp) as E3.
  pose proof (f_equal normal_avg_bitrate Hcmp) as E4.
  pose proof (f_equal high_avg_duration Hcmp) as E5.
  pose proof (f_equal normal_avg_duration Hcmp) as E6.
  pose proof (f_equal high_avg_pixels Hcmp) as E7.
  pose proof (f_equal normal_avg_pixels Hcmp) as E8.
  pose proof (f_equal high_audio_pct Hcmp) as E9.
  pose proof (f_equal normal_audio_pct Hcmp) as E10.
  pose proof (f_equal fps_difference Hcmp) as E11.
  pose proof (f_equal bitrate_difference Hcmp) as E12.
  pose proof (f_equal duration_difference Hcmp) as E13.
  pose proof (f_equal pixels_difference Hcmp) as E14.
  cbn in E1, E2, E3, E4, E5, E6, E7, E8, E9, E10, E11, E12, E13, E14.
  rewrite Hlf in E11. rewrite Hlb in E12.
  rewrite Hld in E13. rewrite Hlp in E14.
  clear Hcmp Hlf Hlb Hld Hlp.
  subst hf nf hb nb hd nd hp np ha na.
  pose proof (audio_pct_range _ _ Hha) as Rha.
  pose proof (audio_pct_range _ _ Hna) as Rna.
  pose proof (audio_pct_value _ _ Hha) as Vha.
  pose proof (audio_pct_value _ _ Hna) as Vna.
  repeat match goal with |- _ /\ _ => split end;
    try assumption; try tauto; try (symmetry; assumption).
  intros field p Hin. rewrite Hfind in Hin.
  repeat (apply in_app_or in Hin; destruct Hin as [Hin|Hin]);
    match type of Hin with
    | In _ (if ?c then _ else _) => destruct c
    end;
    simpl in Hin; try contradiction;
    destruct Hin as [Hin|[]]; inversion Hin; subst.
  - eexists. rewrite <- E11. reflexivity.
  - eexists. rewrite <- E12. reflexivity.
  - eexists. rewrite <- E14. reflexivity.
  - reflexivity.
Qed.

Lemma comparison_prints_consistent_lines_witness :
  exists r cmp,
    outlier_section UpTo312 (records_of (dir_glob_mp4 dir_high_outlier)) = Ok r
    /\ high_vs_normal r = Some cmp
    /\ normal_clips cmp <> []
    /\ duration_difference cmp
       = Some (high_avg_duration cmp - normal_avg_duration cmp,
               (high_avg_duration cmp / normal_avg_duration cmp - 1) * 100).
Proof.
  destruct (outlier_section UpTo312 (records_of (dir_glob_mp4 dir_high_outlier)))
    as [r|e] eqn:E; [|vm_compute in E; discriminate].
  destruct (outlier_section_lists _ _ _ E) as (_ & _ & _ & _ & Hc).
  destruct (high_vs_normal r) as [cmp|] eqn:Hv;
    [|vm_compute in E; inversion E; subst r; discriminate Hv].
  destruct Hc as [_ Hc].
  assert (Hne : normal_clips cmp <> []).
  { vm_compute in E. inversion E; subst r. inversion Hv. discriminate. }
  exists r, cmp. split; [reflexivity|]. split; [exact Hv|].
  split; [exact Hne|].
  destruct (comparison_prints_consistent_lines _ _ _ _ _ Hc Hne)
    as (_ & _ & _ & _ & _ & _ & _ & _ & _ & _ & _ & _ & _ & _ & _ & Hd & _).
  exact Hd.
Defined.

(** * Properties on binary64 floats *)

Section Binary64Facts.
Import Binary64.
Local Open Scope float_scope.

Lemma percent_diff_binary64 (a b p : float) :
  percent_diff a b = Ok p -> (b =? 0) = false /\ p = (a / b - 1) * 100.
Proof.
  unfold percent_diff, div. destruct (b =? 0); simpl; intro H.
  - discriminate.
  - inversion H. split; reflexivity.
Qed.

(** The findings are the four tests in order, each contributing at most
    one entry. *)
Lemma key_findings_binary64 (hf nf hb nb hp np ha na : float)
      (fs : list (tracked_field * float)) :
  key_findings true hf nf hb nb hp np ha na = Ok fs ->
  exists pf pb pp,
    percent_diff hf nf = Ok pf
    /\ percent_diff hb nb = Ok pb
    /\ percent_diff hp np = Ok pp
    /\ fs = (if 10 <? abs pf then [(FieldFps, pf)] else [])
            ++ (if 10 <? abs pb then [(FieldBitrate, pb)] else [])
            ++ (if 10 <? abs pp then [(FieldPixels, pp)] else [])
            ++ (if 20 <? abs (ha - na) then [(FieldAudio, ha - na)] else []).
Proof.
  intro H. unfold key_findings in H. cbv zeta in H.
  apply bind_Ok in H. destruct H as (pf & Hpf & H).
  apply bind_Ok in H. destruct H as (pb & Hpb & H).
  apply bind_Ok in H. destruct H as (pp & Hpp & H).
  exists pf, pb, pp. repeat split; try assumption.
  revert H.
  destruct (10 <? abs pf), (10 <? abs pb), (10 <? abs pp),
    (20 <? abs (ha - na)); intro H; injection H as <-; reflexivity.
Qed.

(** What a completed comparison holds, field by field. *)
Lemma comparison_binary64
      (clips high : list clip) (lo hi : float) (cmp : comparison) :
  compare_high_vs_normal clips high lo hi = Ok cmp ->
  normal_clips cmp = normal_clips_of clips lo hi
  /\ mean (fps_values high) = Ok (high_avg_fps cmp)
  /\ (if nonempty (normal_clips cmp)
      then mean (fps_values (normal_clips cmp)) else Ok 0)
     = Ok (normal_avg_fps cmp)
  /\ difference_line (nonempty (normal_clips cmp))
                     (high_avg_fps cmp) (normal_avg_fps cmp)
     = Ok (fps_difference cmp)
  /\ mean (map bitrate high) = Ok (high_avg_bitrate cmp)
  /\ (if nonempty (normal_clips cmp)
      then mean (map bitrate (normal_clips cmp)) else Ok 0)
     = Ok (normal_avg_bitrate cmp)
  /\ difference_line (nonempty (normal_clips cmp))
                     (high_avg_bitrate cmp) (normal_avg_bitrate cmp)
     = Ok (bitrate_difference cmp)
  /\ mean (map duration high) = Ok (high_avg_duration cmp)
  /\ (if nonempty (normal_clips cmp)
      then mean (map duration (normal_clips cmp)) else Ok 0)
     = Ok (normal_avg_duration cmp)
  /\ difference_line (nonempty (normal_clips cmp))
                     (high_avg_duration cmp) (normal_avg_duration cmp)
     = Ok (duration_difference cmp)
  /\ audio_pct high = Ok (high_audio_pct cmp)
  /\ (if nonempty (normal_clips cmp)
      then audio_pct (normal_clips cmp) else Ok 0)
     = Ok (normal_audio_pct cmp)
  /\ mean (map (fun c => of_int (pixels_per_frame c)) high)
     = Ok (high_avg_pixels cmp)
  /\ (if nonempty (normal_clips cmp)
      then mean (map (fun c => of_int (pixels_per_frame c)) (normal_clips cmp))
      else Ok 0)
     = Ok (normal_avg_pixels cmp)
  /\ difference_line (nonempty (normal_clips cmp))
                     (high_avg_pixels cmp) (normal_avg_pixels cmp)
     = Ok (pixels_difference cmp)
  /\ key_findings (nonempty (normal_clips cmp))
                  (high_avg_fps cmp) (normal_avg_fps cmp)
                  (high_avg_bitrate cmp) (normal_avg_bitrate cmp)
                  (high_avg_pixels cmp) (normal_avg_pixels cmp)
                  (high_audio_pct cmp) (normal_audio_pct cmp)
     = Ok (findings cmp).
Proof.
  intro H. unfold compare_high_vs_normal in H. cbv zeta in H.
  do 15 bind_inv H.
  inversion H. cbn.
  repeat match goal with |- _ /\ _ => split end;
    try assumption; reflexivity.
Qed.

(** What a completed outlier section holds. *)
Lemma outlier_section_binary64 (v : statistics_version) (clips : list clip)
      (r : outlier_report) :
  outlier_section v clips = Ok r ->
  outlier_fence v (map bytes_per_second clips) = Ok (bounds r)
  /\ outliers r = outliers_of clips (lower_bound (bounds r))
                              (upper_bound (bounds r))
  /\ match high_vs_normal r with
     | Some cmp =>
         high_outliers r <> []
         /\ compare_high_vs_normal clips (high_outliers r)
                                   (lower_bound (bounds r))
                                   (upper_bound (bounds r)) = Ok cmp
     | None => high_outliers r = []
     end.
Proof.
  intro H. unfold outlier_section in H.
  apply bind_Ok in H. destruct H as (b & Hb & H). cbv zeta in H.
  set (out := outliers_of clips (lower_bound b) (upper_bound b)) in *.
  destruct (nonempty out) eqn:Hout.
  - set (high := high_outliers_of out (upper_bound b)) in *.
    set (low := low_outliers_of out (lower_bound b)) in *.
    set (high' := if nonempty high
                  then sorted_key_reverse bytes_per_second high else high) in *.
    set (low' := if nonempty low
                 then sorted_key bytes_per_second low else low) in *.
    apply bind_Ok in H. destruct H as (hl & _ & H).
    apply bind_Ok in H. destruct H as (ll & _ & H).
    apply bind_Ok in H. destruct H as (hvn & Hhvn & H).
    inversion H; subst r; clear H.
    cbn [bounds outliers high_outliers high_vs_normal].
    split; [exact Hb|]. split; [reflexivity|].
    destruct (nonempty high') eqn:Hne.
    + apply bind_Ok in Hhvn. destruct Hhvn as (cmp & Hcmp & Hsome).
      inversion Hsome; subst hvn. split; [|exact Hcmp].
      apply nonempty_true. exact Hne.
    + inversion Hhvn; subst hvn. apply nonempty_false. exact Hne.
  - inversion H; subst r; clear H.
    cbn [bounds outliers high_outliers high_vs_normal].
    split; [exact Hb|]. split; reflexivity.
Qed.

(** A filter whose test gives one answer on the whole list keeps all of
    it or nothing. *)
Lemma filter_all_or_nothing {A : Type} (p : A -> bool) (l : list A) (b : bool) :
  (forall x, In x l -> p x = b) -> filter p l = if b then l else [].
Proof.
  induction l as [|x l IH]; intro H; simpl.
  - destruct b; reflexivity.
  - rewrite (H x) by (left; reflexivity).
    rewrite IH by (intros y Hy; apply H; right; exact Hy).
    destruct b; reflexivity.
Qed.

(** ** Key findings *)

(** C7, as stated, fails: here the normal group is not empty and the mean
    duration of the high outliers is 50 percent below that of the normal
    clips, yet no finding names the duration; the only finding is the
    bitrate. *)
Lemma duration_difference_is_no_finding :
  exists r cmp,
    outlier_section UpTo312 clips_high_outlier = Ok r
    /\ high_vs_normal r = Some cmp
    /\ normal_clips cmp <> []
    /\ high_avg_duration cmp = 5 /\ normal_avg_duration cmp = 10
    /\ (exists d p, duration_difference cmp = Some (d, p)
                    /\ p = -50 /\ (10 <? abs p) = true)
    /\ map fst (findings cmp) = [FieldBitrate]
    /\ ~ In FieldDuration (map fst (findings cmp)).
Proof.
  eexists. eexists. split; [vm_compute; reflexivity|].
  split; [reflexivity|].
  split; [simpl; discriminate|].
  split; [reflexivity|]. split; [reflexivity|].
  split.
  { eexists. eexists. split; [reflexivity|].
    split; vm_compute; reflexivity. }
  split; [reflexivity|].
  simpl. intros [H|[]]. discriminate H.
Qed.

(** C7, amended. When a comparison completes with a non-empty normal
    group, the findings are decided by fixed thresholds on the numbers the
    script computes.  The means compared are those of the high outliers
    and of the normal clips, the normal means are not zero, and the percent
    difference of a field is [(outlier_mean / normal_mean - 1) * 100]
    evaluated in binary64.  The frame rate, the bitrate and the pixels per
    frame are findings exactly when the absolute value of that number
    exceeds 10, the audio presence exactly when the absolute difference of
    the two rates exceeds 20, and the duration is never a finding. *)
Theorem findings_follow_fixed_thresholds
        (clips high : list clip) (lo hi : float) (cmp : comparison) :
  compare_high_vs_normal clips high lo hi = Ok cmp ->
  normal_clips cmp <> [] ->
  normal_clips cmp = normal_clips_of clips lo hi
  /\ mean (fps_values high) = Ok (high_avg_fps cmp)
  /\ mean (fps_values (normal_clips cmp)) = Ok (normal_avg_fps cmp)
  /\ mean (map bitrate high) = Ok (high_avg_bitrate cmp)
  /\ mean (map bitrate (normal_clips cmp)) = Ok (normal_avg_bitrate cmp)
  /\ mean (map (fun c => of_int (pixels_per_frame c)) high)
     = Ok (high_avg_pixels cmp)
  /\ mean (map (fun c => of_int (pixels_per_frame c)) (normal_clips cmp))
     = Ok (normal_avg_pixels cmp)
  /\ audio_pct high = Ok (high_audio_pct cmp)
  /\ audio_pct (normal_clips cmp) = Ok (normal_audio_pct cmp)
  /\ (normal_avg_fps cmp =? 0) = false
  /\ (normal_avg_bitrate cmp =? 0) = false
  /\ (normal_avg_pixels cmp =? 0) = false
  /\ exists pf pb pp,
      pf = (high_avg_fps cmp / normal_avg_fps cmp - 1) * 100
      /\ pb = (high_avg_bitrate cmp / normal_avg_bitrate cmp - 1) * 100
      /\ pp = (high_avg_pixels cmp / normal_avg_pixels cmp - 1) * 100
      /\ findings cmp
         = (if 10 <? abs pf then [(FieldFps, pf)] else [])
           ++ (if 10 <? abs pb then [(FieldBitrate, pb)] else [])
           ++ (if 10 <? abs pp then [(FieldPixels, pp)] else [])
           ++ (if 20 <? abs (high_audio_pct cmp - normal_audio_pct cmp)
               then [(FieldAudio, high_audio_pct cmp - normal_audio_pct cmp)]
               else [])
      /\ (In FieldFps (map fst (findings cmp)) <-> (10 <? abs pf) = true)
      /\ (In FieldBitrate (map fst (findings cmp)) <-> (10 <? abs pb) = true)
      /\ (In FieldPixels (map fst (findings cmp)) <-> (10 <? abs pp) = true)
      /\ (In FieldAudio (map fst (findings cmp))
          <-> (20 <? abs (high_audio_pct cmp - normal_audio_pct cmp)) = true)
      /\ ~ In FieldDuration (map fst (findings cmp)).
Proof.
  intros Hcmp Hne.
  destruct (comparison_binary64 _ _ _ _ _ Hcmp)
    as (Hn & Hhf & Hnf & _ & Hhb & Hnb & _ & _ & _ & _ & Hha & Hna
        & Hhp & Hnp & _ & Hf).
  apply nonempty_true in Hne. rewrite Hne in Hnf, Hnb, Hna, Hnp, Hf.
  apply key_findings_binary64 in Hf.
  destruct Hf as (pf & pb & pp & Hpf & Hpb & Hpp & Hfs).
  apply percent_diff_binary64 in Hpf, Hpb, Hpp.
  destruct Hpf as [Zf Hpf]. destruct Hpb as [Zb Hpb]. destruct Hpp as [Zp Hpp].
  repeat match goal with |- _ /\ _ => split end; try assumption.
  exists pf, pb, pp.
  split; [exact Hpf|]. split; [exact Hpb|]. split; [exact Hpp|].
  split; [exact Hfs|].
  rewrite Hfs. clear.
  destruct (10 <? abs pf), (10 <? abs pb), (10 <? abs pp),
    (20 <? abs (high_audio_pct cmp - normal_audio_pct cmp));
    simpl; repeat match goal with |- _ /\ _ => split end;
    intuition (try discriminate; try congruence).
Qed.

(** The threshold is met by the computed number: with a mean frame rate
    of 33 against 30 the percent difference comes out above 10 and the
    frame rate is a finding. *)
Lemma findings_follow_fixed_thresholds_witness :
  exists r cmp,
    outlier_section UpTo312 clips_ten_percent = Ok r
    /\ high_vs_normal r = Some cmp
    /\ normal_clips cmp <> []
    /\ high_avg_fps cmp = 33 /\ normal_avg_fps cmp = 30
    /\ (10 <? abs ((high_avg_fps cmp / normal_avg_fps cmp - 1) * 100)) = true
    /\ In FieldFps (map fst (findings cmp))
    /\ ~ In FieldDuration (map fst (findings cmp)).
Proof.
  destruct (outlier_section UpTo312 clips_ten_percent) as [r|e] eqn:E;
    [|vm_compute in E; discriminate].
  destruct (outlier_section_binary64 _ _ _ E) as (_ & _ & Hc).
  destruct (high_vs_normal r) as [cmp|] eqn:Hv;
    [|vm_compute in E; inversion E; subst r; discriminate Hv].
  destruct Hc as [_ Hc].
  assert (Hne : normal_clips cmp <> []).
  { vm_compute in E. inversion E; subst r. inversion Hv. discriminate. }
  assert (Hhf : high_avg_fps cmp = 33).
  { vm_compute in E. inversion E; subst r. inversion Hv. reflexivity. }
  assert (Hnf : normal_avg_fps cmp = 30).
  { vm_compute in E. inversion E; subst r. inversion Hv. reflexivity. }
  assert (Hten : (10 <? abs ((high_avg_fps cmp / normal_avg_fps cmp - 1) * 100))
                 = true).
  { rewrite Hhf, Hnf. vm_compute. reflexivity. }
  exists r, cmp. split; [reflexivity|]. split; [exact Hv|].
  split; [exact Hne|]. split; [exact Hhf|]. split; [exact Hnf|].
  split; [exact Hten|].
  destruct (findings_follow_fixed_thresholds _ _ _ _ _ Hc Hne)
    as (_ & _ & _ & _ & _ & _ & _ & _ & _ & _ & _ & _
        & pf & pb & pp & -> & _ & _ & _ & Hf & _ & _ & _ & Hd).
  split; [apply Hf; exact Hten | exact Hd].
Defined.

(** ** Identical rates and an empty normal group *)

(** X12. When all clips have one and the same bytes-per-second value the
    test of line 222 gives one answer for all of them: the outlier list is
    the whole record list when that value lies outside the fence and
    empty otherwise.  The first case occurs.  For two files of 1000000
    bytes and 9 seconds the value [x] is 1000000 / 9 and the quartile
    interpolation [(x * 5 + x * -1) / 4] returns the float next below [x];
    both quartiles and both bounds are that number, the interquartile
    range is 0, both records lie above the fence and both are reported as
    high outliers, whichever version of the statistics module is used. *)
Theorem identical_rates_can_be_outliers :
  (forall v clips x r,
      (forall c, In c clips -> bytes_per_second c = x) ->
      outlier_section v clips = Ok r ->
      outliers r
      = (if (x <? lower_bound (bounds r)) || (upper_bound (bounds r) <? x)
         then clips else [])
      /\ (outliers r = [] \/ outliers r = clips))
  /\ (forall v, exists r,
         outlier_section v clips_twins = Ok r
         /\ (forall c, In c clips_twins
                       -> bytes_per_second c = of_int 1000000 / of_int 9)
         /\ q1 (bounds r) = next_down (of_int 1000000 / of_int 9)
         /\ q3 (bounds r) = next_down (of_int 1000000 / of_int 9)
         /\ iqr (bounds r) = 0
         /\ lower_bound (bounds r) = next_down (of_int 1000000 / of_int 9)
         /\ upper_bound (bounds r) = next_down (of_int 1000000 / of_int 9)
         /\ (upper_bound (bounds r) <? of_int 1000000 / of_int 9) = true
         /\ outliers r = clips_twins
         /\ high_outliers r = clips_twins
         /\ low_outliers r = []).
Proof.
  split.
  - intros v clips x r Hsame Hr.
    destruct (outlier_section_binary64 v clips r Hr) as (_ & -> & _).
    unfold outliers_of.
    set (b := (x <? lower_bound (bounds r)) || (upper_bound (bounds r) <? x)).
    rewrite (filter_all_or_nothing _ clips b).
    + split; [reflexivity|]. destruct b; [right | left]; reflexivity.
    + intros c Hc. unfold is_low, is_high. rewrite (Hsame c Hc). reflexivity.
  - intro v. eexists.
    split; [destruct v; vm_compute; reflexivity|].
    split.
    { intros c [<-|[<-|[]]]; vm_compute; reflexivity. }
    destruct v; repeat split; vm_compute; reflexivity.
Qed.

Lemma identical_rates_can_be_outliers_witness :
  exists r,
    outlier_section UpTo312 clips_twins = Ok r
    /\ (forall c, In c clips_twins
                  -> bytes_per_second c = of_int 1000000 / of_int 9)
    /\ (outliers r = [] \/ outliers r = clips_twins)
    /\ outliers r <> [].
Proof.
  destruct (outlier_section UpTo312 clips_twins) as [r|e] eqn:E;
    [|vm_compute in E; discriminate].
  assert (Hsame : forall c, In c clips_twins
                            -> bytes_per_second c = of_int 1000000 / of_int 9).
  { intros c [<-|[<-|[]]]; vm_compute; reflexivity. }
  exists r. split; [reflexivity|]. split; [exact Hsame|].
  split.
  - exact (proj2 (proj1 identical_rates_can_be_outliers UpTo312 clips_twins
                        (of_int 1000000 / of_int 9) r Hsame E)).
  - vm_compute in E. inversion E. simpl. discriminate.
Defined.

(** X10. When a comparison is made and its normal group is empty, no clip
    lies within the fence and there is no baseline: every mean and rate of
    the normal clips is the literal 0 of the [else] branches (lines 276,
    285, 294, 303 and 311), no "Difference" line is printed, nothing is
    divided and there is no finding, so the list under "Key Findings"
    stays empty.  This case occurs: for the two identical files above
    every record is a high outlier, the comparison is made and its normal
    group is empty. *)
Theorem empty_normal_group_gives_no_baseline :
  (forall clips high lo hi cmp,
      compare_high_vs_normal clips high lo hi = Ok cmp ->
      normal_clips cmp = [] ->
      (forall c, In c clips ->
                 (lo <=? bytes_per_second c) && (bytes_per_second c <=? hi)
                 = false)
      /\ normal_avg_fps cmp = 0
      /\ normal_avg_bitrate cmp = 0
      /\ normal_avg_duration cmp = 0
      /\ normal_audio_pct cmp = 0
      /\ normal_avg_pixels cmp = 0
      /\ fps_difference cmp = None
      /\ bitrate_difference cmp = None
      /\ duration_difference cmp = None
      /\ pixels_difference cmp = None
      /\ findings cmp = [])
  /\ (forall v, exists r cmp,
         outlier_section v clips_twins = Ok r
         /\ high_vs_normal r = Some cmp
         /\ normal_clips cmp = []
         /\ normal_clips_of clips_twins (lower_bound (bounds r))
                            (upper_bound (bounds r)) = []
         /\ length (outliers r) = length clips_twins).
Proof.
  split.
  - intros clips high lo hi cmp Hcmp Hnil.
    destruct (comparison_binary64 _ _ _ _ _ Hcmp)
      as (Hn & _ & Hnf & Hlf & _ & Hnb & Hlb & _ & Hnd & Hld & _ & Hna
          & _ & Hnp & Hlp & Hf).
    split.
    { intros c Hc.
      destruct ((lo <=? bytes_per_second c) && (bytes_per_second c <=? hi))
        eqn:Ein; [|reflexivity].
      exfalso.
      assert (Hin : In c (normal_clips_of clips lo hi))
        by (apply filter_In; split; assumption).
      rewrite <- Hn, Hnil in Hin. destruct Hin. }
    rewrite Hnil in Hnf, Hlf, Hnb, Hlb, Hnd, Hld, Hna, Hnp, Hlp, Hf.
    cbn [nonempty difference_line key_findings] in *.
    inversion Hnf. inversion Hlf. inversion Hnb. inversion Hlb.
    inversion Hnd. inversion Hld. inversion Hna. inversion Hnp.
    inversion Hlp. inversion Hf.
    repeat split.
  - intro v. eexists. eexists.
    split; [destruct v; vm_compute; reflexivity|].
    destruct v; repeat split.
Qed.

Lemma empty_normal_group_gives_no_baseline_witness :
  exists r cmp,
    outlier_section UpTo312 clips_twins = Ok r
    /\ high_vs_normal r = Some cmp
    /\ normal_clips cmp = []
    /\ normal_avg_fps cmp = 0
    /\ findings cmp = [].
Proof.
  destruct (outlier_section UpTo312 clips_twins) as [r|e] eqn:E;
    [|vm_compute in E; discriminate].
  destruct (outlier_section_binary64 _ _ _ E) as (_ & _ & Hc).
  destruct (high_vs_normal r) as [cmp|] eqn:Hv;
    [|vm_compute in E; inversion E; subst r; discriminate Hv].
  destruct Hc as [_ Hc].
  assert (Hnil : normal_clips cmp = []).
  { vm_compute in E. inversion E; subst r. inversion Hv. reflexivity. }
  exists r, cmp. split; [reflexivity|]. split; [exact Hv|].
  split; [exact Hnil|].
  destruct (proj1 empty_normal_group_gives_no_baseline _ _ _ _ _ Hc Hnil)
    as (_ & Hf & _ & _ & _ & _ & _ & _ & _ & _ & Hfs).
  split; [exact Hf | exact Hfs].
Defined.

End Binary64Facts.
